(** * The tensor-expression kernel (torch/csrc/jit/tensorexpr/kernel.cpp)

    A shallow embedding of the kernel compiler: the lowering helpers
    ([constant], [promoteInputs], [demoteOutput], [broadcastShapes],
    [valueShape]), the operator-specific lowerings of [ComputeValue] the
    properties below are about, the input binder
    ([createInputIndexExpr], [bindInput]), the backend selection
    ([PickAndCheckBackendType], [LowerToBackend]) and the run-time binder
    ([run]).

    Conventions.
    - A C++ [int]/[int32_t] is a [Z]; the narrowing conversion from
      [int64_t] is [to_int32] (wrap-around written out).
    - A C++ [float] is a [spec_float] in binary32 format, a [double] one in
      binary64 format; conversions are [binary_normalize]/[binary_round].
    - [std::unordered_map]/[std::map] are [gmap]s; [std::vector] is [list].
    - [LOG(FATAL)], failed [CHECK]s and thrown exceptions are the [Err]
      results of the [Res] type. *)

From Stdlib Require Import ZArith Lia Bool.
From Stdlib Require Import Floats.SpecFloat.
From stdpp Require Import base option list strings gmap pretty.

Local Open Scope Z_scope.

(** ** Failures *)

Inductive Failure :=
  | Fatal (msg : string)          (* LOG(FATAL) / CHECK / TORCH_CHECK *)
  | RuntimeError (msg : string)   (* throw std::runtime_error(msg) *)
  | OutOfRange (what : string)    (* .at() on a missing key, index past the end *)
  | Undefined (what : string).    (* the source goes on where C++ defines nothing *)

Inductive Res (A : Type) :=
  | Ok (a : A)
  | Err (f : Failure).
Arguments Ok {A} a.
Arguments Err {A} f.

Global Instance Res_ret : MRet Res := fun _ a => Ok a.
Global Instance Res_bind : MBind Res := fun _ _ k r =>
  match r with
  | Ok a => k a
  | Err f => Err f
  end.

Definition of_option {A} (o : option A) (f : Failure) : Res A :=
  match o with
  | Some a => Ok a
  | None => Err f
  end.

Definition is_ok {A} (r : Res A) : bool :=
  match r with Ok _ => true | Err _ => false end.

(** ** Machine numbers *)

(** [(int32_t) x] for a 64-bit [x]. *)
Definition to_int32 (x : Z) : Z :=
  (x + 2147483648) mod 4294967296 - 2147483648.

Abbreviation float32 := spec_float (only parsing).
Abbreviation float64 := spec_float (only parsing).

(** The binary32 value of [m * 2^e], rounded to nearest even. *)
Definition f32 (m e : Z) : float32 := binary_normalize 24 128 m e false.

(** [(float) n] for an [int] [n]. *)
Definition int_to_float (n : Z) : float32 := f32 n 0.

(** [(float) d] for a [double] [d]. *)
Definition double_to_float (d : float64) : float32 :=
  match d with
  | S754_finite s m e => binary_round 24 128 s m e
  | _ => d
  end.

(** [a == b] on floats. *)
Definition float_eq (a b : float32) : bool := SFeqb a b.

(** ** The expression IR (tensorexpr/expr.h, ir.h: consumed) *)

Inductive Dtype := kUninitialized | kInt32 | kFloat32 | kHandle.

Global Instance Dtype_eq_dec : EqDecision Dtype.
Proof. solve_decision. Defined.

Inductive CompareSelectOperation := kEQ | kGT | kGE | kLT | kLE | kNE.

Inductive IntrinsicsOp :=
  | kSin | kCos | kTan | kAsin | kAcos | kAtan | kAtan2 | kSinh | kCosh
  | kTanh | kExp | kExpm1 | kFabs | kLog | kLog2 | kLog10 | kLog1p | kErf
  | kErfc | kSqrt | kRsqrt | kPow | kCeil | kFloor | kRound | kTrunc
  | kFmod | kRemainder | kLgamma | kFrac | kRand.

Global Instance IntrinsicsOp_eq_dec : EqDecision IntrinsicsOp.
Proof. solve_decision. Defined.

(** Expressions, and the symbolic tensors their calls refer to: a tensor
    has a name hint, its dimensions, its axis variables and its element
    expression over them. *)
#[warnings="-register-all"]
Inductive Expr :=
  | IntImm (value : Z)
  | FloatImm (value : float32)
  | Var (name_hint : string) (dt : Dtype)
  | Cast (dt : Dtype) (src_value : Expr)
  | Add (lhs rhs : Expr)
  | Sub (lhs rhs : Expr)
  | Mul (lhs rhs : Expr)
  | Div (lhs rhs : Expr)
  | Mod (lhs rhs : Expr)
  | Max (lhs rhs : Expr) (propagate_nans : bool)
  | Min (lhs rhs : Expr) (propagate_nans : bool)
  | CompareSelect (lhs rhs : Expr) (op : CompareSelectOperation)
  | IfThenElse (c t f : Expr)
  | Intrinsics (op : IntrinsicsOp) (dt : Dtype) (params : list Expr)
  | Load (buffer : string) (dt : Dtype) (index : Expr)
  | FunctionCall (tensor : Tensor) (params : list Expr)
with Tensor :=
  | mkTensor (func_var : string) (dims args : list Expr) (body : Expr).

Definition func_var (t : Tensor) : string :=
  match t with mkTensor name _ _ _ => name end.
Definition dims (t : Tensor) : list Expr :=
  match t with mkTensor _ ds _ _ => ds end.
Definition args (t : Tensor) : list Expr :=
  match t with mkTensor _ _ xs _ => xs end.
Definition body (t : Tensor) : Expr :=
  match t with mkTensor _ _ _ b => b end.

(** Modelled from the spec: [BinaryOpDtype] of tensorexpr/types.h, the
    result type of a binary node, is not under src/.  Equal operand types
    give that type; one integer and one float operand give float. *)
Definition BinaryOpDtype (a b : Dtype) : Dtype :=
  if decide (a = b) then a
  else match a, b with
       | kInt32, kFloat32 | kFloat32, kInt32 => kFloat32
       | _, _ => kUninitialized
       end.

(** Modelled from the spec: [ExprHandle::dtype()], the numeric type each
    node of the expression IR carries, is not under src/. *)
Fixpoint dtype (e : Expr) : Dtype :=
  match e with
  | IntImm _ => kInt32
  | FloatImm _ => kFloat32
  | Var _ dt => dt
  | Cast dt _ => dt
  | Add a b | Sub a b | Mul a b | Div a b | Mod a b => BinaryOpDtype (dtype a) (dtype b)
  | Max a b _ | Min a b _ => BinaryOpDtype (dtype a) (dtype b)
  | CompareSelect _ _ _ => kInt32
  | IfThenElse _ t _ => dtype t
  | Intrinsics _ dt _ => dt
  | Load _ dt _ => dt
  | FunctionCall (mkTensor _ _ _ b) _ => dtype b
  end.

(** [e.AsNode<IntImm>()] *)
Definition AsNode_IntImm (e : Expr) : option Z :=
  match e with IntImm v => Some v | _ => None end.

(** [e.AsNode<FloatImm>()] *)
Definition AsNode_FloatImm (e : Expr) : option float32 :=
  match e with FloatImm v => Some v | _ => None end.

(** [e.AsNode<Cast>()], giving the cast's source. *)
Definition AsNode_Cast (e : Expr) : option Expr :=
  match e with Cast _ src => Some src | _ => None end.

(** The intrinsic builders [sqrt(e)], [pow(a, b)], ... of ir.h. *)
Definition intrinsic1 (op : IntrinsicsOp) (a : Expr) : Expr :=
  Intrinsics op (dtype a) [a].
Definition intrinsic2 (op : IntrinsicsOp) (a b : Expr) : Expr :=
  Intrinsics op (BinaryOpDtype (dtype a) (dtype b)) [a; b].

(** Does [e] contain a call of the intrinsic [op]? *)
Fixpoint has_intrinsic (op : IntrinsicsOp) (e : Expr) : bool :=
  match e with
  | IntImm _ | FloatImm _ | Var _ _ => false
  | Cast _ a => has_intrinsic op a
  | Add a b | Sub a b | Mul a b | Div a b | Mod a b
  | Max a b _ | Min a b _ | CompareSelect a b _ =>
      has_intrinsic op a || has_intrinsic op b
  | IfThenElse c t f =>
      has_intrinsic op c || has_intrinsic op t || has_intrinsic op f
  | Intrinsics op' _ ps =>
      bool_decide (op' = op) || existsb (has_intrinsic op) ps
  | Load _ _ i => has_intrinsic op i
  | FunctionCall _ ps => existsb (has_intrinsic op) ps
  end.

(** Does [e] contain a conditional? *)
Fixpoint has_branch (e : Expr) : bool :=
  match e with
  | IntImm _ | FloatImm _ | Var _ _ => false
  | Cast _ a => has_branch a
  | Add a b | Sub a b | Mul a b | Div a b | Mod a b
  | Max a b _ | Min a b _ =>
      has_branch a || has_branch b
  | CompareSelect _ _ _ | IfThenElse _ _ _ => true
  | Intrinsics _ _ ps => existsb has_branch ps
  | Load _ _ i => has_branch i
  | FunctionCall _ ps => existsb has_branch ps
  end.

(** ** Symbolic tensors (tensorexpr/tensor.h, function.h: consumed) *)

(** Modelled from the spec: the axis variables [Compute] declares (tensor.h
    is not under src/), one integer variable per dimension. *)
Definition axis_vars (n : nat) : list Expr :=
  (fun k : nat => Var ("i" +:+ pretty k) kInt32) <$> seq 0 n.

(** Modelled from the spec: [Compute] of tensorexpr/tensor.h is not under
    src/.  The tensor of the given name and dimensions whose element
    expression is what the body function builds over the axis variables. *)
Definition Compute (name : string) (dim_args : list Expr)
    (body_func : list Expr -> Res Expr) : Res Tensor :=
  let axes := axis_vars (length dim_args) in
  b ← body_func axes;
  Ok (mkTensor name dim_args axes b).

(** [t->call(params)]: the element of [t] at [params]. *)
Definition call (t : Tensor) (params : list Expr) : Expr :=
  FunctionCall t params.

(** ** The graph (torch/csrc/jit/ir.h: consumed) *)

Inductive ScalarType :=
  | ST_Byte | ST_Char | ST_Short | ST_Int | ST_Long | ST_Half | ST_Float
  | ST_Double | ST_Bool.

Global Instance ScalarType_eq_dec : EqDecision ScalarType.
Proof. solve_decision. Defined.

(** The type of a graph value.  The shape, strides and contiguity of a
    tensor type are [c10::VaryingShape]s; an unknown size is a negative
    number, a contiguity flag is false when it is [0]. *)
Inductive JitType :=
  | TensorType (scalarType : option ScalarType)
               (sizes strides contiguity : list Z)
  | FloatType
  | IntType
  | BoolType
  | NoneType
  | ListType.

Inductive DeviceType :=
  | kCPU | kCUDA | kMKLDNN | kOPENGL | kOPENCL | kIDEEP | kHIP | kFPGA
  | kMSNPU | kXLA.

Global Instance DeviceType_eq_dec : EqDecision DeviceType.
Proof. solve_decision. Defined.

Record Device := mkDevice { dev_type : DeviceType; dev_index : Z }.

Global Instance Device_eq_dec : EqDecision Device.
Proof. solve_decision. Defined.

(** A run-time tensor, as far as the kernel looks at it. *)
Record at_Tensor := mkAtTensor {
  at_device : Device;
  at_scalar_type : ScalarType;
  at_sizes : list Z;
  at_strides : list Z;
  at_data_ptr : Z;
}.

Inductive IValue :=
  | IV_None
  | IV_Int (i : Z)
  | IV_Double (d : float64)
  | IV_Bool (b : bool)
  | IV_Tensor (t : at_Tensor).

Definition isNone (v : IValue) : bool :=
  match v with IV_None => true | _ => false end.

Inductive NodeKind :=
  | prim_Param | prim_Constant | prim_ListConstruct | prim_ConstantChunk
  | aten_add | aten__cast_Float | aten_sub | aten_mul | aten_div
  | aten_addcmul | aten_eq | aten_ne | aten_ge | aten_gt | aten_le
  | aten_lt | aten_min | aten_max | aten_clamp | aten_sigmoid
  | aten_reciprocal | aten_neg | aten_relu | aten_log | aten_log10
  | aten_log2 | aten_exp | aten_expm1 | aten_erf | aten_erfc | aten_cos
  | aten_sin | aten_tan | aten_type_as | aten_rand_like | aten_pow
  | aten_fmod | aten_lerp | aten_remainder | aten_acos | aten_asin
  | aten_cosh | aten_sinh | aten_atan | aten_atan2 | aten_tanh | aten_sqrt
  | aten_rsqrt | aten_abs | aten_ceil | aten_floor | aten_round
  | aten_trunc | aten_threshold | aten_frac | aten_lgamma | aten_cat
  | aten_slice | aten_unsqueeze | aten__sigmoid_backward
  | aten__tanh_backward | aten_other (name : string).

Global Instance NodeKind_eq_dec : EqDecision NodeKind.
Proof. solve_decision. Defined.

(** A value and the node that produces it.  [attr_value] is the node's
    [attr::value] ([toIValue] of its output when the node is a constant),
    [attr_dim] and [attr_chunks] the integer attributes of a chunk node. *)
#[warnings="-register-all"]
Inductive Value := mkValue {
  unique : Z;
  debugName : string;
  type : JitType;
  offset : nat;
  node : Node;
}
with Node := mkNode {
  kind : NodeKind;
  inputs : list Value;
  attr_value : option IValue;
  attr_dim : Z;
  attr_chunks : Z;
}.

(** [toIValue(v)]: the constant a value stands for, when its node is one. *)
Definition toIValue (v : Value) : option IValue :=
  if decide (kind (node v) = prim_Constant) then attr_value (node v) else None.

(** [n->i(attr::value)] *)
Definition i_attr_value (n : Node) : Res Z :=
  match attr_value n with
  | Some (IV_Int i) => Ok i
  | _ => Err (RuntimeError "required attribute value is not an int")
  end.

Definition input (n : Node) (i : nat) : Res Value :=
  of_option (inputs n !! i) (OutOfRange "node input").

(** ** The kernel object (tensorexpr/kernel.h: members of TensorExprKernel) *)

Inductive BackendType :=
  | kUninitializedBackend   (* BackendType::kUninitialized *)
  | kSimpleIREval
  | kLLVMCodeGen
  | kCudaCodeGen.

Global Instance BackendType_eq_dec : EqDecision BackendType.
Proof. solve_decision. Defined.

(** [CodeGen::BufferArg]: a formal parameter of the compiled kernel. *)
Record BufferArg := mkBufferArg {
  ba_var : string;
  ba_dtype : Dtype;
  ba_isVar : bool;
}.

(** [ShapeArg]: the axis a size or stride variable belongs to. *)
Record ShapeArg := mkShapeArg {
  idx : nat;
  var : Expr;
}.

Record KernelArg := mkKernelArg {
  ka_buffer : BufferArg;
  ka_sizes : list ShapeArg;
  ka_strides : list ShapeArg;
}.

(** [CodeGen::CallArg]: an actual argument of a call. *)
Inductive CallArg :=
  | CA_Int (i : Z)
  | CA_Float (f : float32)
  | CA_Ptr (p : Z).

(** What the kernel asks of the code generators. *)
Inductive Event :=
  | EvCreateCodeGen (codegen_name : string) (params : list BufferArg)
  | EvCall (run_args : list CallArg).

Record TensorExprKernel := mkKernel {
  n_inputs_ : nat;
  kernelArgs_ : list KernelArg;
  tensor_outputs_ : list Tensor;
  tensors_ : gmap Z Tensor;
  scalars_ : gmap Z Expr;
  backend_type_ : BackendType;
  device_ : Device;
  codegen_ : option string;
  events : list Event;   (* ghost: the code-generator calls made so far *)
}.

(** Process-wide settings: the three tunable knobs and the build flag. *)
Record Config := mkConfig {
  te_cuda_pointwise_loop_levels : Z;
  te_cuda_pointwise_block_count : Z;
  te_cuda_pointwise_block_size : Z;
  ENABLE_LLVM : bool;
}.

(** ** Lowering helpers *)

Definition texprType (st : option ScalarType) : Res Dtype :=
  match st with
  | Some ST_Int => Ok kInt32
  | Some ST_Float => Ok kFloat32
  | _ => Err (Fatal "Unhandled datatype")
  end.

Definition tensorType (t : Tensor) : Res ScalarType :=
  match dtype (body t) with
  | kInt32 => Ok ST_Int
  | kFloat32 => Ok ST_Float
  | _ => Err (Fatal "Unhandled datatype")
  end.

(** [IntImm::make] takes an [int], [FloatImm::make] a [float]: the 64-bit
    constants of the graph are narrowed on the way in. *)
Definition constant (scalars : gmap Z Expr) (v : Value) : Res Expr :=
  if decide (kind (node v) = prim_Constant) then
    match toIValue v with
    | Some (IV_Double d) => Ok (FloatImm (double_to_float d))
    | Some (IV_Int i) => Ok (IntImm (to_int32 i))
    | Some IV_None => Ok (IntImm 0)
    | Some _ => Err (Fatal "Unhandled constant datatype")
    | None => Err (OutOfRange "bad optional access")
    end
  else
    of_option (scalars !! unique v) (Fatal "Couldn't find scalar value").

Definition promoteInputs (inputs : list Expr) : list Expr :=
  let any_float := existsb (fun e => bool_decide (dtype e = kFloat32)) inputs in
  if negb any_float then inputs
  else (fun e => if decide (dtype e = kInt32) then Cast kFloat32 e else e) <$> inputs.

Definition demoteOutput (e : Expr) (v : Value) : Res Expr :=
  match type v with
  | TensorType tt_ _ _ _ =>
      if bool_decide (dtype e = kFloat32) && bool_decide (tt_ = Some ST_Int)
      then Ok (Cast kInt32 e)
      else Ok e
  | _ => Err (Fatal "CHECK(v->type()->kind() == TypeKind::TensorType)")
  end.

Definition isOne (e : Expr) : bool :=
  match AsNode_IntImm e with
  | None => false
  | Some n => n =? 1
  end.

(** The loop of [broadcastShapes] over the two reverse iterators; once one
    shape is used up, the rest of the other one is pushed as it is. *)
Fixpoint broadcast_loop (at_ bt : list Expr) : list Expr :=
  match at_, bt with
  | [], _ => bt
  | _, [] => at_
  | a :: at', b :: bt' =>
      (if isOne a then b else a) :: broadcast_loop at' bt'
  end.

Definition broadcastShapes (a b : list Expr) : list Expr :=
  reverse (broadcast_loop (reverse a) (reverse b)).

(** The variadic overload: [broadcastShapes(broadcastShapes(a, b), args...)]. *)
Definition broadcastShapesN (a b : list Expr) (rest : list (list Expr)) : list Expr :=
  foldl broadcastShapes (broadcastShapes a b) rest.

Definition valueShape (tensors : gmap Z Tensor) (v : Value) : list Expr :=
  match tensors !! unique v with
  | None => [IntImm 1]
  | Some t => dims t
  end.

(** Modelled from the spec: [bufferSizes] of kernel.h is not under src/.  It
    gives the constant extents of a tensor; a dimension that is not a
    constant has none. *)
Definition bufferSizes (t : Tensor) : Res (list Z) :=
  mapM (fun d => of_option (AsNode_IntImm d) (Fatal "dimension is not a constant")) (dims t).

(** Modelled from the spec: the broadcast-adjusted axis indices of kernel.h
    (not under src/), from the innermost axis outwards: the trailing axes,
    an axis whose extent is the constant 1 pinned to index 0. *)
Fixpoint broadcast_indices (axes_rev dims_rev : list Expr) : Res (list Expr) :=
  match dims_rev, axes_rev with
  | [], _ => Ok []
  | _ :: _, [] => Err (Fatal "Cannot broadcast to a lower rank tensor")
  | d :: dims', a :: axes' =>
      rest ← broadcast_indices axes' dims';
      Ok ((if isOne d then IntImm 0 else a) :: rest)
  end.

(** Modelled from the spec: [broadcast] of kernel.h is not under src/.  The
    read of a symbolic tensor at the broadcast-adjusted axis indices. *)
Definition broadcast (t : Tensor) (axes : list Expr) : Res Expr :=
  ix ← broadcast_indices (reverse axes) (reverse (dims t));
  Ok (call t (reverse ix)).

(** Modelled from the spec: [tensorOrConstant] of kernel.h is not under
    src/.  An operand with a symbolic tensor is read at the
    broadcast-adjusted axis indices; any other operand is a constant or a
    scalar parameter. *)
Definition tensorOrConstant (k : TensorExprKernel) (v : Value) (axes : list Expr) : Res Expr :=
  match tensors_ k !! unique v with
  | Some t => broadcast t axes
  | None => constant (scalars_ k) v
  end.

Global Instance Expr_inhabited : Inhabited Expr := populate (IntImm 0).

(** ** The generic N-ary combinators *)

(** The body shared by the [Compute...Operand] lambdas: read the operands,
    promote them, apply the operator template, demote the result. *)
Definition compute_body (k : TensorExprKernel) (v : Value) (operands : list Value)
    (template : list Expr -> Expr) (axes : list Expr) : Res Expr :=
  inputs ← mapM (fun o => tensorOrConstant k o axes) operands;
  let inputs := promoteInputs inputs in
  let compute := template inputs in
  demoteOutput compute v.

Definition ComputeOneOperand (k : TensorExprKernel) (name : string) (v : Value)
    (inner_expr : Expr -> Expr) : Res Tensor :=
  let n := node v in
  in0 ← input n 0;
  let shape := valueShape (tensors_ k) in0 in
  Compute name shape
    (compute_body k v [in0] (fun inputs => inner_expr (inputs !!! 0%nat))).

Definition ComputeTwoOperand (k : TensorExprKernel) (name : string) (v : Value)
    (inner_expr : Expr -> Expr -> Expr) : Res Tensor :=
  let n := node v in
  in0 ← input n 0;
  in1 ← input n 1;
  let shape := broadcastShapes (valueShape (tensors_ k) in0) (valueShape (tensors_ k) in1) in
  Compute name shape
    (compute_body k v [in0; in1]
       (fun inputs => inner_expr (inputs !!! 0%nat) (inputs !!! 1%nat))).

Definition ComputeTwoOperandWithAlpha (k : TensorExprKernel) (name : string) (v : Value)
    (inner_expr : Expr -> Expr -> Expr) : Res Tensor :=
  let n := node v in
  in0 ← input n 0;
  in1 ← input n 1;
  in2 ← input n 2;
  let shape := broadcastShapes (valueShape (tensors_ k) in0) (valueShape (tensors_ k) in1) in
  Compute name shape
    (compute_body k v [in0; in1; in2]
       (fun inputs =>
          inner_expr (inputs !!! 0%nat) (Mul (inputs !!! 2%nat) (inputs !!! 1%nat)))).

Definition ComputeThreeOperand (k : TensorExprKernel) (name : string) (v : Value)
    (inner_expr : Expr -> Expr -> Expr -> Expr) : Res Tensor :=
  let n := node v in
  in0 ← input n 0;
  in1 ← input n 1;
  in2 ← input n 2;
  let shape :=
    broadcastShapesN (valueShape (tensors_ k) in0) (valueShape (tensors_ k) in1)
      [valueShape (tensors_ k) in2] in
  Compute name shape
    (compute_body k v [in0; in1; in2]
       (fun inputs =>
          inner_expr (inputs !!! 0%nat) (inputs !!! 1%nat) (inputs !!! 2%nat))).

Definition ComputeFourOperand (k : TensorExprKernel) (name : string) (v : Value)
    (inner_expr : Expr -> Expr -> Expr -> Expr -> Expr) : Res Tensor :=
  let n := node v in
  in0 ← input n 0;
  in1 ← input n 1;
  in2 ← input n 2;
  in3 ← input n 3;
  let shape :=
    broadcastShapesN (valueShape (tensors_ k) in0) (valueShape (tensors_ k) in1)
      [valueShape (tensors_ k) in2; valueShape (tensors_ k) in3] in
  Compute name shape
    (compute_body k v [in0; in1; in2; in3]
       (fun inputs =>
          inner_expr (inputs !!! 0%nat) (inputs !!! 1%nat) (inputs !!! 2%nat)
            (inputs !!! 3%nat))).

(** ** Operator templates of [ComputeValue] *)

(** Float literals of the source. *)
Definition f_1_0 : float32 := Eval vm_compute in f32 1 0.       (* 1.0f *)
Definition f_2_0 : float32 := Eval vm_compute in f32 2 0.       (* 2.0f *)
Definition f_3_0 : float32 := Eval vm_compute in f32 3 0.       (* 3.0f *)
Definition f_4_0 : float32 := Eval vm_compute in f32 4 0.       (* 4.0f *)
Definition f_0_5 : float32 := Eval vm_compute in f32 1 (-1).    (* 0.5f *)
Definition f_0_0 : float32 := S754_zero false.                  (* 0.0f *)
Definition f_m0_0 : float32 := S754_zero true.                  (* -0.0f *)
Definition f_m0_5 : float32 := Eval vm_compute in f32 (-1) (-1).  (* -0.5f *)
Definition f_m1_0 : float32 := Eval vm_compute in f32 (-1) 0.   (* -1.0f *)
Definition f_m2_0 : float32 := Eval vm_compute in f32 (-2) 0.   (* -2.0f *)

(** The first half of the [aten::pow] template: the exponent is a float
    literal. *)
Definition pow_float_imm (lhs rhs : Expr) : option Expr :=
  match AsNode_FloatImm rhs with
  | Some imm =>
      if float_eq imm f_1_0 then Some lhs
      else if float_eq imm f_2_0 then Some (Mul lhs lhs)
      else if float_eq imm f_3_0 then Some (Mul (Mul lhs lhs) lhs)
      else if float_eq imm f_4_0 then
        let tmp := Mul lhs lhs in Some (Mul tmp tmp)
      else if float_eq imm f_0_5 then Some (intrinsic1 kSqrt lhs)
      else if float_eq imm f_0_0 then Some (FloatImm f_1_0)
      else if float_eq imm f_m0_5 then Some (intrinsic1 kRsqrt lhs)
      else if float_eq imm f_m1_0 then Some (Div (FloatImm f_1_0) lhs)
      else if float_eq imm f_m2_0 then Some (Div (FloatImm f_1_0) (Mul lhs lhs))
      else None
  | None => None
  end.

(** The second half: the exponent is a cast whose source is an integer
    literal; the literal is converted to [float] and compared to the
    (converted) integer constants. *)
Definition pow_cast_imm (lhs rhs : Expr) : option Expr :=
  match AsNode_Cast rhs with
  | Some src =>
      match AsNode_IntImm src with
      | Some int_imm =>
          let imm := int_to_float int_imm in
          if float_eq imm (int_to_float 1) then Some lhs
          else if float_eq imm (int_to_float 2) then Some (Mul lhs lhs)
          else if float_eq imm (int_to_float 3) then Some (Mul (Mul lhs lhs) lhs)
          else if float_eq imm (int_to_float 4) then
            let tmp := Mul lhs lhs in Some (Mul tmp tmp)
          else if float_eq imm (int_to_float 0) then Some (FloatImm f_1_0)
          else if float_eq imm (int_to_float (-1)) then Some (Div (FloatImm f_1_0) lhs)
          else if float_eq imm (int_to_float (-2)) then
            Some (Div (FloatImm f_1_0) (Mul lhs lhs))
          else None
      | None => None
      end
  | None => None
  end.

Definition aten_pow_inner (lhs rhs : Expr) : Expr :=
  match pow_float_imm lhs rhs with
  | Some e => e
  | None =>
      match pow_cast_imm lhs rhs with
      | Some e => e
      | None => intrinsic2 kPow lhs rhs
      end
  end.

(** Is operand [i] of the node of [v] a constant whose value is None? *)
Definition operand_is_none (v : Value) (i : nat) : Res bool :=
  o ← input (node v) i;
  if decide (kind (node o) = prim_Constant) then
    val ← of_option (toIValue o) (OutOfRange "bad optional access");
    Ok (isNone val)
  else Ok false.

Definition aten_clamp_inner (no_min no_max : bool) (in_ min max : Expr) : Expr :=
  if no_min && no_max then in_
  else if no_min then Min in_ max false
  else if no_max then Max in_ min false
  else Max (Min in_ max false) min false.

(** A loop whose body can fail. *)
Fixpoint foldlM {A B} (f : A -> B -> Res A) (a : A) (l : list B) : Res A :=
  match l with
  | [] => Ok a
  | b :: l' => a' ← f a b; foldlM f a' l'
  end.

(** A [size_t] index taken from a 64-bit integer. *)
Definition to_index (what : string) (z : Z) : Res nat :=
  if z <? 0 then Err (OutOfRange what) else Ok (Z.to_nat z).

(** [l[i] = x] on a vector. *)
Definition assign {A} (what : string) (l : list A) (i : nat) (x : A) : Res (list A) :=
  if bool_decide (i < length l)%nat then Ok (<[i := x]> l) else Err (OutOfRange what).

Definition at_index {A} (what : string) (l : list A) (i : nat) : Res A :=
  of_option (l !! i) (OutOfRange what).

Definition texprSizes (shape : list Z) : list Expr :=
  (fun s => IntImm (to_int32 s)) <$> shape.

Definition texprDims (v : Value) : Res (list Expr) :=
  match type v with
  | TensorType _ sizes _ _ => Ok (texprSizes sizes)
  | _ => Err (Fatal "CHECK(v->type()->kind() == TypeKind::TensorType)")
  end.

(** The state of the loop of the [aten::cat] lowering. *)
Record CatLoop := mkCatLoop {
  cl_load : Expr;
  cl_offset : Z;
  cl_new_axes : list Expr;
}.

(** The extent of the tensor of [v] along [dim]:
    [bufferSizes(tensors_.at(v->unique()))[dim]]. *)
Definition segment_size (k : TensorExprKernel) (v : Value) (dim : nat) : Res Z :=
  t ← of_option (tensors_ k !! unique v) (OutOfRange "tensors_.at");
  sizes ← bufferSizes t;
  at_index "bufferSizes[dim]" sizes dim.

Definition cat_step (k : TensorExprKernel) (axes : list Expr) (dim : nat)
    (st : CatLoop) (inp : Value) : Res CatLoop :=
  axis_d ← at_index "axes[dim]" axes dim;
  rd ← tensorOrConstant k inp (cl_new_axes st);
  let load :=
    IfThenElse (CompareSelect axis_d (IntImm (to_int32 (cl_offset st))) kLT)
      (cl_load st) rd in
  sz ← segment_size k inp dim;
  let offset := cl_offset st + sz in
  na_d ← at_index "new_axes[dim]" (cl_new_axes st) dim;
  new_axes ← assign "new_axes[dim]" (cl_new_axes st) dim (Sub na_d (IntImm (to_int32 offset)));
  Ok (mkCatLoop load offset new_axes).

Definition aten_cat_body (k : TensorExprKernel) (v : Value) (axes : list Expr) : Res Expr :=
  let n := node v in
  in0 ← input n 0;
  let inputs := inputs (node in0) in
  in1 ← input n 1;
  dimz ← i_attr_value (node in1);
  dim ← to_index "dim" dimz;
  let new_axes := axes in
  first ← at_index "inputs[0]" inputs 0;
  load ← tensorOrConstant k first new_axes;
  offset ← segment_size k first dim;
  na_d ← at_index "new_axes[dim]" new_axes dim;
  new_axes ← assign "new_axes[dim]" new_axes dim (Sub na_d (IntImm (to_int32 offset)));
  st ← foldlM (cat_step k axes dim) (mkCatLoop load offset new_axes) (drop 1 inputs);
  Ok (cl_load st).

(** [constant(v).AsNode<IntImm>()->value()] *)
Definition constant_int (k : TensorExprKernel) (v : Value) : Res Z :=
  c ← constant (scalars_ k) v;
  of_option (AsNode_IntImm c) (OutOfRange "null IntImm node").

Definition aten_slice_body (k : TensorExprKernel) (v : Value) (axes : list Expr) : Res Expr :=
  let n := node v in
  in0 ← input n 0;
  in1 ← input n 1;
  in2 ← input n 2;
  in4 ← input n 4;
  dimz ← constant_int k in1;
  start ← constant (scalars_ k) in2;
  stride ← constant (scalars_ k) in4;
  dim ← to_index "dim" dimz;
  let new_axes := axes in
  na_d ← at_index "new_axes[dim]" new_axes dim;
  new_axes ← assign "new_axes[dim]" new_axes dim (Add (Mul stride na_d) start);
  tensorOrConstant k in0 new_axes.

Definition aten_unsqueeze_body (k : TensorExprKernel) (v : Value) (axes : list Expr) : Res Expr :=
  let n := node v in
  in0 ← input n 0;
  in1 ← input n 1;
  dimz ← constant_int k in1;
  let dimz := if dimz <? 0 then dimz + (Z.of_nat (length axes) - 1) else dimz in
  dim ← to_index "dim" dimz;
  _ ← at_index "new_axes.erase" axes dim;
  let new_axes := delete dim axes in
  tensorOrConstant k in0 new_axes.

(** [ComputeValue].  [chunk] (kernel.h, not under src/) is taken as a
    parameter. *)
Definition ComputeValue
    (chunk : Tensor -> nat -> Z -> Z -> list Expr -> Res Expr)
    (k : TensorExprKernel) (v : Value) : Res Tensor :=
  let one := FloatImm f_1_0 in
  match kind (node v) with
  | aten_add => ComputeTwoOperandWithAlpha k "aten_add" v (fun lhs rhs => Add lhs rhs)
  | aten__cast_Float => ComputeOneOperand k "aten_cast_float" v (fun a => Cast kFloat32 a)
  | aten_sub => ComputeTwoOperandWithAlpha k "aten_sub" v (fun lhs rhs => Sub lhs rhs)
  | aten_mul => ComputeTwoOperand k "aten_mul" v (fun lhs rhs => Mul lhs rhs)
  | aten_div => ComputeTwoOperand k "aten_div" v (fun lhs rhs => Div lhs rhs)
  | aten_addcmul =>
      ComputeFourOperand k "aten_addcmul" v
        (fun a0 a1 a2 a3 => Add a0 (Mul (Mul a3 a1) a2))
  | aten_eq => ComputeTwoOperand k "aten_eq" v (fun lhs rhs => CompareSelect lhs rhs kEQ)
  | aten_ne => ComputeTwoOperand k "aten_ne" v (fun lhs rhs => CompareSelect lhs rhs kNE)
  | aten_ge => ComputeTwoOperand k "aten_ge" v (fun lhs rhs => CompareSelect lhs rhs kGE)
  | aten_gt => ComputeTwoOperand k "aten_gt" v (fun lhs rhs => CompareSelect lhs rhs kGT)
  | aten_le => ComputeTwoOperand k "aten_le" v (fun lhs rhs => CompareSelect lhs rhs kLE)
  | aten_lt => ComputeTwoOperand k "aten_lt" v (fun lhs rhs => CompareSelect lhs rhs kLT)
  | aten_min => ComputeTwoOperand k "aten_min" v (fun lhs rhs => Min lhs rhs false)
  | aten_max => ComputeTwoOperand k "aten_max" v (fun lhs rhs => Max lhs rhs false)
  | aten_clamp =>
      no_min ← operand_is_none v 1;
      no_max ← operand_is_none v 2;
      ComputeThreeOperand k "aten_clamp" v (aten_clamp_inner no_min no_max)
  | aten_sigmoid =>
      ComputeOneOperand k "aten_sigmoid" v
        (fun a => Div one (Add one (intrinsic1 kExp (Sub (FloatImm f_m0_0) a))))
  | aten_reciprocal => ComputeOneOperand k "aten_reciprocal" v (fun a => Div one a)
  | aten_neg => ComputeOneOperand k "aten_neg" v (fun a => Sub (IntImm 0) a)
  | aten_relu => ComputeOneOperand k "aten_relu" v (fun a => Max a (IntImm 0) false)
  | aten_log => ComputeOneOperand k "aten_log" v (intrinsic1 kLog)
  | aten_log10 => ComputeOneOperand k "aten_log10" v (intrinsic1 kLog10)
  | aten_log2 => ComputeOneOperand k "aten_log2" v (intrinsic1 kLog2)
  | aten_exp => ComputeOneOperand k "aten_exp" v (intrinsic1 kExp)
  | aten_expm1 => ComputeOneOperand k "aten_expm1" v (intrinsic1 kExpm1)
  | aten_erf => ComputeOneOperand k "aten_erf" v (intrinsic1 kErf)
  | aten_erfc => ComputeOneOperand k "aten_erfc" v (intrinsic1 kErfc)
  | aten_cos => ComputeOneOperand k "aten_cos" v (intrinsic1 kCos)
  | aten_sin => ComputeOneOperand k "aten_sin" v (intrinsic1 kSin)
  | aten_tan => ComputeOneOperand k "aten_tan" v (intrinsic1 kTan)
  | aten_type_as =>
      ComputeTwoOperand k "aten_type_as" v (fun lhs rhs => Cast (dtype rhs) lhs)
  | aten_rand_like =>
      ComputeOneOperand k "aten_rand_like" v (fun a => Intrinsics kRand (dtype a) [])
  | aten_pow => ComputeTwoOperand k "aten_pow" v aten_pow_inner
  | aten_fmod => ComputeTwoOperand k "aten_fmod" v (intrinsic2 kFmod)
  | aten_lerp =>
      ComputeThreeOperand k "aten_lerp" v
        (fun a end_ weight => Add a (Mul weight (Sub end_ a)))
  | aten_remainder =>
      ComputeTwoOperand k "aten_remainder" v
        (fun lhs rhs => intrinsic2 kFmod (Add rhs (intrinsic2 kFmod lhs rhs)) rhs)
  | aten_acos => ComputeOneOperand k "aten_acos" v (intrinsic1 kAcos)
  | aten_asin => ComputeOneOperand k "aten_asin" v (intrinsic1 kAsin)
  | aten_cosh => ComputeOneOperand k "aten_cosh" v (intrinsic1 kCosh)
  | aten_sinh => ComputeOneOperand k "aten_sinh" v (intrinsic1 kSinh)
  | aten_atan => ComputeOneOperand k "aten_atan" v (intrinsic1 kAtan)
  | aten_atan2 => ComputeTwoOperand k "aten_atan2" v (intrinsic2 kAtan2)
  | aten_tanh => ComputeOneOperand k "aten_tanh" v (intrinsic1 kTanh)
  | aten_sqrt => ComputeOneOperand k "aten_sqrt" v (intrinsic1 kSqrt)
  | aten_rsqrt => ComputeOneOperand k "aten_rsqrt" v (intrinsic1 kRsqrt)
  | aten_abs => ComputeOneOperand k "aten_abs" v (intrinsic1 kFabs)
  | aten_ceil => ComputeOneOperand k "aten_ceil" v (intrinsic1 kCeil)
  | aten_floor => ComputeOneOperand k "aten_floor" v (intrinsic1 kFloor)
  | aten_round => ComputeOneOperand k "aten_round" v (intrinsic1 kRound)
  | aten_trunc => ComputeOneOperand k "aten_trunc" v (intrinsic1 kTrunc)
  | aten_threshold =>
      ComputeThreeOperand k "aten_threshold" v
        (fun a threshold value => IfThenElse (CompareSelect a threshold kGT) a value)
  | aten_frac => ComputeOneOperand k "aten_frac" v (fun a => Sub a (intrinsic1 kFloor a))
  | aten_lgamma => ComputeOneOperand k "aten_lgamma" v (intrinsic1 kLgamma)
  | prim_ConstantChunk =>
      dims_ ← texprDims v;
      Compute "prim_constantchunk" dims_ (fun axes =>
        in0 ← input (node v) 0;
        t ← of_option (tensors_ k !! unique in0) (OutOfRange "tensors_.at");
        chunk t (offset v) (attr_dim (node v)) (attr_chunks (node v)) axes)
  | aten_cat =>
      dims_ ← texprDims v;
      Compute "aten_cat" dims_ (aten_cat_body k v)
  | aten_slice =>
      dims_ ← texprDims v;
      Compute "aten_slice" dims_ (aten_slice_body k v)
  | aten_unsqueeze =>
      dims_ ← texprDims v;
      Compute "aten_unsqueeze" dims_ (aten_unsqueeze_body k v)
  | aten__sigmoid_backward =>
      ComputeTwoOperand k "aten_sigmoid_backward" v
        (fun lhs rhs => Mul (Mul lhs rhs) (Sub one rhs))
  | aten__tanh_backward =>
      ComputeTwoOperand k "aten_tanh_backward" v
        (fun lhs rhs => Mul lhs (Sub one (Mul rhs rhs)))
  | _ => Err (RuntimeError "Unhandled node kind")
  end.

(** ** The input binder *)

(** A [Buffer]: its variable's name hint and its element type. *)
Record Buffer := mkBuffer {
  buf_name : string;
  buf_dtype : Dtype;
}.

(** The state of the loop of [createInputIndexExpr]. *)
Record IndexLoop := mkIndexLoop {
  il_stride : Expr;
  il_index : Expr;
  il_sizeArgs : list ShapeArg;
  il_strideArgs : list ShapeArg;
}.

(** One iteration of the loop, for the counter [i]; [n] is
    [axes.size() - 1]. *)
Definition index_step (buffer : Buffer) (axes : list Expr) (sizes contiguity : list Z)
    (sizeVars : gmap Z Expr) (n : nat) (st : IndexLoop) (i : nat) : Res IndexLoop :=
  c ← at_index "contiguity[i]" contiguity i;
  let '(stride, strideArgs) :=
    if c =? 0 then
      let v := Var ("stride_" +:+ buf_name buffer +:+ "_" +:+ pretty i) kInt32 in
      (v, il_strideArgs st ++ [mkShapeArg (n - i) v])
    else (il_stride st, il_strideArgs st) in
  sizeVal ← at_index "sizes[n - i]" sizes (n - i);
  '(size, sizeArgs) ←
    (if sizeVal <? 0 then
       v ← of_option (sizeVars !! sizeVal) (Fatal "TORCH_CHECK(it != sizeVars.end())");
       Ok (v, il_sizeArgs st ++ [mkShapeArg (n - i) v])
     else Ok (IntImm (to_int32 sizeVal), il_sizeArgs st));
  axis ← at_index "axes[n - i]" axes (n - i);
  let index := Add (il_index st) (Mul axis stride) in
  let stride := Mul stride size in
  Ok (mkIndexLoop stride index sizeArgs strideArgs).

Definition createInputIndexExpr (buffer : Buffer) (axes : list Expr)
    (sizes strides contiguity : list Z) (sizeVars : gmap Z Expr)
    : Res (Expr * KernelArg) :=
  if negb (bool_decide (length axes = length strides)) then
    Err (Fatal "strides and axes are not the same size")
  else
    let n := (length axes - 1)%nat in
    st ← foldlM (index_step buffer axes sizes contiguity sizeVars n)
           (mkIndexLoop (IntImm 1) (IntImm 0) [] []) (seq 0 (length axes));
    Ok (Load (buf_name buffer) (buf_dtype buffer) (il_index st),
        mkKernelArg (mkBufferArg (buf_name buffer) (buf_dtype buffer) false)
          (il_sizeArgs st) (il_strideArgs st)).

(** The loop of [bindInput] over the declared sizes: the size variables by
    sentinel ([emplace] keeps the first one) and the tensor's dimensions. *)
Definition bind_dims_step (input_unique : Z) (st : gmap Z Expr * list Expr)
    (i_size : nat * Z) : gmap Z Expr * list Expr :=
  let '(sizeVars, inputTensorDims) := st in
  let '(i, size) := i_size in
  if size <? 0 then
    let v := Var ("size_" +:+ pretty input_unique +:+ "_" +:+ pretty i) kInt32 in
    (match sizeVars !! size with
     | Some _ => sizeVars
     | None => <[size := v]> sizeVars
     end,
     inputTensorDims ++ [v])
  else (sizeVars, inputTensorDims ++ [IntImm (to_int32 size)]).

Definition bind_dims (input_unique : Z) (sizes : list Z) : gmap Z Expr * list Expr :=
  foldl (bind_dims_step input_unique) (∅, []) (imap (fun i s => (i, s)) sizes).

(** [m.emplace(k, v)]: no effect when the key is taken. *)
Definition emplace {A} (key : Z) (a : A) (m : gmap Z A) : gmap Z A :=
  match m !! key with
  | Some _ => m
  | None => <[key := a]> m
  end.

(** [bindInput].  In the tensor case the body of the ["input"] tensor is
    built by [createInputIndexExpr], which also pushes the input's kernel
    argument. *)
Definition bindInput (k : TensorExprKernel) (input : Value) : Res TensorExprKernel :=
  match type input with
  | TensorType scalarType sizes strides contiguity =>
      dt ← texprType scalarType;
      let in_buffer := mkBuffer ("t" +:+ debugName input) dt in
      let '(sizeVars, inputTensorDims) := bind_dims (unique input) sizes in
      let axes := axis_vars (length inputTensorDims) in
      '(b, karg) ← createInputIndexExpr in_buffer axes sizes strides contiguity sizeVars;
      let t := mkTensor "input" inputTensorDims axes b in
      Ok (mkKernel (n_inputs_ k) (kernelArgs_ k ++ [karg]) (tensor_outputs_ k)
            (emplace (unique input) t (tensors_ k)) (scalars_ k)
            (backend_type_ k) (device_ k) (codegen_ k) (events k))
  | FloatType =>
      let v := Var ("v" +:+ debugName input) kFloat32 in
      Ok (mkKernel (n_inputs_ k)
            (kernelArgs_ k ++ [mkKernelArg (mkBufferArg ("v" +:+ debugName input) kFloat32 true) [] []])
            (tensor_outputs_ k) (tensors_ k) (emplace (unique input) v (scalars_ k))
            (backend_type_ k) (device_ k) (codegen_ k) (events k))
  | IntType =>
      let v := Var ("v" +:+ debugName input) kInt32 in
      Ok (mkKernel (n_inputs_ k)
            (kernelArgs_ k ++ [mkKernelArg (mkBufferArg ("v" +:+ debugName input) kInt32 true) [] []])
            (tensor_outputs_ k) (tensors_ k) (emplace (unique input) v (scalars_ k))
            (backend_type_ k) (device_ k) (codegen_ k) (events k))
  | _ => Err (Fatal "Unhandled input type")
  end.

(** ** Backend selection and lowering *)

(** A kernel object with some members replaced. *)
Definition with_backend (k : TensorExprKernel) (b : BackendType) (d : Device)
    : TensorExprKernel :=
  mkKernel (n_inputs_ k) (kernelArgs_ k) (tensor_outputs_ k) (tensors_ k)
    (scalars_ k) b d (codegen_ k) (events k).

Definition with_codegen (k : TensorExprKernel) (name : string) (evs : list Event)
    : TensorExprKernel :=
  mkKernel (n_inputs_ k) (kernelArgs_ k) (tensor_outputs_ k) (tensors_ k)
    (scalars_ k) (backend_type_ k) (device_ k) (Some name) (events k ++ evs).

Definition log_events (k : TensorExprKernel) (evs : list Event) : TensorExprKernel :=
  mkKernel (n_inputs_ k) (kernelArgs_ k) (tensor_outputs_ k) (tensors_ k)
    (scalars_ k) (backend_type_ k) (device_ k) (codegen_ k) (events k ++ evs).

(** The formal parameter a size or stride variable becomes. *)
Definition var_arg (e : Expr) : BufferArg :=
  mkBufferArg (match e with Var n _ => n | _ => "" end) (dtype e) true.

Definition tensor_arg (t : Tensor) : BufferArg :=
  mkBufferArg (func_var t) (dtype (body t)) false.

(** The per-axis indices recovered from the flat index: the loop from the
    innermost axis outwards, before [std::reverse]. *)
Fixpoint flat_indices (value : Expr) (dims_rev : list Expr) : list Expr :=
  match dims_rev with
  | [] => []
  | d :: rest =>
      let idx := match rest with [] => value | _ => Mod value d end in
      idx :: flat_indices (Div value d) rest
  end.

(** The flattened copy of an output for the GPU. *)
Definition flatten_output (t : Tensor) : Res Tensor :=
  match dims t with
  | [] => Err (OutOfRange "dim(0)")
  | d0 :: ds =>
      let total_count := foldl Mul d0 ds in
      Compute (func_var t +:+ "_flat") [total_count] (fun axes =>
        index ← at_index "index" axes 0;
        Ok (call t (reverse (flat_indices index (reverse (dims t))))))
  end.

(** The tiling of one output on the GPU; nothing happens to an output with
    a dimension that is not a constant. *)
Definition gpu_tiling (cfg : Config) (t : Tensor) : Res (list (string * Z)) :=
  let dynamicShapes := existsb (fun d => match AsNode_IntImm d with Some _ => false | None => true end) (dims t) in
  if dynamicShapes then Ok []
  else
    let loop_levels := te_cuda_pointwise_loop_levels cfg in
    let loop_levels := if 0 <? loop_levels then loop_levels else 2 in
    let block_count := te_cuda_pointwise_block_count cfg in
    let block_size := te_cuda_pointwise_block_size cfg in
    if loop_levels =? 2 then
      let block_size := if block_size <? 0 then 512 else block_size in
      Ok [(func_var t, block_size)]
    else if loop_levels =? 3 then
      let block_count := if 0 <? block_count then block_count else 1280 in
      let block_size := if 0 <? block_size then block_size else 256 in
      Ok [(func_var t, block_count * block_size); (func_var t, block_size)]
    else Err (RuntimeError ("Invalid loop-level: " +:+ pretty loop_levels)).

Definition kernel_params (kargs : list KernelArg) (outs : list Tensor) : list BufferArg :=
  (kargs ≫= fun arg =>
     ka_buffer arg :: (var_arg ∘ var <$> ka_sizes arg) ++ (var_arg ∘ var <$> ka_strides arg))
  ++ (tensor_arg <$> outs).

Definition codegen_name_of (b : BackendType) : Res string :=
  match b with
  | kCudaCodeGen => Ok "cuda_codegen"
  | kLLVMCodeGen => Ok "llvm_codegen"
  | kSimpleIREval => Ok "simple_ir_eval"
  | kUninitializedBackend => Err (RuntimeError "invalid backend type: 0")
  end.

(** [LowerToBackend]: the schedule and the code generator are consumed; what
    is kept is whether lowering fails, and the request made to the code
    generator.  The state comes back unchanged when it fails. *)
Definition LowerToBackend (cfg : Config) (k : TensorExprKernel) (backend_type : BackendType)
    : TensorExprKernel * Res () :=
  let r :=
    tensor_outputs ←
      (if decide (backend_type = kCudaCodeGen)
       then mapM flatten_output (tensor_outputs_ k)
       else Ok (tensor_outputs_ k));
    _ ← (if decide (backend_type = kCudaCodeGen)
         then mapM (gpu_tiling cfg) (tensor_outputs_ k)
         else Ok []);
    let params := kernel_params (kernelArgs_ k) tensor_outputs in
    codegen_name ← codegen_name_of (backend_type_ k);
    Ok (codegen_name, params) in
  match r with
  | Ok (codegen_name, params) =>
      (with_codegen k codegen_name [EvCreateCodeGen codegen_name params], Ok ())
  | Err f => (k, Err f)
  end.

Definition isTensor (v : IValue) : bool :=
  match v with IV_Tensor _ => true | _ => false end.

(** The device of the first tensor among the inputs. *)
Fixpoint first_tensor_device (inputs : list IValue) : Res Device :=
  match inputs with
  | [] => Err (RuntimeError "No tensor inputs")
  | IV_Tensor t :: _ => Ok (at_device t)
  | _ :: rest => first_tensor_device rest
  end.

(** The backend a device maps to. *)
Definition backend_of_device (cfg : Config) (device : Device) : Res BackendType :=
  if decide (dev_type device = kCUDA) then Ok kCudaCodeGen
  else if decide (dev_type device = kCPU) then
    Ok (if ENABLE_LLVM cfg then kLLVMCodeGen else kSimpleIREval)
  else Err (RuntimeError "Invalid device type").

Definition PickAndCheckBackendType (cfg : Config) (k : TensorExprKernel)
    (inputs : list IValue) : TensorExprKernel * Res () :=
  match first_tensor_device inputs with
  | Err f => (k, Err f)
  | Ok device =>
      match backend_of_device cfg device with
      | Err f => (k, Err f)
      | Ok backend_type =>
          if decide (backend_type_ k = kUninitializedBackend) then
            LowerToBackend cfg (with_backend k backend_type device) backend_type
          else if decide (backend_type_ k ≠ backend_type) then
            (* the message goes on with the numbers of the two backends *)
            (k, Err (RuntimeError "Inconsistent backend_type"))
          else (k, Ok ())
      end
  end.

(** [CodeGenRun].  The source calls through [codegen_] without looking at
    it: with no code generator the call goes through a null pointer. *)
Definition CodeGenRun (k : TensorExprKernel) (run_args : list CallArg)
    : TensorExprKernel * Res () :=
  match backend_type_ k with
  | kSimpleIREval | kLLVMCodeGen | kCudaCodeGen =>
      match codegen_ k with
      | Some _ => (log_events k [EvCall run_args], Ok ())
      | None => (k, Err (Undefined "codegen_->call on a null codegen_"))
      end
  | kUninitializedBackend => (k, Err (RuntimeError "Invalid backend type: 0"))
  end.

(** ** The run-time binder *)

(** The key of an expression node in [varToSize]: the map is keyed by node
    address, and only the size variables made by [bindInput], one node per
    name, are ever inserted. *)
Definition node_key (e : Expr) : option string :=
  match e with Var name _ => Some name | _ => None end.

(** The state of the argument loop of [run]. *)
Record ArgLoop := mkArgLoop {
  al_run_args : list CallArg;
  al_varToSize : gmap string Z;
}.

Definition bind_size (tensor : at_Tensor) (st : ArgLoop) (size : ShapeArg) : Res ArgLoop :=
  s64 ← at_index "tensor.sizes()[size.idx]" (at_sizes tensor) (idx size);
  let s := to_int32 s64 in
  Ok (mkArgLoop (al_run_args st ++ [CA_Int s])
        (match node_key (var size) with
         | Some key => <[key := s]> (al_varToSize st)
         | None => al_varToSize st
         end)).

Definition bind_stride (tensor : at_Tensor) (st : ArgLoop) (stride : ShapeArg) : Res ArgLoop :=
  s64 ← at_index "tensor.strides()[stride.idx]" (at_strides tensor) (idx stride);
  let s := to_int32 s64 in
  Ok (mkArgLoop (al_run_args st ++ [CA_Int s]) (al_varToSize st)).

Definition bind_arg (kernelArgs : list KernelArg) (st : ArgLoop) (i_input : nat * IValue)
    : Res ArgLoop :=
  let '(i, input) := i_input in
  match input with
  | IV_Int n => Ok (mkArgLoop (al_run_args st ++ [CA_Int (to_int32 n)]) (al_varToSize st))
  | IV_Double d =>
      Ok (mkArgLoop (al_run_args st ++ [CA_Float (double_to_float d)]) (al_varToSize st))
  | IV_Tensor tensor =>
      let st := mkArgLoop (al_run_args st ++ [CA_Ptr (at_data_ptr tensor)]) (al_varToSize st) in
      karg ← at_index "kernelArgs_[i]" kernelArgs i;
      st ← foldlM (bind_size tensor) st (ka_sizes karg);
      foldlM (bind_stride tensor) st (ka_strides karg)
  | _ => Ok st
  end.

(** One dimension of an output, resolved. *)
Definition resolve_dim (varToSize : gmap string Z) (dim : Expr) : Res Z :=
  match node_key dim ≫= (varToSize !!.) with
  | Some s => Ok s
  | None =>
      match AsNode_IntImm dim with
      | Some s => Ok s
      | None => Err (Fatal "TORCH_CHECK(s)")
      end
  end.

(** Row-major strides, as [at::empty] lays a tensor out. *)
Fixpoint contiguous_strides (sizes : list Z) : list Z :=
  match sizes with
  | [] => []
  | _ :: rest =>
      match contiguous_strides rest, rest with
      | st :: sts, sz :: _ => st * sz :: st :: sts
      | _, _ => [1]
      end
  end.

(** [at::empty(sizes, options)]; the address of the storage is the
    allocator's choice. *)
Definition at_empty (ptr : Z) (sizes : list Z) (st : ScalarType) (d : Device) : at_Tensor :=
  mkAtTensor d st sizes (contiguous_strides sizes) ptr.

Definition make_output (k : TensorExprKernel) (fresh_ptr : nat -> Z)
    (varToSize : gmap string Z) (j_o : nat * Tensor) : Res at_Tensor :=
  let '(j, o) := j_o in
  tensorSize ← mapM (resolve_dim varToSize) (dims o);
  st ← tensorType o;
  Ok (at_empty (fresh_ptr j) tensorSize st (device_ k)).

(** Modelled from the spec: [last(stack, n)] of stack.h is not under src/.
    [run] consumes the top [n] operands of the stack; nothing is said of a
    stack that holds fewer, and the source calls [last] without a check
    of its own. *)
Definition last_n (stack : list IValue) (n : nat) : Res (list IValue) :=
  if bool_decide (n ≤ length stack)%nat
  then Ok (drop (length stack - n) stack)
  else Err (Undefined "last(stack, n) on a stack of fewer than n values").

(** [run]: the new state of the kernel object, and the new stack or the
    failure.  [fresh_ptr j] is the address the allocator gives output [j]. *)
Definition run (cfg : Config) (fresh_ptr : nat -> Z) (k : TensorExprKernel)
    (stack : list IValue) : TensorExprKernel * Res (list IValue) :=
  match last_n stack (n_inputs_ k) with
  | Err f => (k, Err f)
  | Ok inputs =>
      match PickAndCheckBackendType cfg k inputs with
      | (k, Err f) => (k, Err f)
      | (k, Ok _) =>
          let r :=
            st ← foldlM (bind_arg (kernelArgs_ k)) (mkArgLoop [] ∅)
                   (imap (fun i v => (i, v)) inputs);
            outputs ← mapM (make_output k fresh_ptr (al_varToSize st))
                        (imap (fun j o => (j, o)) (tensor_outputs_ k));
            Ok (al_run_args st ++ (CA_Ptr ∘ at_data_ptr <$> outputs), outputs) in
          match r with
          | Err f => (k, Err f)
          | Ok (run_args, outputs) =>
              match CodeGenRun k run_args with
              | (k, Err f) => (k, Err f)
              | (k, Ok _) =>
                  (k, Ok (take (length stack - n_inputs_ k) stack ++ (IV_Tensor <$> outputs)))
              end
          end
      end
  end.

(** ** The constructor *)

(** A subgraph: its inputs, the outputs of its nodes in graph order (each
    with [hasUses()]), and its outputs. *)
Record Graph := mkGraph {
  g_inputs : list Value;
  g_node_outputs : list (Value * bool);
  g_outputs : list Value;
}.

Definition with_tensors (k : TensorExprKernel) (ts : gmap Z Tensor) (outs : list Tensor)
    : TensorExprKernel :=
  mkKernel (n_inputs_ k) (kernelArgs_ k) outs ts (scalars_ k) (backend_type_ k)
    (device_ k) (codegen_ k) (events k).

Definition bind_node_output (chunk : Tensor -> nat -> Z -> Z -> list Expr -> Res Expr)
    (k : TensorExprKernel) (o : Value * bool) : Res TensorExprKernel :=
  let '(output, hasUses) := o in
  if bool_decide (kind (node output) = prim_Constant)
     || bool_decide (kind (node output) = prim_ListConstruct)
  then Ok k
  else if hasUses then
    t ← ComputeValue chunk k output;
    Ok (with_tensors k (emplace (unique output) t (tensors_ k)) (tensor_outputs_ k))
  else Ok k.

Definition move_output (k : TensorExprKernel) (output : Value) : Res TensorExprKernel :=
  t ← of_option (tensors_ k !! unique output) (Fatal "Output must be a tensor");
  Ok (with_tensors k (delete (unique output) (tensors_ k)) (tensor_outputs_ k ++ [t])).

Definition new_kernel (chunk : Tensor -> nat -> Z -> Z -> list Expr -> Res Expr)
    (subgraph : Graph) : Res TensorExprKernel :=
  let k :=
    mkKernel (length (g_inputs subgraph)) [] [] ∅ ∅ kUninitializedBackend
      (mkDevice kCPU (-1)) None [] in
  k ← foldlM bindInput k (g_inputs subgraph);
  k ← foldlM (bind_node_output chunk) k (g_node_outputs subgraph);
  foldlM move_output k (g_outputs subgraph).

(** ** Reading expressions *)

(** Modelled from the spec: the evaluation of the expression IR is not
    under src/.  The value of an integer expression, its variables given by
    [env], with the arithmetic of C++ on integers that do not overflow. *)
Fixpoint eval_int (env : string -> Z) (e : Expr) : option Z :=
  match e with
  | IntImm v => Some v
  | Var x _ => Some (env x)
  | Add a b => x ← eval_int env a; y ← eval_int env b; Some (x + y)
  | Sub a b => x ← eval_int env a; y ← eval_int env b; Some (x - y)
  | Mul a b => x ← eval_int env a; y ← eval_int env b; Some (x * y)
  | Div a b => x ← eval_int env a; y ← eval_int env b; Some (x ÷ y)
  | Mod a b => x ← eval_int env a; y ← eval_int env b; Some (Z.rem x y)
  | Max a b _ => x ← eval_int env a; y ← eval_int env b; Some (Z.max x y)
  | Min a b _ => x ← eval_int env a; y ← eval_int env b; Some (Z.min x y)
  | CompareSelect a b op =>
      x ← eval_int env a; y ← eval_int env b;
      Some (if match op with
               | kEQ => x =? y
               | kGT => y <? x
               | kGE => y <=? x
               | kLT => x <? y
               | kLE => x <=? y
               | kNE => negb (x =? y)
               end then 1 else 0)
  | IfThenElse c t f =>
      x ← eval_int env c;
      if x =? 0 then eval_int env f else eval_int env t
  | _ => None
  end.

(** The assignment of the values [vals] to the variables [vars], over
    [env]. *)
Fixpoint bind_vars (vars : list Expr) (vals : list Z) (env : string -> Z) : string -> Z :=
  match vars, vals with
  | Var x _ :: vars', v :: vals' =>
      fun y => if String.eqb y x then v else bind_vars vars' vals' env y
  | _, _ => env
  end.

(** Modelled from the spec: as [eval_int].  The buffer element an
    expression loads once the tensors it calls are computed inline: a call
    is the callee's element expression at the values of the indices. *)
Fixpoint eval_load (env : string -> Z) (e : Expr) : option (string * Z) :=
  match e with
  | IfThenElse c t f =>
      x ← eval_int env c;
      if x =? 0 then eval_load env f else eval_load env t
  | FunctionCall (mkTensor _ _ xs b) params =>
      ix ← mapM (eval_int env) params;
      eval_load (bind_vars xs ix env) b
  | Load b _ index => i ← eval_int env index; Some (b, i)
  | _ => None
  end.

(** ** The stride-indexing rule, in closed form

    What [createInputIndexExpr] builds, written per step of the walk: with
    [n = axes.size() - 1], step [i] handles axis [n - i]. *)

(** The flag read at step [i] is false. *)
Definition step_flag_false (contiguity : list Z) (i : nat) : bool :=
  match contiguity !! i with
  | Some c => c =? 0
  | None => false
  end.

Definition stride_var (buffer : Buffer) (i : nat) : Expr :=
  Var ("stride_" +:+ buf_name buffer +:+ "_" +:+ pretty i) kInt32.

(** The size of the axis of step [i] is a size variable. *)
Definition step_size_dynamic (n : nat) (sizes : list Z) (i : nat) : bool :=
  match sizes !! (n - i)%nat with
  | Some s => s <? 0
  | None => false
  end.

(** The size of the axis of step [i]: a constant or its size variable. *)
Definition step_size (n : nat) (sizes : list Z) (sizeVars : gmap Z Expr) (i : nat) : Expr :=
  match sizes !! (n - i)%nat with
  | Some s => if s <? 0 then default (IntImm 0) (sizeVars !! s) else IntImm (to_int32 s)
  | None => IntImm 0
  end.

(** The stride that multiplies the axis variable at step [i]. *)
Fixpoint running_stride (buffer : Buffer) (n : nat) (sizes contiguity : list Z)
    (sizeVars : gmap Z Expr) (i : nat) : Expr :=
  if step_flag_false contiguity i then stride_var buffer i
  else match i with
       | O => IntImm 1
       | S j => Mul (running_stride buffer n sizes contiguity sizeVars j)
                  (step_size n sizes sizeVars j)
       end.

(** The stride left after [m] steps. *)
Definition stride_after (buffer : Buffer) (n : nat) (sizes contiguity : list Z)
    (sizeVars : gmap Z Expr) (m : nat) : Expr :=
  match m with
  | O => IntImm 1
  | S j => Mul (running_stride buffer n sizes contiguity sizeVars j)
             (step_size n sizes sizeVars j)
  end.

(** The index accumulated by the first [m] steps. *)
Fixpoint index_after (buffer : Buffer) (axes : list Expr) (sizes contiguity : list Z)
    (sizeVars : gmap Z Expr) (m : nat) : Expr :=
  match m with
  | O => IntImm 0
  | S j =>
      let n := (length axes - 1)%nat in
      Add (index_after buffer axes sizes contiguity sizeVars j)
        (Mul (axes !!! (n - j)%nat) (running_stride buffer n sizes contiguity sizeVars j))
  end.

(** The stride variables recorded by the first [m] steps, each with the
    axis of its step. *)
Definition strideArgs_after (buffer : Buffer) (n : nat) (contiguity : list Z) (m : nat)
    : list ShapeArg :=
  (fun i => mkShapeArg (n - i) (stride_var buffer i))
    <$> filter (fun i => step_flag_false contiguity i = true) (seq 0 m).

Definition sizeArgs_after (n : nat) (sizes : list Z) (sizeVars : gmap Z Expr) (m : nat)
    : list ShapeArg :=
  (fun i => mkShapeArg (n - i) (step_size n sizes sizeVars i))
    <$> filter (fun i => step_size_dynamic n sizes i = true) (seq 0 m).

(** The sizes a walk needs: every unknown size has its size variable. *)
Definition sizes_bound (sizes : list Z) (sizeVars : gmap Z Expr) : Prop :=
  Forall (fun s => s < 0 -> is_Some (sizeVars !! s)) sizes.

(** ** The exponents of the [aten::pow] template *)

(** The float literals the template compares the exponent with, in the
    order of the source. *)
Definition pow_float_literals : list float32 :=
  [f_1_0; f_2_0; f_3_0; f_4_0; f_0_5; f_0_0; f_m0_5; f_m1_0; f_m2_0].

(** The integer exponents the template knows. *)
Definition pow_int_exponents : list Z := [1; 2; 3; 4; 0; -1; -2].

(** The lowering of [pow(lhs, rhs)] for an exponent [rhs] that is the cast
    of the integer literal [n], as the specification words it: by the
    integer. *)
Definition pow_int_case (lhs : Expr) (n : Z) (rhs : Expr) : Expr :=
  if n =? 1 then lhs
  else if n =? 2 then Mul lhs lhs
  else if n =? 3 then Mul (Mul lhs lhs) lhs
  else if n =? 4 then Mul (Mul lhs lhs) (Mul lhs lhs)
  else if n =? 0 then FloatImm f_1_0
  else if n =? -1 then Div (FloatImm f_1_0) lhs
  else if n =? -2 then Div (FloatImm f_1_0) (Mul lhs lhs)
  else intrinsic2 kPow lhs rhs.

(** [2.7f], and the [double] [2.7] it is the narrowing of. *)
Definition f_2_7 : float32 := S754_finite false 11324621 (-22).
Definition d_2_7 : float64 := S754_finite false 6079859496950170 (-51).

(** A float that is zero, or finite with an exponent below -20. *)
Definition small_float (c : float32) : Prop :=
  match c with
  | S754_zero _ => True
  | S754_finite _ _ e => e < -20
  | _ => False
  end.

(** ** Type promotion *)

(** The cast [promoteInputs] puts on an integer operand. *)
Definition promote_one (e : Expr) : Expr :=
  if decide (dtype e = kInt32) then Cast kFloat32 e else e.

(** The two-operand templates whose result has the type of the operands. *)
Definition arith_templates : list (Expr -> Expr -> Expr) :=
  [Add; Sub; Mul; Div; Mod; fun a b => Max a b false; fun a b => Min a b false].

(** ** Example graphs *)

(** Graphs without chunk nodes need no [chunk]. *)
Definition chunk_unavailable : Tensor -> nat -> Z -> Z -> list Expr -> Res Expr :=
  fun _ _ _ _ _ => Err (Fatal "chunk").

Definition graph_input (u : Z) (name : string) (ty : JitType) : Value :=
  mkValue u name ty 0 (mkNode prim_Param [] None 0 0).

Definition graph_constant (u : Z) (name : string) (ty : JitType) (val : IValue) : Value :=
  mkValue u name ty 0 (mkNode prim_Constant [] (Some val) 0 0).

Definition graph_node (u : Z) (name : string) (ty : JitType) (op : NodeKind)
    (operands : list Value) : Value :=
  mkValue u name ty 0 (mkNode op operands None 0 0).

(** A contiguous float tensor type of the given sizes. *)
Definition float_tensor (sizes : list Z) : JitType :=
  TensorType (Some ST_Float) sizes (contiguous_strides sizes) ((fun _ => 1) <$> sizes).

(** [y = x[None:8:2]] and [z = add(x, w, alpha=None)] over float tensors. *)
Definition ex_x : Value := graph_input 0 "x" (float_tensor [8]).
Definition ex_w : Value := graph_input 1 "w" (float_tensor [8]).
Definition ex_none : Value := graph_constant 2 "none" NoneType IV_None.
Definition ex_zero : Value := graph_constant 3 "c0" IntType (IV_Int 0).
Definition ex_eight : Value := graph_constant 4 "c8" IntType (IV_Int 8).
Definition ex_two : Value := graph_constant 5 "c2" IntType (IV_Int 2).
Definition ex_slice : Value :=
  graph_node 6 "y" (float_tensor [4]) aten_slice [ex_x; ex_zero; ex_none; ex_eight; ex_two].
Definition ex_add : Value :=
  graph_node 7 "z" (float_tensor [8]) aten_add [ex_x; ex_w; ex_none].
Definition ex_none_graph : Graph :=
  mkGraph [ex_x; ex_w]
    [(ex_none, true); (ex_zero, true); (ex_eight, true); (ex_two, true);
     (ex_slice, true); (ex_add, true)]
    [ex_slice; ex_add].

(** [y = relu(x)] for a float vector [x] of unknown length. *)
Definition ex_dx : Value :=
  graph_input 0 "x" (TensorType (Some ST_Float) [-1] [1] [1]).
Definition ex_dy : Value :=
  graph_node 1 "y" (TensorType (Some ST_Float) [-1] [1] [1]) aten_relu [ex_dx].
Definition ex_dyn_graph : Graph := mkGraph [ex_dx] [(ex_dy, true)] [ex_dy].

(** [y = relu(x)] for a float matrix [x] whose two unknown sizes carry the
    same sentinel. *)
Definition ex_mx : Value :=
  graph_input 0 "x" (TensorType (Some ST_Float) [-1; -1] [1; 1] [1; 1]).
Definition ex_my : Value :=
  graph_node 1 "y" (TensorType (Some ST_Float) [-1; -1] [1; 1] [1; 1]) aten_relu [ex_mx].
Definition ex_same_sentinel_graph : Graph := mkGraph [ex_mx] [(ex_my, true)] [ex_my].

(** The default settings, without the native code generator. *)
Definition ex_cfg : Config := mkConfig (-1) (-1) (-1) false.

(** An allocator: output [j] gets the address [2000 + j]. *)
Definition ex_alloc (j : nat) : Z := 2000 + Z.of_nat j.

Definition cpu_tensor (sizes strides : list Z) : IValue :=
  IV_Tensor (mkAtTensor (mkDevice kCPU (-1)) ST_Float sizes strides 1000).

Definition cuda_tensor (sizes strides : list Z) : IValue :=
  IV_Tensor (mkAtTensor (mkDevice kCUDA 0) ST_Float sizes strides 1000).

(** [cat([a, b, c], 0)] for float vectors of lengths 2, 3 and 4. *)
Definition ex_ca : Value := graph_input 0 "a" (float_tensor [2]).
Definition ex_cb : Value := graph_input 1 "b" (float_tensor [3]).
Definition ex_cc : Value := graph_input 2 "c" (float_tensor [4]).
Definition ex_clist : Value := graph_node 3 "l" ListType prim_ListConstruct [ex_ca; ex_cb; ex_cc].
Definition ex_cdim : Value := graph_constant 4 "d" IntType (IV_Int 0).
Definition ex_cat : Value := graph_node 5 "r" (float_tensor [9]) aten_cat [ex_clist; ex_cdim].
Definition ex_cat_graph : Graph :=
  mkGraph [ex_ca; ex_cb; ex_cc] [(ex_cdim, true); (ex_clist, true); (ex_cat, true)] [ex_cat].

(** The element of a concatenation as the specification words it: the
    segment the index falls in, and the index less the sizes of the segments
    before it. *)
Fixpoint cat_element (sizes : list Z) (i : Z) : option (nat * Z) :=
  match sizes with
  | [] => None
  | s :: rest =>
      if i <? s then Some (0%nat, i)
      else '(k, p) ← cat_element rest (i - s); Some (S k, p)
  end.

(** [z = add(x, s, alpha = a)] for a float vector [x] of unknown length
    that is not contiguous, a float scalar [s] and an integer scalar [a]. *)
Definition ex_sx : Value :=
  graph_input 0 "x" (TensorType (Some ST_Float) [-1] [1] [0]).
Definition ex_ss : Value := graph_input 1 "s" FloatType.
Definition ex_sa : Value := graph_input 2 "a" IntType.
Definition ex_sz : Value :=
  graph_node 3 "z" (TensorType (Some ST_Float) [-1] [1] [1]) aten_add [ex_sx; ex_ss; ex_sa].
Definition ex_scalar_graph : Graph :=
  mkGraph [ex_sx; ex_ss; ex_sa] [(ex_sz, true)] [ex_sz].

(** The [double] [0.1] and the [float] [0.1f]. *)
Definition d_0_1 : float64 := S754_finite false 7205759403792794 (-56).
Definition f_0_1 : float32 := S754_finite false 13421773 (-27).

(** A kernel of one input and no output, locked to the interpreter. *)
Definition ex_locked_kernel : TensorExprKernel :=
  mkKernel 1 [] [] ∅ ∅ kSimpleIREval (mkDevice kCPU (-1)) (Some "simple_ir_eval") [].

(** ** The backends a kernel can be locked to *)

Definition selectable_backends : list BackendType :=
  [kCudaCodeGen; kLLVMCodeGen; kSimpleIREval].

(** The request to create a code generator. *)
Definition is_create (ev : Event) : bool :=
  match ev with EvCreateCodeGen _ _ => true | EvCall _ => false end.

(** ** The dimensions of a bound input *)

(** The size variable [bindInput] makes for axis [i] of the input
    [input_unique]. *)
Definition size_var (input_unique : Z) (i : nat) : Expr :=
  Var ("size_" +:+ pretty input_unique +:+ "_" +:+ pretty i) kInt32.

(** The dimension [bindInput] gives axis [i] of declared size [s]. *)
Definition input_dim (input_unique : Z) (i : nat) (s : Z) : Expr :=
  if s <? 0 then size_var input_unique i else IntImm (to_int32 s).

(** ** Row-major offsets *)

(** The offset of the element at indices [ixs] in a row-major block of
    extents [ds]: [((i0 * d1 + i1) * d2 + i2) ...]. *)
Definition row_major (ds ixs : list Z) : Z :=
  foldl (fun acc di => acc * di.1 + di.2) 0 (zip ds ixs).

(** The same offset, from the innermost axis outwards. *)
Fixpoint row_major_rev (ds_rev ixs_rev : list Z) : Z :=
  match ds_rev, ixs_rev with
  | d :: ds, i :: ixs => i + d * row_major_rev ds ixs
  | _, _ => 0
  end.

(** The number of elements of a block of extents [ds]. *)
Definition numel (ds : list Z) : Z := foldl Z.mul 1 ds.


(** The expression [createInputIndexExpr] uses for a declared size [s]: its
    size variable when it is unknown, the constant otherwise. *)
Definition size_expr (sizeVars : gmap Z Expr) (s : Z) : Expr :=
  if s <? 0 then default (IntImm 0) (sizeVars !! s) else IntImm (to_int32 s).


(** ** What lowering for the GPU asks of an output *)

(** [dynamicShapes] of the tiling loop: some dimension is not a constant. *)
Definition is_dynamic (t : Tensor) : bool :=
  existsb (fun d => match AsNode_IntImm d with Some _ => false | None => true end) (dims t).

(** The loop levels in force: the setting when it is positive, else 2. *)
Definition effective_loop_levels (cfg : Config) : Z :=
  if 0 <? te_cuda_pointwise_loop_levels cfg then te_cuda_pointwise_loop_levels cfg else 2.


(** ** Counting parameters and arguments *)

(** The number of formal parameters a kernel argument stands for: its
    buffer, its size variables and its stride variables. *)
Definition param_count (karg : KernelArg) : nat :=
  S (length (ka_sizes karg) + length (ka_strides karg)).

(** A run-time input that fits a kernel argument: a tensor, or a number for
    an argument without size and stride variables. *)
Definition input_fits (v : IValue) (karg : KernelArg) : Prop :=
  match v with
  | IV_Tensor _ => True
  | IV_Int _ | IV_Double _ => ka_sizes karg = [] /\ ka_strides karg = []
  | _ => False
  end.


(** ** A kernel whose lowering fails *)

(** A kernel object fresh from the constructor, with one input and one
    output of four elements, and settings that ask for four loop levels. *)
Definition ex_fresh_kernel : TensorExprKernel :=
  mkKernel 1 [mkKernelArg (mkBufferArg "tx" kFloat32 false) [] []]
    [mkTensor "aten_relu" [IntImm 4] (axis_vars 1) (Load "tx" kFloat32 (Var "i0" kInt32))]
    ∅ ∅ kUninitializedBackend (mkDevice kCPU (-1)) None [].

Definition ex_cfg_four_levels : Config := mkConfig 4 (-1) (-1) false.


(** ** Strided offsets *)

(** The offset of the element at indices [ixs] in a block of strides [sts]:
    the sum of the products index times stride. *)
Definition strided_offset (ixs sts : list Z) : Z :=
  foldr (fun p acc => p.1 * p.2 + acc) 0 (zip ixs sts).


(** The kernel object once the three inputs of [ex_cat_graph] are bound. *)
Definition ex_cat_inputs_kernel : TensorExprKernel :=
  match foldlM bindInput
          (mkKernel 3 [] [] ∅ ∅ kUninitializedBackend (mkDevice kCPU (-1)) None [])
          [ex_ca; ex_cb; ex_cc] with
  | Ok k => k
  | Err _ => ex_locked_kernel
  end.


(** ** The index shift of a concatenation *)

(** What the cat loop has subtracted from the index along [dim] after the
    segments of sizes [sizes], when it started at the running offset
    [offset]: every new running offset, as a 32-bit constant. *)
Fixpoint cat_shift (offset : Z) (sizes : list Z) : Z :=
  match sizes with
  | [] => 0
  | s :: rest => to_int32 (offset + s) + cat_shift (offset + s) rest
  end.


(** ** Operators lowered element by element *)

(** The node kinds whose tensor takes its shape from the declared type. *)
Definition shape_ops : list NodeKind :=
  [aten_cat; aten_slice; aten_unsqueeze; prim_ConstantChunk].

(** What holds of the tensor [t] built for [v] by a combinator: [v] has a
    tensor type, an integer one is respected by the element type, there
    is one axis variable per dimension, and the rank is at least the rank
    of the first operand. *)
Definition elementwise_result (k : TensorExprKernel) (v : Value) (t : Tensor) : Prop :=
  (exists st sizes strides contiguity,
     type v = TensorType st sizes strides contiguity /\
     (st = Some ST_Int -> dtype (body t) <> kFloat32)) /\
  args t = axis_vars (length (dims t)) /\
  exists in0,
    inputs (node v) !! 0%nat = Some in0 /\
    (length (valueShape (tensors_ k) in0) <= length (dims t))%nat.


(** ** The number of elements of a tensor *)

(** [(int64_t) x]: the 64-bit integer that [x] wraps around to. *)
Definition to_int64 (x : Z) : Z :=
  (x + 9223372036854775808) mod 18446744073709551616 - 9223372036854775808.

(** [bufferSize]: the product of the dimensions, each read through
    [AsNode<IntImm>()], in an [int64_t] that wraps around.  For a dimension
    that is not a constant the source reads the value of a null node. *)
Definition bufferSize (t : Tensor) : Res Z :=
  foldlM (fun size d =>
            v ← of_option (AsNode_IntImm d) (Undefined "value() of a null IntImm node");
            Ok (to_int64 (size * v)))
    1 (dims t).


(** ** The N-operand combinators, taken together *)

(** An operator template, with the combinator the table hands it to. *)
Inductive Template :=
  | OneOperand (inner_expr : Expr -> Expr)
  | TwoOperand (inner_expr : Expr -> Expr -> Expr)
  | TwoOperandWithAlpha (inner_expr : Expr -> Expr -> Expr)
  | ThreeOperand (inner_expr : Expr -> Expr -> Expr -> Expr)
  | FourOperand (inner_expr : Expr -> Expr -> Expr -> Expr -> Expr).

Definition ComputeN (k : TensorExprKernel) (name : string) (v : Value) (T : Template)
    : Res Tensor :=
  match T with
  | OneOperand f => ComputeOneOperand k name v f
  | TwoOperand f => ComputeTwoOperand k name v f
  | TwoOperandWithAlpha f => ComputeTwoOperandWithAlpha k name v f
  | ThreeOperand f => ComputeThreeOperand k name v f
  | FourOperand f => ComputeFourOperand k name v f
  end.

(** The number of operands a combinator reads. *)
Definition operand_count (T : Template) : nat :=
  match T with
  | OneOperand _ => 1
  | TwoOperand _ => 2
  | TwoOperandWithAlpha _ => 3
  | ThreeOperand _ => 3
  | FourOperand _ => 4
  end.

(** The number of leading operands whose shapes it broadcasts. *)
Definition shape_count (T : Template) : nat :=
  match T with
  | OneOperand _ => 1
  | TwoOperand _ => 2
  | TwoOperandWithAlpha _ => 2
  | ThreeOperand _ => 3
  | FourOperand _ => 4
  end.

(** The template at the operands a combinator hands it. *)
Definition apply_template (T : Template) (inputs : list Expr) : Expr :=
  match T with
  | OneOperand f => f (inputs !!! 0%nat)
  | TwoOperand f => f (inputs !!! 0%nat) (inputs !!! 1%nat)
  | TwoOperandWithAlpha f =>
      f (inputs !!! 0%nat) (Mul (inputs !!! 2%nat) (inputs !!! 1%nat))
  | ThreeOperand f => f (inputs !!! 0%nat) (inputs !!! 1%nat) (inputs !!! 2%nat)
  | FourOperand f =>
      f (inputs !!! 0%nat) (inputs !!! 1%nat) (inputs !!! 2%nat) (inputs !!! 3%nat)
  end.

(** The broadcast of one or more shapes. *)
Definition broadcast_all (shapes : list (list Expr)) : list Expr :=
  match shapes with
  | [] => []
  | [a] => a
  | a :: b :: rest => broadcastShapesN a b rest
  end.

(** What [demoteOutput] makes of [e] for a value of scalar type [st]. *)
Definition demoted (st : option ScalarType) (e : Expr) : Expr :=
  if bool_decide (dtype e = kFloat32 /\ st = Some ST_Int) then Cast kInt32 e else e.

(** ** Reading expressions on floats *)

(** Modelled from the spec: the evaluation of the IR is not under src/.  The
    larger and the smaller of two binary32 values, by their order. *)
Definition float_max (a b : float32) : float32 := if SFltb a b then b else a.
Definition float_min (a b : float32) : float32 := if SFltb b a then b else a.

(** Modelled from the spec: as [float_max].  The value of a float
    expression built from literals, [min] and [max] over leaves (variables,
    reads of buffers and tensors) whose values [leaf] gives. *)
Fixpoint eval_float (leaf : Expr -> option float32) (e : Expr) : option float32 :=
  match e with
  | FloatImm v => Some v
  | Max a b _ => x ← eval_float leaf a; y ← eval_float leaf b; Some (float_max x y)
  | Min a b _ => x ← eval_float leaf a; y ← eval_float leaf b; Some (float_min x y)
  | _ => leaf e
  end.

Definition neg_infinity : float32 := S754_infinity true.

(** ** Literal exponents and bounds as graph constants *)

(** The [double]s the literals of the [aten::pow] template are the
    narrowings of. *)
Definition d_1_0 : float64 := S754_finite false 4503599627370496 (-52).
Definition d_2_0 : float64 := S754_finite false 4503599627370496 (-51).
Definition d_3_0 : float64 := S754_finite false 6755399441055744 (-51).
Definition d_4_0 : float64 := S754_finite false 4503599627370496 (-50).
Definition d_0_5 : float64 := S754_finite false 4503599627370496 (-53).
Definition d_0_0 : float64 := S754_zero false.
Definition d_m0_5 : float64 := S754_finite true 4503599627370496 (-53).
Definition d_m1_0 : float64 := S754_finite true 4503599627370496 (-52).
Definition d_m2_0 : float64 := S754_finite true 4503599627370496 (-51).

(** The lowering of [pow(a, e)] the specification gives for each literal
    exponent [e], a [double] constant of the graph, and for [2.7]. *)
Definition pow_literal_table (a : Expr) : list (float64 * Expr) :=
  [(d_1_0, a);
   (d_2_0, Mul a a);
   (d_3_0, Mul (Mul a a) a);
   (d_4_0, Mul (Mul a a) (Mul a a));
   (d_0_5, intrinsic1 kSqrt a);
   (d_0_0, FloatImm f_1_0);
   (d_m0_5, intrinsic1 kRsqrt a);
   (d_m1_0, Div (FloatImm f_1_0) a);
   (d_m2_0, Div (FloatImm f_1_0) (Mul a a));
   (d_2_7, intrinsic2 kPow a (FloatImm f_2_7))].

(** [5.0] and [5.0f]. *)
Definition d_5_0 : float64 := S754_finite false 5629499534213120 (-50).
Definition f_5_0 : float32 := Eval vm_compute in f32 5 0.

(** [y = pow(x, e)] for a float vector [x] and a constant [e]. *)
Definition ex_pow_exponent (e : IValue) : Value :=
  graph_constant 1 "e" (match e with IV_Int _ => IntType | _ => FloatType end) e.
Definition ex_pow (e : IValue) : Value :=
  graph_node 2 "y" (float_tensor [8]) aten_pow [ex_x; ex_pow_exponent e].
Definition ex_pow_graph (e : IValue) : Graph :=
  mkGraph [ex_x] [(ex_pow_exponent e, true); (ex_pow e, true)] [ex_pow e].

(** [y = clamp(x, lo, hi)] for a float vector [x] and constants [lo], [hi]. *)
Definition ex_clamp_bound (u : Z) (name : string) (b : IValue) : Value :=
  graph_constant u name (match b with IV_None => NoneType | _ => FloatType end) b.
Definition ex_clamp (lo hi : IValue) : Value :=
  graph_node 3 "y" (float_tensor [8]) aten_clamp
    [ex_x; ex_clamp_bound 1 "lo" lo; ex_clamp_bound 2 "hi" hi].
Definition ex_clamp_graph (lo hi : IValue) : Graph :=
  mkGraph [ex_x]
    [(ex_clamp_bound 1 "lo" lo, true); (ex_clamp_bound 2 "hi" hi, true);
     (ex_clamp lo hi, true)]
    [ex_clamp lo hi].

(** The read of the bound input [ex_x] at the axis variable of a vector. *)
Definition ex_read_x : Expr :=
  match k ← bindInput
              (mkKernel 1 [] [] ∅ ∅ kUninitializedBackend (mkDevice kCPU (-1)) None [])
              ex_x;
        tensorOrConstant k ex_x (axis_vars 1) with
  | Ok r => r
  | Err _ => IntImm 0
  end.

(** An integer vector [x] and a float vector [y], both bound, with
    [eq(x, y)] and [reciprocal(x)]. *)
Definition ex_ix : Value := graph_input 0 "x" (TensorType (Some ST_Int) [8] [1] [1]).
Definition ex_fy : Value := graph_input 1 "y" (float_tensor [8]).
Definition ex_mixed_kernel : TensorExprKernel :=
  match foldlM bindInput
          (mkKernel 2 [] [] ∅ ∅ kUninitializedBackend (mkDevice kCPU (-1)) None [])
          [ex_ix; ex_fy] with
  | Ok k => k
  | Err _ => ex_locked_kernel
  end.
Definition ex_eq : Value := graph_node 2 "e" (float_tensor [8]) aten_eq [ex_ix; ex_fy].
Definition ex_reciprocal : Value :=
  graph_node 3 "r" (float_tensor [8]) aten_reciprocal [ex_ix].

(** * Properties *)

(** ** Broadcasting *)

Lemma broadcast_loop_length (a b : list Expr) :
  length (broadcast_loop a b) = (length a `max` length b)%nat.
Proof.
  revert b; induction a as [|x a IH]; intros [|y b]; simpl; auto.
Qed.

Lemma broadcast_loop_lookup (a b : list Expr) (k : nat) :
  broadcast_loop a b !! k =
    match a !! k, b !! k with
    | Some x, Some y => Some (if isOne x then y else x)
    | Some x, None => Some x
    | None, Some y => Some y
    | None, None => None
    end.
Proof.
  revert b k; induction a as [|x a IH]; intros [|y b] [|k]; simpl; auto.
  - destruct (b !! k); reflexivity.
  - destruct (a !! k); reflexivity.
Qed.

(** C1.  The broadcast of two shapes has the larger of the two ranks;
    counted from the innermost axis, its axis [k] is the one of [b] when the
    one of [a] is the constant 1, the one of [a] otherwise, and the one of
    the other shape when one shape has no axis [k].  A value without a
    symbolic tensor has shape [[1]].  Shapes [[5,1]] and [[3]] give
    [[5,3]]. *)
Theorem broadcastShapes_rank_and_axes :
  (forall a b : list Expr,
     length (broadcastShapes a b) = (length a `max` length b)%nat) /\
  (forall (a b : list Expr) (k : nat),
     reverse (broadcastShapes a b) !! k =
       match reverse a !! k, reverse b !! k with
       | Some x, Some y => Some (if isOne x then y else x)
       | Some x, None => Some x
       | None, Some y => Some y
       | None, None => None
       end) /\
  (forall (tensors : gmap Z Tensor) (v : Value),
     valueShape tensors v =
       match tensors !! unique v with
       | None => [IntImm 1]
       | Some t => dims t
       end) /\
  broadcastShapes [IntImm 5; IntImm 1] [IntImm 3] = [IntImm 5; IntImm 3].
Proof.
  repeat split.
  - intros a b. unfold broadcastShapes.
    rewrite length_reverse, broadcast_loop_length, !length_reverse. reflexivity.
  - intros a b k. unfold broadcastShapes.
    rewrite reverse_involutive. apply broadcast_loop_lookup.
Qed.

(** ** The stride-indexing rule *)

Lemma foldlM_app {A B} (f : A -> B -> Res A) (a : A) (l1 l2 : list B) :
  foldlM f a (l1 ++ l2) = (a' ← foldlM f a l1; foldlM f a' l2).
Proof.
  revert a; induction l1 as [|b l1 IH]; intros a; simpl; [reflexivity|].
  destruct (f a b) as [a'|e]; simpl; [apply IH | reflexivity].
Qed.

Lemma filter_singleton_bool (f : nat -> bool) (x : nat) :
  filter (fun i => f i = true) [x] = if f x then [x] else [].
Proof.
  destruct (f x) eqn:E.
  - rewrite filter_cons_True by exact E. reflexivity.
  - rewrite filter_cons_False by congruence. reflexivity.
Qed.


Lemma index_loop_invariant (buffer : Buffer) (axes : list Expr)
    (sizes contiguity : list Z) (sizeVars : gmap Z Expr) (m : nat) :
  length sizes = length axes ->
  length contiguity = length axes ->
  sizes_bound sizes sizeVars ->
  (m <= length axes)%nat ->
  let n := (length axes - 1)%nat in
  foldlM (index_step buffer axes sizes contiguity sizeVars n)
    (mkIndexLoop (IntImm 1) (IntImm 0) [] []) (seq 0 m)
  = Ok (mkIndexLoop (stride_after buffer n sizes contiguity sizeVars m)
          (index_after buffer axes sizes contiguity sizeVars m)
          (sizeArgs_after n sizes sizeVars m)
          (strideArgs_after buffer n contiguity m)).
Proof.
  intros Hs Hc Hb Hm n. induction m as [|m IH]; [reflexivity|].
  rewrite seq_S, foldlM_app, IH by lia.
  cbn [mbind Res_bind foldlM Nat.add].
  destruct (contiguity !! m) as [c|] eqn:Ec;
    [|apply lookup_ge_None in Ec; lia].
  destruct (sizes !! (n - m)%nat) as [s|] eqn:Es;
    [|apply lookup_ge_None in Es; lia].
  destruct (axes !! (n - m)%nat) as [ax|] eqn:Ea;
    [|apply lookup_ge_None in Ea; lia].
  assert (Hax : axes !!! (n - m)%nat = ax)
    by (apply list_lookup_total_correct; exact Ea).
  assert (Hsv : s < 0 -> is_Some (sizeVars !! s)).
  { intros Hneg. exact (proj1 (Forall_lookup _ _) Hb _ _ Es Hneg). }
  assert (Hrs : running_stride buffer n sizes contiguity sizeVars m =
                if c =? 0 then stride_var buffer m
                else stride_after buffer n sizes contiguity sizeVars m).
  { destruct m; cbn [running_stride stride_after]; unfold step_flag_false; rewrite Ec; reflexivity. }
  assert (Hss : step_size n sizes sizeVars m =
                if s <? 0 then default (IntImm 0) (sizeVars !! s) else IntImm (to_int32 s)).
  { unfold step_size. rewrite Es. reflexivity. }
  assert (Hff : step_flag_false contiguity m = (c =? 0))
    by (unfold step_flag_false; rewrite Ec; reflexivity).
  assert (Hsd : step_size_dynamic n sizes m = (s <? 0))
    by (unfold step_size_dynamic; rewrite Es; reflexivity).
  unfold strideArgs_after, sizeArgs_after.
  rewrite !seq_S, !filter_app, !fmap_app. cbn [Nat.add].
  rewrite !filter_singleton_bool, Hff, Hsd.
  change (stride_after buffer n sizes contiguity sizeVars (S m))
    with (Mul (running_stride buffer n sizes contiguity sizeVars m)
            (step_size n sizes sizeVars m)).
  change (index_after buffer axes sizes contiguity sizeVars (S m))
    with (Add (index_after buffer axes sizes contiguity sizeVars m)
            (Mul (axes !!! (n - m)%nat)
               (running_stride buffer n sizes contiguity sizeVars m))).
  rewrite Hax, Hrs.
  unfold index_step, at_index. rewrite Ec, Es, Ea. cbn [of_option mbind Res_bind].
  destruct (c =? 0) eqn:Ecz; destruct (s <? 0) eqn:Esz.
  all: try (destruct (Hsv ltac:(lia)) as [sv Esv]; rewrite Esv).
  all: cbn [of_option mbind Res_bind il_stride il_index
            il_sizeArgs il_strideArgs fmap list_fmap].
  all: rewrite ?Hss, ?Esv, ?app_nil_r; reflexivity.
Qed.

Lemma to_int32_id (x : Z) : -2147483648 <= x < 2147483648 -> to_int32 x = x.
Proof.
  intros H. unfold to_int32.
  rewrite Z.mod_small by lia. lia.
Qed.

Lemma to_int32_range (x : Z) : -2147483648 <= to_int32 x < 2147483648.
Proof.
  unfold to_int32.
  pose proof (Z.mod_pos_bound (x + 2147483648) 4294967296 ltac:(lia)). lia.
Qed.


Lemma createInputIndexExpr_closed_form (buffer : Buffer) (axes : list Expr)
    (sizes strides contiguity : list Z) (sizeVars : gmap Z Expr) :
  length strides = length axes ->
  length sizes = length axes ->
  length contiguity = length axes ->
  sizes_bound sizes sizeVars ->
  let n := (length axes - 1)%nat in
  createInputIndexExpr buffer axes sizes strides contiguity sizeVars =
    Ok (Load (buf_name buffer) (buf_dtype buffer)
          (index_after buffer axes sizes contiguity sizeVars (length axes)),
        mkKernelArg (mkBufferArg (buf_name buffer) (buf_dtype buffer) false)
          (sizeArgs_after n sizes sizeVars (length axes))
          (strideArgs_after buffer n contiguity (length axes))).
Proof.
  intros Hst Hs Hc Hb n. unfold createInputIndexExpr.
  rewrite bool_decide_true by congruence. cbn [negb].
  rewrite (index_loop_invariant buffer axes sizes contiguity sizeVars (length axes))
    by (auto; lia).
  reflexivity.
Qed.


Lemma bindInput_tensor_dims (k k' : TensorExprKernel) (input : Value)
    (st : option ScalarType) (sizes strides contiguity : list Z) :
  type input = TensorType st sizes strides contiguity ->
  tensors_ k !! unique input = None ->
  bindInput k input = Ok k' ->
  dims <$> (tensors_ k' !! unique input) = Some (bind_dims (unique input) sizes).2.
Proof.
  intros Hty Hfresh. unfold bindInput. rewrite Hty.
  destruct (texprType st) as [dt|]; cbn [mbind Res_bind]; [|discriminate].
  destruct (bind_dims (unique input) sizes) as [sizeVars inputTensorDims].
  destruct (createInputIndexExpr _ _ _ _ _ _) as [[b karg]|]; cbn [mbind Res_bind];
    [|discriminate].
  intros [= <-]. cbn [tensors_]. unfold emplace. rewrite Hfresh.
  rewrite lookup_insert_eq. reflexivity.
Qed.



(** ** Conversion of integers to binary32 *)

Lemma digits2_pos_bounds (p : positive) :
  2 ^ (Zpos (digits2_pos p) - 1) <= Zpos p < 2 ^ Zpos (digits2_pos p).
Proof.
  induction p as [p IH|p IH|]; cbn [digits2_pos].
  - rewrite Pos2Z.inj_succ.
    replace (Z.succ (Zpos (digits2_pos p)) - 1) with (Z.succ (Zpos (digits2_pos p) - 1)) by lia.
    rewrite !Z.pow_succ_r by lia. lia.
  - rewrite Pos2Z.inj_succ.
    replace (Z.succ (Zpos (digits2_pos p)) - 1) with (Z.succ (Zpos (digits2_pos p) - 1)) by lia.
    rewrite !Z.pow_succ_r by lia. lia.
  - simpl. lia.
Qed.

Lemma shr_1_m (r : shr_record) :
  0 <= shr_m r -> shr_m (shr_1 r) = shr_m r / 2.
Proof.
  destruct r as [m rb sb]. cbn [shr_m shr_1]. intros Hm.
  destruct m as [|[p|p|]|p]; cbn [shr_m]; try lia.
  - reflexivity.
  - rewrite Pos2Z.inj_xI. apply Z.div_unique with (r := 1); lia.
  - rewrite Pos2Z.inj_xO. apply Z.div_unique with (r := 0); lia.
  - reflexivity.
Qed.

Lemma iter_shr_1_m (k : positive) (r : shr_record) :
  0 <= shr_m r -> shr_m (SpecFloat.iter_pos shr_1 k r) = shr_m r / 2 ^ Zpos k.
Proof.
  revert r. induction k as [k IH|k IH|]; intros r Hr; cbn [SpecFloat.iter_pos].
  - assert (H1 : 0 <= shr_m (shr_1 r))
      by (rewrite shr_1_m by assumption; apply Z.div_pos; lia).
    assert (H2 : 0 <= shr_m (SpecFloat.iter_pos shr_1 k (shr_1 r)))
      by (rewrite IH by assumption; apply Z.div_pos; lia).
    rewrite IH, IH, shr_1_m by assumption.
    rewrite !Z.div_div by lia.
    f_equal. rewrite Pos2Z.inj_xI.
    replace (2 * Zpos k + 1) with (1 + Zpos k + Zpos k) by lia.
    rewrite !Z.pow_add_r by lia. lia.
  - assert (H2 : 0 <= shr_m (SpecFloat.iter_pos shr_1 k r))
      by (rewrite IH by assumption; apply Z.div_pos; lia).
    rewrite IH, IH by assumption.
    rewrite !Z.div_div by lia.
    f_equal. rewrite <- Z.pow_add_r by lia. f_equal. lia.
  - rewrite shr_1_m by assumption. reflexivity.
Qed.

(** A shift to the binary32 precision keeps a positive mantissa positive
    and does not lower the exponent. *)
Lemma shr_fexp_pos (m : positive) (e : Z) (l : location) :
  -20 <= e ->
  1 <= shr_m (shr_fexp 24 128 (Zpos m) e l).1 /\ e <= (shr_fexp 24 128 (Zpos m) e l).2.
Proof.
  intros He. unfold shr_fexp, fexp, emin. cbn [Zdigits2].
  pose proof (digits2_pos_bounds m) as [Hlo Hhi].
  set (d := Zpos (digits2_pos m)) in *.
  assert (Hd : 1 <= d) by (unfold d; lia).
  replace (Z.max (d + e - 24) (3 - 128 - 24) - e) with (d - 24) by lia.
  assert (Hrec : shr_m (shr_record_of_loc (Zpos m) l) = Zpos m)
    by (destruct l as [|[| |]]; reflexivity).
  unfold shr. destruct (d - 24) as [|k|k] eqn:Ek; cbn [fst snd].
  - rewrite Hrec. lia.
  - rewrite iter_shr_1_m by (rewrite Hrec; lia). rewrite Hrec. split; [|lia].
    apply Z.div_le_lower_bound; [lia|].
    rewrite Z.mul_1_r. etransitivity; [|exact Hlo].
    apply Z.pow_le_mono_r; lia.
  - rewrite Hrec. lia.
Qed.

Lemma round_nearest_even_ge (m : Z) (l : location) :
  m <= round_nearest_even m l.
Proof.
  destruct l as [|[| |]]; cbn [round_nearest_even]; try lia.
  destruct (Z.even m); lia.
Qed.

Lemma binary_round_aux_pos (s : bool) (m : positive) (e : Z) :
  -20 <= e ->
  binary_round_aux 24 128 s (Zpos m) e loc_Exact = S754_infinity s \/
  exists m' e', binary_round_aux 24 128 s (Zpos m) e loc_Exact = S754_finite s m' e' /\ e <= e'.
Proof.
  intros He. unfold binary_round_aux.
  pose proof (shr_fexp_pos m e loc_Exact He) as [H1 H2].
  destruct (shr_fexp 24 128 (Zpos m) e loc_Exact) as [mrs' e'] eqn:E1.
  cbn [fst snd] in H1, H2.
  pose proof (round_nearest_even_ge (shr_m mrs') (loc_of_shr_record mrs')) as Hr.
  destruct (round_nearest_even (shr_m mrs') (loc_of_shr_record mrs')) as [|mr|mr] eqn:Er;
    try lia.
  pose proof (shr_fexp_pos mr e' loc_Exact ltac:(lia)) as [H3 H4].
  destruct (shr_fexp 24 128 (Zpos mr) e' loc_Exact) as [mrs'' e''] eqn:E2.
  cbn [fst snd] in H3, H4.
  destruct (shr_m mrs'') as [|m''|m'']; try lia.
  destruct (e'' <=? 128 - 24); [right|left; reflexivity].
  exists m'', e''. split; [reflexivity|lia].
Qed.

Lemma binary_round_int (s : bool) (p : positive) :
  8 <= Zpos p ->
  binary_round 24 128 s p 0 = S754_infinity s \/
  exists m' e', binary_round 24 128 s p 0 = S754_finite s m' e' /\ -20 <= e'.
Proof.
  intros Hp. unfold binary_round, shl_align, fexp, emin.
  pose proof (digits2_pos_bounds p) as [Hlo Hhi].
  set (d := Zpos (digits2_pos p)) in *.
  assert (Hd : 4 <= d).
  { destruct (Z.le_gt_cases 4 d) as [|Hlt]; [assumption|].
    assert (2 ^ d <= 2 ^ 3) by (apply Z.pow_le_mono_r; lia).
    change (2 ^ 3) with 8 in *. lia. }
  replace (Z.max (d + 0 - 24) (3 - 128 - 24) - 0) with (d - 24) by lia.
  replace (Z.max (d + 0 - 24) (3 - 128 - 24)) with (d - 24) by lia.
  destruct (d - 24) as [|k|k] eqn:Ek.
  - destruct (binary_round_aux_pos s p 0 ltac:(lia)) as [H|(m' & e' & H & He)];
      [left; exact H | right; exists m', e'; split; [exact H | lia]].
  - destruct (binary_round_aux_pos s p 0 ltac:(lia)) as [H|(m' & e' & H & He)];
      [left; exact H | right; exists m', e'; split; [exact H | lia]].
  - destruct (binary_round_aux_pos s (Pos.iter xO p k) (Zneg k) ltac:(lia))
      as [H|(m' & e' & H & He)];
      [left; exact H | right; exists m', e'; split; [exact H | lia]].
Qed.

Lemma float_eq_large_small (x c : float32) :
  small_float c ->
  (exists s, x = S754_infinity s) \/ (exists s m e, x = S754_finite s m e /\ -20 <= e) ->
  float_eq x c = false.
Proof.
  intros Hc [[s ->]|(s & m & e & -> & He)]; unfold float_eq, SFeqb, SFcompare.
  - destruct c as [sc|sc| |sc mc ec]; cbn in Hc; try contradiction; destruct s; reflexivity.
  - destruct c as [sc|sc| |sc mc ec]; cbn in Hc; try contradiction.
    + destruct s; reflexivity.
    + assert (Hcmp : (e ?= ec) = Gt) by (apply Z.compare_gt_iff; lia).
      rewrite Hcmp. destruct s, sc; reflexivity.
Qed.

Lemma int_to_float_large (n : Z) :
  8 <= Z.abs n ->
  (exists s, int_to_float n = S754_infinity s) \/
  (exists s m e, int_to_float n = S754_finite s m e /\ -20 <= e).
Proof.
  intros Hn. unfold int_to_float, f32, binary_normalize.
  destruct n as [|p|p]; [cbn in Hn; lia| |].
  - destruct (binary_round_int false p ltac:(lia)) as [H|(m & e & H & He)];
      rewrite H; [left; eauto | right; eauto 6].
  - destruct (binary_round_int true p ltac:(lia)) as [H|(m & e & H & He)];
      rewrite H; [left; eauto | right; eauto 6].
Qed.

(** The comparison of a converted integer with a converted small constant
    is the comparison of the integers. *)
Lemma int_to_float_eq_small (n k : Z) :
  k ∈ pow_int_exponents ->
  float_eq (int_to_float n) (int_to_float k) = (n =? k).
Proof.
  intros Hk.
  destruct (Z.le_gt_cases 8 (Z.abs n)) as [Hbig|Hsmall].
  - replace (n =? k) with false.
    + apply float_eq_large_small; [|apply int_to_float_large; exact Hbig].
      unfold pow_int_exponents in Hk.
      repeat (apply elem_of_cons in Hk as [->|Hk]);
        try (vm_compute; first [exact I | reflexivity]).
      inversion Hk.
    + symmetry. apply Z.eqb_neq. intros ->. unfold pow_int_exponents in Hk.
      repeat (apply elem_of_cons in Hk as [->|Hk]); try (cbn in Hbig; lia).
      inversion Hk.
  - assert (Hcases : n = -7 \/ n = -6 \/ n = -5 \/ n = -4 \/ n = -3 \/ n = -2 \/
                     n = -1 \/ n = 0 \/ n = 1 \/ n = 2 \/ n = 3 \/ n = 4 \/
                     n = 5 \/ n = 6 \/ n = 7) by lia.
    unfold pow_int_exponents in Hk.
    repeat (apply elem_of_cons in Hk as [->|Hk]); [..|inversion Hk].
    all: repeat (destruct Hcases as [->|Hcases]); subst; reflexivity.
Qed.

(** ** Lowering through the N-operand combinators *)

Lemma demoteOutput_demoted (e : Expr) (v : Value) (st : option ScalarType)
    (sizes strides contiguity : list Z) :
  type v = TensorType st sizes strides contiguity ->
  demoteOutput e v = Ok (demoted st e).
Proof.
  intros Hty. unfold demoteOutput, demoted. rewrite Hty.
  destruct (decide (dtype e = kFloat32)) as [H1|H1];
    destruct (decide (st = Some ST_Int)) as [H2|H2].
  - rewrite !bool_decide_true by auto. reflexivity.
  - rewrite (bool_decide_false (st = _)), (bool_decide_false (_ /\ _)) by tauto.
    rewrite andb_false_r. reflexivity.
  - rewrite (bool_decide_false (dtype e = _)), (bool_decide_false (_ /\ _)) by tauto.
    reflexivity.
  - rewrite (bool_decide_false (dtype e = _)), (bool_decide_false (_ /\ _)) by tauto.
    reflexivity.
Qed.

Lemma operand_input (v : Value) (ops : list Value) (i : nat) (o : Value) :
  take (length ops) (inputs (node v)) = ops ->
  ops !! i = Some o ->
  input (node v) i = Ok o.
Proof.
  intros Ht Ho. unfold input.
  assert (Hi : (i < length ops)%nat) by (eapply lookup_lt_Some; exact Ho).
  rewrite <- (lookup_take_lt _ (length ops)) by exact Hi. rewrite Ht, Ho. reflexivity.
Qed.

Lemma Compute_lowering (k : TensorExprKernel) (v : Value) (name : string)
    (shape : list Expr) (operands : list Value) (template : list Expr -> Expr)
    (ins : list Expr) (st : option ScalarType) (sizes strides contiguity : list Z) :
  type v = TensorType st sizes strides contiguity ->
  mapM (fun o => tensorOrConstant k o (axis_vars (length shape))) operands = Ok ins ->
  Compute name shape (compute_body k v operands template) =
    Ok (mkTensor name shape (axis_vars (length shape))
          (demoted st (template (promoteInputs ins)))).
Proof.
  intros Hty Hr. unfold Compute, compute_body. rewrite Hr. cbn [mbind Res_bind].
  rewrite (demoteOutput_demoted _ v st sizes strides contiguity Hty). reflexivity.
Qed.

Lemma ComputeN_lowering (k : TensorExprKernel) (name : string) (v : Value) (T : Template)
    (ops : list Value) (ins : list Expr) (st : option ScalarType)
    (sizes strides contiguity : list Z) :
  length ops = operand_count T ->
  take (operand_count T) (inputs (node v)) = ops ->
  type v = TensorType st sizes strides contiguity ->
  let shape := broadcast_all (valueShape (tensors_ k) <$> take (shape_count T) ops) in
  mapM (fun o => tensorOrConstant k o (axis_vars (length shape))) ops = Ok ins ->
  ComputeN k name v T =
    Ok (mkTensor name shape (axis_vars (length shape))
          (demoted st (apply_template T (promoteInputs ins)))).
Proof.
  intros Hlen Htake Hty shape Hr. subst shape. rewrite <- Hlen in Htake.
  destruct T as [f|f|f|f|f]; cbn [operand_count shape_count] in *;
    destruct ops as [|o0 [|o1 [|o2 [|o3 [|o4 ops]]]]]; try discriminate Hlen;
    cbn [ComputeN apply_template take fmap list_fmap broadcast_all] in *.
  - unfold ComputeOneOperand.
    rewrite (operand_input v [o0] 0 o0 Htake eq_refl). cbn [mbind Res_bind].
    exact (Compute_lowering k v name _ [o0] (fun inputs => f (inputs !!! 0%nat))
             ins st sizes strides contiguity Hty Hr).
  - unfold ComputeTwoOperand.
    rewrite (operand_input v [o0; o1] 0 o0 Htake eq_refl),
      (operand_input v [o0; o1] 1 o1 Htake eq_refl). cbn [mbind Res_bind].
    exact (Compute_lowering k v name _ [o0; o1]
             (fun inputs => f (inputs !!! 0%nat) (inputs !!! 1%nat))
             ins st sizes strides contiguity Hty Hr).
  - unfold ComputeTwoOperandWithAlpha.
    rewrite (operand_input v [o0; o1; o2] 0 o0 Htake eq_refl),
      (operand_input v [o0; o1; o2] 1 o1 Htake eq_refl),
      (operand_input v [o0; o1; o2] 2 o2 Htake eq_refl). cbn [mbind Res_bind].
    exact (Compute_lowering k v name _ [o0; o1; o2]
             (fun inputs => f (inputs !!! 0%nat) (Mul (inputs !!! 2%nat) (inputs !!! 1%nat)))
             ins st sizes strides contiguity Hty Hr).
  - unfold ComputeThreeOperand.
    rewrite (operand_input v [o0; o1; o2] 0 o0 Htake eq_refl),
      (operand_input v [o0; o1; o2] 1 o1 Htake eq_refl),
      (operand_input v [o0; o1; o2] 2 o2 Htake eq_refl). cbn [mbind Res_bind].
    exact (Compute_lowering k v name _ [o0; o1; o2]
             (fun inputs => f (inputs !!! 0%nat) (inputs !!! 1%nat) (inputs !!! 2%nat))
             ins st sizes strides contiguity Hty Hr).
  - unfold ComputeFourOperand.
    rewrite (operand_input v [o0; o1; o2; o3] 0 o0 Htake eq_refl),
      (operand_input v [o0; o1; o2; o3] 1 o1 Htake eq_refl),
      (operand_input v [o0; o1; o2; o3] 2 o2 Htake eq_refl),
      (operand_input v [o0; o1; o2; o3] 3 o3 Htake eq_refl). cbn [mbind Res_bind].
    exact (Compute_lowering k v name _ [o0; o1; o2; o3]
             (fun inputs => f (inputs !!! 0%nat) (inputs !!! 1%nat) (inputs !!! 2%nat)
                              (inputs !!! 3%nat))
             ins st sizes strides contiguity Hty Hr).
Qed.

Lemma read_constant (k : TensorExprKernel) (c : Value) (axes : list Expr) (val : IValue) :
  tensors_ k !! unique c = None ->
  kind (node c) = prim_Constant ->
  attr_value (node c) = Some val ->
  tensorOrConstant k c axes =
    match val with
    | IV_Double d => Ok (FloatImm (double_to_float d))
    | IV_Int i => Ok (IntImm (to_int32 i))
    | IV_None => Ok (IntImm 0)
    | _ => Err (Fatal "Unhandled constant datatype")
    end.
Proof.
  intros Ht Hk Hv. unfold tensorOrConstant, constant, toIValue. rewrite Ht.
  destruct (decide (kind (node c) = prim_Constant)); [|contradiction].
  rewrite Hv. destruct val; reflexivity.
Qed.

Lemma mapM_cons_Ok {A B} (f : A -> Res B) (x : A) (l : list A) (y : B) (l' : list B) :
  f x = Ok y -> mapM f l = Ok l' -> mapM f (x :: l) = Ok (y :: l').
Proof. intros Hx Hl. cbn. rewrite Hx. cbn. rewrite Hl. reflexivity. Qed.

(** ** Lowering of [aten::pow] *)

Lemma aten_pow_inner_cast_int (x : Expr) (dt : Dtype) (n : Z) :
  aten_pow_inner x (Cast dt (IntImm n)) = pow_int_case x n (Cast dt (IntImm n)).
Proof.
  unfold aten_pow_inner, pow_float_imm, pow_cast_imm, pow_int_case.
  cbn [AsNode_FloatImm AsNode_Cast AsNode_IntImm].
  rewrite !int_to_float_eq_small by (unfold pow_int_exponents; repeat constructor).
  repeat (destruct (n =? _); [reflexivity|]). reflexivity.
Qed.

Lemma aten_pow_inner_float_fallback (x : Expr) (f : float32) :
  Forall (fun c => float_eq f c = false) pow_float_literals ->
  aten_pow_inner x (FloatImm f) = intrinsic2 kPow x (FloatImm f).
Proof.
  unfold pow_float_literals. intros H.
  repeat (apply Forall_cons in H as [?E H]).
  unfold aten_pow_inner, pow_float_imm, pow_cast_imm.
  cbn [AsNode_FloatImm AsNode_Cast].
  rewrite E, E0, E1, E2, E3, E4, E5, E6, E7. reflexivity.
Qed.

Lemma aten_pow_inner_non_literal (x rhs : Expr) :
  AsNode_FloatImm rhs = None ->
  (forall src, AsNode_Cast rhs = Some src -> AsNode_IntImm src = None) ->
  aten_pow_inner x rhs = intrinsic2 kPow x rhs.
Proof.
  intros Hf Hc. unfold aten_pow_inner, pow_float_imm, pow_cast_imm. rewrite Hf.
  destruct (AsNode_Cast rhs) as [src|]; [|reflexivity].
  rewrite (Hc src eq_refl). reflexivity.
Qed.

Lemma promoteInputs_float_literal (a : Expr) (f : float32) :
  promoteInputs [a; FloatImm f] = [promote_one a; FloatImm f].
Proof.
  unfold promoteInputs, promote_one. cbn [existsb dtype].
  rewrite (bool_decide_true (kFloat32 = kFloat32)) by reflexivity.
  cbn [orb]. rewrite orb_true_r. cbn [negb fmap list_fmap].
  destruct (decide (kFloat32 = kInt32)); [discriminate|reflexivity].
Qed.

Lemma promoteInputs_entry (inputs : list Expr) (i : nat) (e : Expr) :
  inputs !! i = Some e ->
  promoteInputs inputs !!! i = e \/ promoteInputs inputs !!! i = Cast kFloat32 e.
Proof.
  intros He. unfold promoteInputs. destruct (negb _).
  - left. apply list_lookup_total_correct, He.
  - rewrite (list_lookup_total_correct _ i
               (if decide (dtype e = kInt32) then Cast kFloat32 e else e))
      by (rewrite list_lookup_fmap, He; reflexivity).
    destruct (decide _); auto.
Qed.

Lemma pow_literal_table_correct (b : Expr) (d : float64) (e : Expr) :
  (d, e) ∈ pow_literal_table b ->
  aten_pow_inner b (FloatImm (double_to_float d)) = e.
Proof.
  unfold pow_literal_table. intros Hin.
  repeat (apply elem_of_cons in Hin as [[= -> ->]|Hin]; [reflexivity|]).
  inversion Hin.
Qed.

Lemma pow_lowering (chunk : Tensor -> nat -> Z -> Z -> list Expr -> Res Expr)
    (k : TensorExprKernel) (v x c : Value) (a r : Expr) (st : option ScalarType)
    (sizes strides contiguity : list Z) :
  kind (node v) = aten_pow ->
  take 2 (inputs (node v)) = [x; c] ->
  type v = TensorType st sizes strides contiguity ->
  let shape := broadcastShapes (valueShape (tensors_ k) x) (valueShape (tensors_ k) c) in
  tensorOrConstant k x (axis_vars (length shape)) = Ok a ->
  tensorOrConstant k c (axis_vars (length shape)) = Ok r ->
  ComputeValue chunk k v =
    Ok (mkTensor "aten_pow" shape (axis_vars (length shape))
          (demoted st (aten_pow_inner (promoteInputs [a; r] !!! 0%nat)
                                      (promoteInputs [a; r] !!! 1%nat)))).
Proof.
  intros Hk Hin Hty shape Ha Hr. unfold ComputeValue. rewrite Hk.
  apply (ComputeN_lowering k "aten_pow" v (TwoOperand aten_pow_inner) [x; c] [a; r]
           st sizes strides contiguity); try assumption; try reflexivity.
  apply mapM_cons_Ok; [exact Ha|]. apply mapM_cons_Ok; [exact Hr | reflexivity].
Qed.

(** C3.  The lowering of an [aten::pow] node builds the tensor
    ["aten_pow"] over the broadcast shape of its two operands whose element
    is the template of [aten::pow] at the promoted reads of the operands
    (demoted for a declared integer type), and the template is
    strength-reduced on a literal exponent.  For an exponent that is a
    [double] constant of the graph, the element is, with [x] the (promoted)
    read of the base: [x], [x*x], [(x*x)*x], [(x*x)*(x*x)] for 1, 2, 3, 4
    (for 2.0 without any call of the power intrinsic that [x] does not
    already contain); [sqrt(x)] for 0.5, [rsqrt(x)] for -0.5, the constant 1
    for 0, [1/x] and [1/(x*x)] for -1 and -2.  An integer constant next to a
    float base is cast by the promotion and lowered by its value in the
    same way (no fractional cases); next to an integer base it is not cast
    and not recognised.  The float-literal cases come first: when they give
    a result, it is the result.  Every other exponent -- a float literal that
    equals none of the nine (as 2.7), an integer literal under a cast that
    is none of the seven, an exponent that is no literal -- is lowered to
    the general power intrinsic. *)
Theorem aten_pow_strength_reduction :
  (forall chunk k v x c a r st sizes strides contiguity,
     kind (node v) = aten_pow ->
     take 2 (inputs (node v)) = [x; c] ->
     type v = TensorType st sizes strides contiguity ->
     let shape := broadcastShapes (valueShape (tensors_ k) x) (valueShape (tensors_ k) c) in
     tensorOrConstant k x (axis_vars (length shape)) = Ok a ->
     tensorOrConstant k c (axis_vars (length shape)) = Ok r ->
     ComputeValue chunk k v =
       Ok (mkTensor "aten_pow" shape (axis_vars (length shape))
             (demoted st (aten_pow_inner (promoteInputs [a; r] !!! 0%nat)
                                         (promoteInputs [a; r] !!! 1%nat)))) /\
     (AsNode_FloatImm r = None -> AsNode_IntImm r = None ->
      (forall src, AsNode_Cast r = Some src -> AsNode_IntImm src = None) ->
      ComputeValue chunk k v =
        Ok (mkTensor "aten_pow" shape (axis_vars (length shape))
              (demoted st (intrinsic2 kPow (promoteInputs [a; r] !!! 0%nat)
                                           (promoteInputs [a; r] !!! 1%nat)))))) /\
  (forall chunk k v x c a st sizes strides contiguity,
     kind (node v) = aten_pow ->
     take 2 (inputs (node v)) = [x; c] ->
     type v = TensorType st sizes strides contiguity ->
     kind (node c) = prim_Constant ->
     tensors_ k !! unique c = None ->
     let shape := broadcastShapes (valueShape (tensors_ k) x) [IntImm 1] in
     tensorOrConstant k x (axis_vars (length shape)) = Ok a ->
     (forall d e,
        attr_value (node c) = Some (IV_Double d) ->
        (d, e) ∈ pow_literal_table (promote_one a) ->
        ComputeValue chunk k v =
          Ok (mkTensor "aten_pow" shape (axis_vars (length shape)) (demoted st e))) /\
     (forall n,
        attr_value (node c) = Some (IV_Int n) ->
        dtype a = kFloat32 ->
        ComputeValue chunk k v =
          Ok (mkTensor "aten_pow" shape (axis_vars (length shape))
                (demoted st (pow_int_case a (to_int32 n)
                               (Cast kFloat32 (IntImm (to_int32 n))))))) /\
     (forall n,
        attr_value (node c) = Some (IV_Int n) ->
        dtype a = kInt32 ->
        ComputeValue chunk k v =
          Ok (mkTensor "aten_pow" shape (axis_vars (length shape))
                (demoted st (intrinsic2 kPow a (IntImm (to_int32 n))))))) /\
  ((forall env, eval_load env ex_read_x = Some ("tx", env "i0")) /\
   has_intrinsic kPow ex_read_x = false /\
   (forall d e,
      (d, e) ∈ pow_literal_table ex_read_x ->
      exists k,
        new_kernel chunk_unavailable (ex_pow_graph (IV_Double d)) = Ok k /\
        tensor_outputs_ k =
          [mkTensor "aten_pow" [IntImm 8] (axis_vars 1) e]) /\
   has_intrinsic kPow (Mul ex_read_x ex_read_x) = false /\
   (exists k,
      new_kernel chunk_unavailable (ex_pow_graph (IV_Int 3)) = Ok k /\
      tensor_outputs_ k =
        [mkTensor "aten_pow" [IntImm 8] (axis_vars 1)
           (Mul (Mul ex_read_x ex_read_x) ex_read_x)])) /\
  (forall x : Expr,
     aten_pow_inner x (FloatImm f_1_0) = x /\
     aten_pow_inner x (FloatImm f_2_0) = Mul x x /\
     has_intrinsic kPow (aten_pow_inner x (FloatImm f_2_0)) = has_intrinsic kPow x /\
     aten_pow_inner x (FloatImm f_3_0) = Mul (Mul x x) x /\
     aten_pow_inner x (FloatImm f_4_0) = Mul (Mul x x) (Mul x x) /\
     aten_pow_inner x (FloatImm f_0_5) = intrinsic1 kSqrt x /\
     aten_pow_inner x (FloatImm f_0_0) = FloatImm f_1_0 /\
     aten_pow_inner x (FloatImm f_m0_5) = intrinsic1 kRsqrt x /\
     aten_pow_inner x (FloatImm f_m1_0) = Div (FloatImm f_1_0) x /\
     aten_pow_inner x (FloatImm f_m2_0) = Div (FloatImm f_1_0) (Mul x x)) /\
  (forall (x : Expr) (dt : Dtype) (n : Z),
     aten_pow_inner x (Cast dt (IntImm n)) = pow_int_case x n (Cast dt (IntImm n))) /\
  (forall (x : Expr) (n : Z),
     dtype x = kFloat32 ->
     let inputs := promoteInputs [x; IntImm n] in
     aten_pow_inner (inputs !!! 0%nat) (inputs !!! 1%nat) =
       pow_int_case x n (Cast kFloat32 (IntImm n))) /\
  (forall x rhs e : Expr, pow_float_imm x rhs = Some e -> aten_pow_inner x rhs = e) /\
  (forall (x : Expr) (f : float32),
     Forall (fun c => float_eq f c = false) pow_float_literals ->
     aten_pow_inner x (FloatImm f) = intrinsic2 kPow x (FloatImm f)) /\
  (double_to_float d_2_7 = f_2_7 /\
   forall x : Expr, aten_pow_inner x (FloatImm f_2_7) = intrinsic2 kPow x (FloatImm f_2_7)) /\
  (forall x rhs : Expr,
     AsNode_FloatImm rhs = None ->
     (forall src, AsNode_Cast rhs = Some src -> AsNode_IntImm src = None) ->
     aten_pow_inner x rhs = intrinsic2 kPow x rhs).
Proof.
  assert (Hint : forall (x : Expr) (n : Z),
     dtype x = kFloat32 ->
     promoteInputs [x; IntImm n] = [x; Cast kFloat32 (IntImm n)]).
  { intros x n Hx. unfold promoteInputs. cbn [existsb dtype].
    rewrite bool_decide_true by exact Hx. cbn [orb negb fmap list_fmap].
    destruct (decide (dtype x = kInt32)) as [H|_]; [congruence|].
    destruct (decide (kInt32 = kInt32)) as [_|H]; [reflexivity|contradiction]. }
  split.
  { intros chunk k v x c a r st sizes strides contiguity Hk Hin Hty shape Ha Hr.
    pose proof (pow_lowering chunk k v x c a r st sizes strides contiguity
                  Hk Hin Hty Ha Hr) as E.
    split; [exact E|]. intros Hf Hi Hc. rewrite E. do 3 f_equal.
    apply aten_pow_inner_non_literal.
    - destruct (promoteInputs_entry [a; r] 1 r eq_refl) as [-> | ->];
        [exact Hf | reflexivity].
    - intros src. destruct (promoteInputs_entry [a; r] 1 r eq_refl) as [-> | ->];
        [apply Hc | intros [= <-]; exact Hi]. }
  split.
  { intros chunk k v x c a st sizes strides contiguity Hk Hin Hty Hc Ht shape Ha.
    assert (Hshape : broadcastShapes (valueShape (tensors_ k) x) (valueShape (tensors_ k) c)
                     = shape).
    { unfold shape, valueShape at 2. rewrite Ht. reflexivity. }
    assert (Hlow : forall val r,
              attr_value (node c) = Some val ->
              tensorOrConstant k c (axis_vars (length shape)) = Ok r ->
              ComputeValue chunk k v =
                Ok (mkTensor "aten_pow" shape (axis_vars (length shape))
                      (demoted st (aten_pow_inner (promoteInputs [a; r] !!! 0%nat)
                                                  (promoteInputs [a; r] !!! 1%nat))))).
    { intros val r Hv Hr.
      pose proof (pow_lowering chunk k v x c a r st sizes strides contiguity Hk Hin Hty)
        as E. cbv zeta in E. rewrite Hshape in E. apply E; assumption. }
    split; [|split].
    - intros d e Hv He.
      rewrite (Hlow (IV_Double d) (FloatImm (double_to_float d)) Hv)
        by (rewrite (read_constant k c _ (IV_Double d)) by assumption; reflexivity).
      rewrite promoteInputs_float_literal.
      cbn [lookup_total list_lookup_total]. do 3 f_equal.
      apply pow_literal_table_correct, He.
    - intros n Hv Hd.
      rewrite (Hlow (IV_Int n) (IntImm (to_int32 n)) Hv)
        by (rewrite (read_constant k c _ (IV_Int n)) by assumption; reflexivity).
      rewrite (Hint a (to_int32 n) Hd). cbn [lookup_total list_lookup_total].
      do 3 f_equal. apply aten_pow_inner_cast_int.
    - intros n Hv Hd.
      rewrite (Hlow (IV_Int n) (IntImm (to_int32 n)) Hv)
        by (rewrite (read_constant k c _ (IV_Int n)) by assumption; reflexivity).
      assert (Hp : promoteInputs [a; IntImm (to_int32 n)] = [a; IntImm (to_int32 n)]).
      { unfold promoteInputs. cbn [existsb dtype].
        rewrite !bool_decide_false by congruence. reflexivity. }
      rewrite Hp. cbn [lookup_total list_lookup_total]. reflexivity. }
  split.
  { split.
    { intros env. let r := eval vm_compute in ex_read_x in change ex_read_x with r.
      cbn. f_equal. f_equal. lia. }
    split; [reflexivity|].
    split.
    - intros d e Hin. unfold pow_literal_table in Hin.
      repeat (apply elem_of_cons in Hin as [[= -> ->]|Hin];
              [eexists; split; vm_compute; reflexivity|]).
      inversion Hin.
    - split; [reflexivity|]. eexists; split; vm_compute; reflexivity. }
  split.
  { intros x. repeat split; try reflexivity.
    change (aten_pow_inner x (FloatImm f_2_0)) with (Mul x x).
    cbn [has_intrinsic]. apply orb_diag. }
  split; [exact aten_pow_inner_cast_int|].
  split.
  { intros x n Hx. cbv zeta. rewrite (Hint x n Hx). apply aten_pow_inner_cast_int. }
  split; [intros x rhs e H; unfold aten_pow_inner; rewrite H; reflexivity|].
  split; [exact aten_pow_inner_float_fallback|].
  split; [split; [reflexivity | intros x; reflexivity]|].
  exact aten_pow_inner_non_literal.
Qed.

Lemma aten_pow_strength_reduction_witness :
  (exists k,
     new_kernel chunk_unavailable (ex_pow_graph (IV_Double d_0_5)) = Ok k /\
     tensor_outputs_ k =
       [mkTensor "aten_pow" [IntImm 8] (axis_vars 1) (intrinsic1 kSqrt ex_read_x)]) /\
  aten_pow_inner (Var "x" kFloat32) (FloatImm f_2_7) =
    intrinsic2 kPow (Var "x" kFloat32) (FloatImm f_2_7) /\
  aten_pow_inner (Var "x" kFloat32) (Var "y" kFloat32) =
    intrinsic2 kPow (Var "x" kFloat32) (Var "y" kFloat32) /\
  aten_pow_inner (Var "x" kFloat32) (FloatImm f_0_5) = intrinsic1 kSqrt (Var "x" kFloat32).
Proof.
  destruct aten_pow_strength_reduction
    as (_ & _ & (_ & _ & Hex & _) & _ & _ & _ & Hfirst & Hfloat & _ & Hother).
  split; [|split; [|split]].
  - apply Hex. unfold pow_literal_table. do 4 apply list_elem_of_further.
    apply list_elem_of_here.
  - apply Hfloat. repeat constructor.
  - apply Hother; [reflexivity | intros src H; discriminate H].
  - apply Hfirst. reflexivity.
Defined.


(** ** Lowering of [aten::clamp] *)

Lemma operand_is_none_true (v : Value) (i : nat) :
  operand_is_none v i = Ok true <->
  exists o, inputs (node v) !! i = Some o /\
            kind (node o) = prim_Constant /\
            attr_value (node o) = Some IV_None.
Proof.
  unfold operand_is_none, input, toIValue. split.
  - destruct (inputs (node v) !! i) as [o|]; cbn; [|discriminate].
    destruct (decide (kind (node o) = prim_Constant)) as [Hk|Hk]; [|discriminate].
    destruct (attr_value (node o)) as [[]|] eqn:Ev; cbn; try discriminate.
    intros _. exists o. auto.
  - intros (o & -> & Hk & Hv). cbn.
    destruct (decide (kind (node o) = prim_Constant)); [|contradiction].
    rewrite Hv. reflexivity.
Qed.

Lemma promoteInputs_clamp_none (x : Expr) :
  promoteInputs [x; IntImm 0; IntImm 0] !!! 0%nat = x.
Proof.
  unfold promoteInputs. cbn [existsb dtype orb].
  destruct (bool_decide (dtype x = kFloat32)) eqn:E; cbn.
  - apply bool_decide_eq_true in E.
    destruct (decide (dtype x = kInt32)) as [H|H]; [congruence|reflexivity].
  - reflexivity.
Qed.

Lemma float_max_neg_infinity (y : float32) : float_max y neg_infinity = y.
Proof. destruct y as [s|s| |s m e]; try destruct s; reflexivity. Qed.

Lemma has_branch_demoted (st : option ScalarType) (e : Expr) :
  has_branch (demoted st e) = has_branch e.
Proof. unfold demoted. destruct (bool_decide _); reflexivity. Qed.

Lemma has_branch_promoted (inputs : list Expr) (i : nat) (e : Expr) :
  inputs !! i = Some e ->
  has_branch (promoteInputs inputs !!! i) = has_branch e.
Proof.
  intros He. destruct (promoteInputs_entry inputs i e He) as [-> | ->]; reflexivity.
Qed.

Lemma clamp_lowering (chunk : Tensor -> nat -> Z -> Z -> list Expr -> Res Expr)
    (k : TensorExprKernel) (v x lo hi : Value) (a m M : Expr) (no_min no_max : bool)
    (st : option ScalarType) (sizes strides contiguity : list Z) :
  kind (node v) = aten_clamp ->
  take 3 (inputs (node v)) = [x; lo; hi] ->
  type v = TensorType st sizes strides contiguity ->
  operand_is_none v 1 = Ok no_min ->
  operand_is_none v 2 = Ok no_max ->
  let shape :=
    broadcastShapesN (valueShape (tensors_ k) x) (valueShape (tensors_ k) lo)
      [valueShape (tensors_ k) hi] in
  tensorOrConstant k x (axis_vars (length shape)) = Ok a ->
  tensorOrConstant k lo (axis_vars (length shape)) = Ok m ->
  tensorOrConstant k hi (axis_vars (length shape)) = Ok M ->
  ComputeValue chunk k v =
    Ok (mkTensor "aten_clamp" shape (axis_vars (length shape))
          (demoted st (aten_clamp_inner no_min no_max
                         (promoteInputs [a; m; M] !!! 0%nat)
                         (promoteInputs [a; m; M] !!! 1%nat)
                         (promoteInputs [a; m; M] !!! 2%nat)))).
Proof.
  intros Hk Hin Hty Hmin Hmax shape Ha Hm HM. unfold ComputeValue.
  rewrite Hk, Hmin, Hmax. cbn [mbind Res_bind].
  apply (ComputeN_lowering k "aten_clamp" v (ThreeOperand (aten_clamp_inner no_min no_max))
           [x; lo; hi] [a; m; M] st sizes strides contiguity);
    try assumption; try reflexivity.
  apply mapM_cons_Ok; [exact Ha|]. apply mapM_cons_Ok; [exact Hm|].
  apply mapM_cons_Ok; [exact HM | reflexivity].
Qed.

(** C4.  The lowering of an [aten::clamp] node looks at the node's operands
    1 and 2: an operand counts as absent exactly when it is a constant whose
    value is None.  The form of the element is chosen by the two flags
    before any expression is built, and the tensor ["aten_clamp"] that the
    lowering builds has, over the promoted reads [x], [m], [M] of the
    operands: [x] itself when both are absent (the read of the input as it
    is, the absent operands being read as the constant 0); [min(x, M)] when
    the minimum is absent; [max(x, m)] when the maximum is absent;
    [max(min(x, M), m)] otherwise.  The element has no conditional that
    the reads do not have.  [min(x, M)] is what the two-sided form computes
    with the lower bound minus infinity, on floats, and with any lower
    bound that is not above it, on integers. *)
Theorem aten_clamp_specialization :
  (forall chunk k v x lo hi a m M no_min no_max st sizes strides contiguity,
     kind (node v) = aten_clamp ->
     take 3 (inputs (node v)) = [x; lo; hi] ->
     type v = TensorType st sizes strides contiguity ->
     operand_is_none v 1 = Ok no_min ->
     operand_is_none v 2 = Ok no_max ->
     let shape :=
       broadcastShapesN (valueShape (tensors_ k) x) (valueShape (tensors_ k) lo)
         [valueShape (tensors_ k) hi] in
     tensorOrConstant k x (axis_vars (length shape)) = Ok a ->
     tensorOrConstant k lo (axis_vars (length shape)) = Ok m ->
     tensorOrConstant k hi (axis_vars (length shape)) = Ok M ->
     let p := promoteInputs [a; m; M] in
     let element :=
       match no_min, no_max with
       | true, true => p !!! 0%nat
       | true, false => Min (p !!! 0%nat) (p !!! 2%nat) false
       | false, true => Max (p !!! 0%nat) (p !!! 1%nat) false
       | false, false => Max (Min (p !!! 0%nat) (p !!! 2%nat) false) (p !!! 1%nat) false
       end in
     ComputeValue chunk k v =
       Ok (mkTensor "aten_clamp" shape (axis_vars (length shape)) (demoted st element)) /\
     (has_branch a = false -> has_branch m = false -> has_branch M = false ->
      has_branch (demoted st element) = false)) /\
  (forall chunk k v x lo hi a st sizes strides contiguity,
     kind (node v) = aten_clamp ->
     take 3 (inputs (node v)) = [x; lo; hi] ->
     type v = TensorType st sizes strides contiguity ->
     kind (node lo) = prim_Constant -> attr_value (node lo) = Some IV_None ->
     kind (node hi) = prim_Constant -> attr_value (node hi) = Some IV_None ->
     tensors_ k !! unique lo = None -> tensors_ k !! unique hi = None ->
     let shape := broadcastShapesN (valueShape (tensors_ k) x) [IntImm 1] [[IntImm 1]] in
     tensorOrConstant k x (axis_vars (length shape)) = Ok a ->
     ComputeValue chunk k v =
       Ok (mkTensor "aten_clamp" shape (axis_vars (length shape)) (demoted st a))) /\
  (forall (v : Value) (i : nat),
     operand_is_none v i = Ok true <->
     exists o, inputs (node v) !! i = Some o /\
               kind (node o) = prim_Constant /\
               attr_value (node o) = Some IV_None) /\
  (forall x m M : Expr,
     aten_clamp_inner true true x m M = x /\
     aten_clamp_inner true false x m M = Min x M false /\
     aten_clamp_inner false true x m M = Max x m false /\
     aten_clamp_inner false false x m M = Max (Min x M false) m false) /\
  (forall x : Expr,
     aten_clamp_inner true true (promoteInputs [x; IntImm 0; IntImm 0] !!! 0%nat)
       (promoteInputs [x; IntImm 0; IntImm 0] !!! 1%nat)
       (promoteInputs [x; IntImm 0; IntImm 0] !!! 2%nat) = x) /\
  (forall (no_min no_max : bool) (x m M : Expr),
     has_branch x = false -> has_branch m = false -> has_branch M = false ->
     has_branch (aten_clamp_inner no_min no_max x m M) = false) /\
  (forall (leaf : Expr -> option float32) (x m M : Expr) (vx vM : float32),
     eval_float leaf x = Some vx -> eval_float leaf M = Some vM ->
     eval_float leaf (aten_clamp_inner true false x m M) = Some (float_min vx vM) /\
     eval_float leaf (aten_clamp_inner false false x (FloatImm neg_infinity) M) =
       eval_float leaf (aten_clamp_inner true false x m M)) /\
  (forall (env : string -> Z) (x m M : Expr) (vx vm vM : Z),
     eval_int env x = Some vx -> eval_int env m = Some vm -> eval_int env M = Some vM ->
     eval_int env (aten_clamp_inner true false x m M) = Some (Z.min vx vM) /\
     eval_int env (aten_clamp_inner false true x m M) = Some (Z.max vx vm) /\
     (vm <= Z.min vx vM ->
      eval_int env (aten_clamp_inner false false x m M) =
        eval_int env (aten_clamp_inner true false x m M))) /\
  ((exists k,
      new_kernel chunk_unavailable (ex_clamp_graph IV_None IV_None) = Ok k /\
      tensor_outputs_ k = [mkTensor "aten_clamp" [IntImm 8] (axis_vars 1) ex_read_x]) /\
   (exists k,
      new_kernel chunk_unavailable (ex_clamp_graph IV_None (IV_Double d_5_0)) = Ok k /\
      tensor_outputs_ k =
        [mkTensor "aten_clamp" [IntImm 8] (axis_vars 1)
           (Min ex_read_x (FloatImm f_5_0) false)]) /\
   (exists k,
      new_kernel chunk_unavailable (ex_clamp_graph (IV_Double d_1_0) IV_None) = Ok k /\
      tensor_outputs_ k =
        [mkTensor "aten_clamp" [IntImm 8] (axis_vars 1)
           (Max ex_read_x (FloatImm f_1_0) false)]) /\
   (exists k,
      new_kernel chunk_unavailable (ex_clamp_graph (IV_Double d_1_0) (IV_Double d_5_0))
        = Ok k /\
      tensor_outputs_ k =
        [mkTensor "aten_clamp" [IntImm 8] (axis_vars 1)
           (Max (Min ex_read_x (FloatImm f_5_0) false) (FloatImm f_1_0) false)]) /\
   (forall (leaf : Expr -> option float32) (vx : float32),
      leaf ex_read_x = Some vx ->
      eval_float leaf (Min ex_read_x (FloatImm f_5_0) false) =
        Some (float_min vx f_5_0) /\
      eval_float leaf (Max (Min ex_read_x (FloatImm f_5_0) false)
                         (FloatImm neg_infinity) false) =
        Some (float_min vx f_5_0))).
Proof.
  assert (Hfloat : forall (leaf : Expr -> option float32) (x m M : Expr) (vx vM : float32),
     eval_float leaf x = Some vx -> eval_float leaf M = Some vM ->
     eval_float leaf (aten_clamp_inner true false x m M) = Some (float_min vx vM) /\
     eval_float leaf (aten_clamp_inner false false x (FloatImm neg_infinity) M) =
       eval_float leaf (aten_clamp_inner true false x m M)).
  { intros leaf x m M vx vM Hx HM. unfold aten_clamp_inner. cbn [andb eval_float].
    rewrite Hx, HM. cbn [mbind option_bind]. rewrite float_max_neg_infinity.
    split; reflexivity. }
  split.
  { intros chunk k v x lo hi a m M no_min no_max st sizes strides contiguity
      Hk Hin Hty Hmin Hmax shape Ha Hm HM p element.
    assert (E : element = aten_clamp_inner no_min no_max (p !!! 0%nat) (p !!! 1%nat)
                            (p !!! 2%nat))
      by (unfold element; destruct no_min, no_max; reflexivity).
    rewrite E. split.
    - exact (clamp_lowering chunk k v x lo hi a m M no_min no_max st sizes strides
               contiguity Hk Hin Hty Hmin Hmax Ha Hm HM).
    - intros Hba Hbm HbM. rewrite has_branch_demoted. unfold p.
      assert (H0 : has_branch (promoteInputs [a; m; M] !!! 0%nat) = false)
        by (rewrite (has_branch_promoted [a; m; M] 0 a eq_refl); exact Hba).
      assert (H1 : has_branch (promoteInputs [a; m; M] !!! 1%nat) = false)
        by (rewrite (has_branch_promoted [a; m; M] 1 m eq_refl); exact Hbm).
      assert (H2 : has_branch (promoteInputs [a; m; M] !!! 2%nat) = false)
        by (rewrite (has_branch_promoted [a; m; M] 2 M eq_refl); exact HbM).
      destruct no_min, no_max; cbn; rewrite ?H0, ?H1, ?H2; reflexivity. }
  split.
  { intros chunk k v x lo hi a st sizes strides contiguity
      Hk Hin Hty Hlk Hlv Hhk Hhv Hlt Hht shape Ha.
    assert (Hl : inputs (node v) !! 1%nat = Some lo)
      by (rewrite <- (lookup_take_lt _ 3) by lia; rewrite Hin; reflexivity).
    assert (Hh : inputs (node v) !! 2%nat = Some hi)
      by (rewrite <- (lookup_take_lt _ 3) by lia; rewrite Hin; reflexivity).
    assert (Hshape :
      broadcastShapesN (valueShape (tensors_ k) x) (valueShape (tensors_ k) lo)
        [valueShape (tensors_ k) hi] = shape).
    { unfold shape, valueShape at 2 3. rewrite Hlt, Hht. reflexivity. }
    pose proof (clamp_lowering chunk k v x lo hi a (IntImm 0) (IntImm 0) true true
                  st sizes strides contiguity Hk Hin Hty) as E.
    cbv zeta in E. rewrite Hshape in E. rewrite E.
    - unfold aten_clamp_inner. cbn [andb]. rewrite promoteInputs_clamp_none. reflexivity.
    - apply operand_is_none_true. eauto.
    - apply operand_is_none_true. eauto.
    - exact Ha.
    - rewrite (read_constant k lo _ IV_None) by assumption. reflexivity.
    - rewrite (read_constant k hi _ IV_None) by assumption. reflexivity. }
  split; [exact operand_is_none_true|].
  split; [intros x m M; repeat split|].
  split; [intros x; unfold aten_clamp_inner; cbn [andb]; apply promoteInputs_clamp_none|].
  split.
  { intros [] [] x m M Hx Hm HM; cbn; rewrite ?Hx, ?Hm, ?HM; reflexivity. }
  split; [exact Hfloat|].
  split.
  { intros env x m M vx vm vM Hx Hm HM. cbn. rewrite Hx, Hm, HM. cbn.
    repeat split. intros Hle. f_equal. lia. }
  split; [eexists; split; vm_compute; reflexivity|].
  split; [eexists; split; vm_compute; reflexivity|].
  split; [eexists; split; vm_compute; reflexivity|].
  split; [eexists; split; vm_compute; reflexivity|].
  intros leaf vx Hx.
  assert (Hr : eval_float leaf ex_read_x = Some vx).
  { revert Hx. let r := eval vm_compute in ex_read_x in change ex_read_x with r.
    intros Hx. exact Hx. }
  destruct (Hfloat leaf ex_read_x (IntImm 0) (FloatImm f_5_0) vx f_5_0 Hr eq_refl)
    as [H1 H2].
  split; [exact H1|]. rewrite <- H1. exact H2.
Qed.

Lemma aten_clamp_specialization_witness :
  has_branch (aten_clamp_inner true false (Var "x" kFloat32) (IntImm 0) (FloatImm f_4_0)) = false /\
  eval_int (fun _ => 7) (aten_clamp_inner false false (Var "x" kInt32) (IntImm (-100)) (IntImm 5)) =
    eval_int (fun _ => 7) (aten_clamp_inner true false (Var "x" kInt32) (IntImm (-100)) (IntImm 5)) /\
  eval_float (fun _ => Some f_4_0)
    (aten_clamp_inner false false (Var "x" kFloat32) (FloatImm neg_infinity) (FloatImm f_5_0)) =
    eval_float (fun _ => Some f_4_0)
      (aten_clamp_inner true false (Var "x" kFloat32) (IntImm 0) (FloatImm f_5_0)).
Proof.
  destruct aten_clamp_specialization as (_ & _ & _ & _ & _ & Hb & Hf & He & _).
  split; [|split].
  - apply Hb; reflexivity.
  - apply (He (fun _ => 7) (Var "x" kInt32) (IntImm (-100)) (IntImm 5) 7 (-100) 5);
      try reflexivity. vm_compute. discriminate.
  - apply (Hf (fun _ => Some f_4_0) (Var "x" kFloat32) (IntImm 0) (FloatImm f_5_0)
             f_4_0 f_5_0); reflexivity.
Defined.


(** ** Type promotion and demotion *)

Lemma any_float_Exists (inputs : list Expr) :
  existsb (fun e => bool_decide (dtype e = kFloat32)) inputs = true <->
  Exists (fun e => dtype e = kFloat32) inputs.
Proof.
  induction inputs as [|e l IH]; cbn.
  - split; [discriminate | intros H; inversion H].
  - rewrite orb_true_iff, Exists_cons, IH, bool_decide_eq_true. reflexivity.
Qed.

Lemma promoteInputs_float (inputs : list Expr) :
  Exists (fun e => dtype e = kFloat32) inputs ->
  promoteInputs inputs = promote_one <$> inputs.
Proof.
  intros H. apply any_float_Exists in H. unfold promoteInputs.
  rewrite H. reflexivity.
Qed.

Lemma promoteInputs_no_float (inputs : list Expr) :
  Forall (fun e => dtype e <> kFloat32) inputs ->
  promoteInputs inputs = inputs.
Proof.
  intros H. unfold promoteInputs.
  destruct (existsb _ inputs) eqn:E; [|reflexivity].
  apply any_float_Exists in E. apply Exists_exists in E as (e & Hin & He).
  rewrite Forall_forall in H. destruct (H e Hin He).
Qed.

Lemma promote_one_dtype (e : Expr) :
  dtype (promote_one e) =
    if decide (dtype e = kInt32) then kFloat32 else dtype e.
Proof. unfold promote_one. destruct (decide _); reflexivity. Qed.

Lemma demoteOutput_tensor (e : Expr) (v : Value) (st : option ScalarType)
    (sizes strides contiguity : list Z) :
  type v = TensorType st sizes strides contiguity ->
  demoteOutput e v =
    Ok (if bool_decide (dtype e = kFloat32 /\ st = Some ST_Int) then Cast kInt32 e else e).
Proof.
  intros Hty. unfold demoteOutput. rewrite Hty.
  destruct (decide (dtype e = kFloat32)) as [H1|H1];
    destruct (decide (st = Some ST_Int)) as [H2|H2].
  - rewrite !bool_decide_true by auto. reflexivity.
  - rewrite (bool_decide_false (st = _)), (bool_decide_false (_ /\ _)) by tauto.
    rewrite andb_false_r. reflexivity.
  - rewrite (bool_decide_false (dtype e = _)), (bool_decide_false (_ /\ _)) by tauto.
    reflexivity.
  - rewrite (bool_decide_false (dtype e = _)), (bool_decide_false (_ /\ _)) by tauto.
    reflexivity.
Qed.

Lemma ComputeValue_through_combinator
    (chunk : Tensor -> nat -> Z -> Z -> list Expr -> Res Expr)
    (k : TensorExprKernel) (v : Value) (t : Tensor) :
  kind (node v) ∉ shape_ops ->
  ComputeValue chunk k v = Ok t ->
  exists name T, ComputeN k name v T = Ok t.
Proof.
  intros Hnot H. unfold ComputeValue in H.
  destruct (kind (node v)) eqn:Ek;
    try discriminate H;
    try solve [exfalso; apply Hnot; unfold shape_ops; repeat constructor];
    try solve [first
      [ eexists _, (OneOperand _); exact H
      | eexists _, (TwoOperand _); exact H
      | eexists _, (TwoOperandWithAlpha _); exact H
      | eexists _, (ThreeOperand _); exact H
      | eexists _, (FourOperand _); exact H ]].
  destruct (operand_is_none v 1) as [no_min|]; cbn [mbind Res_bind] in H; [|discriminate H].
  destruct (operand_is_none v 2) as [no_max|]; cbn [mbind Res_bind] in H; [|discriminate H].
  eexists _, (ThreeOperand _). exact H.
Qed.

(** C5.  Every operator that is not lowered by an indexing rule of its
    own is lowered by one of the N-operand combinators, and what a
    combinator builds is the tensor over the broadcast shape whose element
    is the operator template at the promoted reads of the operands,
    demoted.  When some operand is a float, every integer operand (and no
    other) is cast to float, so that the template sees no integer operand,
    and the arithmetic templates give a float; when no operand is a float,
    the operands are passed as they are, integer operands give an integer
    result under the arithmetic templates, and no cast appears at all.  The
    type of the result is the one the template gives it: it is not a float
    for a comparison of a float, nor an integer for the reciprocal of an
    integer.  The result is cast to integer exactly when the declared output
    type is integer and the result is a float. *)
Theorem promotion_and_demotion :
  (forall (k : TensorExprKernel) (name : string) (v : Value) (T : Template)
          (ops : list Value) (ins : list Expr) (st : option ScalarType)
          (sizes strides contiguity : list Z),
     length ops = operand_count T ->
     take (operand_count T) (inputs (node v)) = ops ->
     type v = TensorType st sizes strides contiguity ->
     let shape := broadcast_all (valueShape (tensors_ k) <$> take (shape_count T) ops) in
     mapM (fun o => tensorOrConstant k o (axis_vars (length shape))) ops = Ok ins ->
     ComputeN k name v T =
       Ok (mkTensor name shape (axis_vars (length shape))
             (demoted st (apply_template T (promoteInputs ins))))) /\
  (forall chunk k v t,
     kind (node v) ∉ shape_ops ->
     ComputeValue chunk k v = Ok t ->
     exists name T, ComputeN k name v T = Ok t) /\
  (forall (st : option ScalarType) (e : Expr),
     demoted st e =
       if bool_decide (dtype e = kFloat32 /\ st = Some ST_Int) then Cast kInt32 e else e) /\
  (forall inputs : list Expr,
     Exists (fun e => dtype e = kFloat32) inputs ->
     promoteInputs inputs = promote_one <$> inputs /\
     Forall (fun e => dtype e <> kInt32) (promoteInputs inputs)) /\
  (forall e : Expr,
     promote_one e = (if decide (dtype e = kInt32) then Cast kFloat32 e else e)) /\
  (forall inputs : list Expr,
     Forall (fun e => dtype e <> kFloat32) inputs ->
     promoteInputs inputs = inputs) /\
  (forall (op : Expr -> Expr -> Expr) (a b : Expr),
     op ∈ arith_templates ->
     (dtype a = kInt32 /\ dtype b = kFloat32) \/ (dtype a = kFloat32 /\ dtype b = kInt32) ->
     dtype (apply_template (TwoOperand op) (promoteInputs [a; b])) = kFloat32) /\
  (forall (op : Expr -> Expr -> Expr) (a b : Expr),
     op ∈ arith_templates ->
     dtype a = kInt32 -> dtype b = kInt32 ->
     apply_template (TwoOperand op) (promoteInputs [a; b]) = op a b /\
     dtype (op a b) = kInt32 /\
     forall st, demoted st (op a b) = op a b) /\
  (forall (e : Expr) (v : Value) (st : option ScalarType) (sizes strides contiguity : list Z),
     type v = TensorType st sizes strides contiguity ->
     demoteOutput e v =
       Ok (if bool_decide (dtype e = kFloat32 /\ st = Some ST_Int)
           then Cast kInt32 e else e)).
Proof.
  split; [exact ComputeN_lowering|].
  split; [exact ComputeValue_through_combinator|].
  split; [reflexivity|].
  split.
  { intros inputs H. split; [apply promoteInputs_float; exact H|].
    rewrite promoteInputs_float by exact H.
    apply Forall_fmap, Forall_forall. intros e _. cbn.
    rewrite promote_one_dtype. destruct (decide _); congruence. }
  split; [reflexivity|].
  split; [exact promoteInputs_no_float|].
  split.
  { intros op a b Hop Hab.
    assert (Hp : promoteInputs [a; b] = promote_one <$> [a; b]).
    { apply promoteInputs_float. destruct Hab as [[_ H]|[H _]];
        [apply Exists_cons_tl, Exists_cons_hd | apply Exists_cons_hd]; exact H. }
    rewrite Hp. cbn [apply_template fmap list_fmap lookup_total list_lookup_total].
    assert (Ha : dtype (promote_one a) = kFloat32)
      by (rewrite promote_one_dtype; destruct Hab as [[-> _]|[-> _]]; reflexivity).
    assert (Hb : dtype (promote_one b) = kFloat32)
      by (rewrite promote_one_dtype; destruct Hab as [[_ ->]|[_ ->]]; reflexivity).
    unfold arith_templates in Hop.
    repeat (apply elem_of_cons in Hop as [->|Hop]);
      try (cbn [dtype]; rewrite Ha, Hb; reflexivity).
    inversion Hop. }
  split.
  { intros op a b Hop Ha Hb.
    assert (Hp : promoteInputs [a; b] = [a; b]).
    { apply promoteInputs_no_float. repeat constructor; congruence. }
    assert (Hd : dtype (op a b) = kInt32).
    { unfold arith_templates in Hop.
      repeat (apply elem_of_cons in Hop as [->|Hop]);
        try (cbn [dtype]; rewrite Ha, Hb; reflexivity).
      inversion Hop. }
    rewrite Hp. split; [reflexivity|]. split; [exact Hd|].
    intros st. unfold demoted.
    rewrite bool_decide_false; [reflexivity|]. rewrite Hd. intros [H _]. discriminate H. }
  exact demoteOutput_tensor.
Qed.

Lemma promotion_and_demotion_witness :
  dtype (apply_template (TwoOperand Add) (promoteInputs [IntImm 2; FloatImm f_0_5])) =
    kFloat32 /\
  apply_template (TwoOperand Mul) (promoteInputs [IntImm 2; IntImm 3]) =
    Mul (IntImm 2) (IntImm 3) /\
  exists t a b,
    mapM (fun o => tensorOrConstant ex_mixed_kernel o (axis_vars 1)) [ex_ix; ex_fy] =
      Ok [a; b] /\
    ComputeValue chunk_unavailable ex_mixed_kernel
      (graph_node 4 "m" (float_tensor [8]) aten_mul [ex_ix; ex_fy]) = Ok t /\
    t = mkTensor "aten_mul" [IntImm 8] (axis_vars 1) (Mul (Cast kFloat32 a) b).
Proof.
  destruct promotion_and_demotion as (Hlow & _ & _ & _ & _ & _ & Hfloat & Hint & _).
  split; [|split].
  - apply Hfloat; [apply list_elem_of_here | left; split; reflexivity].
  - apply (Hint Mul (IntImm 2) (IntImm 3));
      [repeat constructor | reflexivity | reflexivity].
  - pose (ins := match mapM (fun o => tensorOrConstant ex_mixed_kernel o (axis_vars 1))
                         [ex_ix; ex_fy] with
                 | Ok l => l
                 | Err _ => []
                 end).
    exists (mkTensor "aten_mul" [IntImm 8] (axis_vars 1)
              (Mul (Cast kFloat32 (ins !!! 0%nat)) (ins !!! 1%nat))),
           (ins !!! 0%nat), (ins !!! 1%nat).
    split; [vm_compute; reflexivity|]. split; [|reflexivity].
    etransitivity;
      [apply (Hlow ex_mixed_kernel "aten_mul"
                (graph_node 4 "m" (float_tensor [8]) aten_mul [ex_ix; ex_fy])
                (TwoOperand Mul) [ex_ix; ex_fy] ins (Some ST_Float) [8]
                (contiguous_strides [8]) [1]); vm_compute; reflexivity
      | vm_compute; reflexivity].
Defined.

(** The claim as it is written gives the result the float type whenever
    an operand is a float, and the integer type whenever all operands are
    integers.  The lowering of [eq(x, y)] for an integer [x] and a float [y]
    is an integer, and the lowering of [reciprocal(x)] for an integer [x]
    is a float. *)
Lemma promotion_and_demotion_counterexample :
  (exists t a b,
     mapM (fun o => tensorOrConstant ex_mixed_kernel o (axis_vars 1)) [ex_ix; ex_fy] =
       Ok [a; b] /\
     dtype a = kInt32 /\ dtype b = kFloat32 /\
     ComputeValue chunk_unavailable ex_mixed_kernel ex_eq = Ok t /\
     body t = CompareSelect (Cast kFloat32 a) b kEQ /\
     dtype (body t) <> kFloat32) /\
  (exists t a,
     mapM (fun o => tensorOrConstant ex_mixed_kernel o (axis_vars 1)) [ex_ix] = Ok [a] /\
     dtype a = kInt32 /\
     ComputeValue chunk_unavailable ex_mixed_kernel ex_reciprocal = Ok t /\
     body t = Div (FloatImm f_1_0) a /\
     dtype (body t) <> kInt32).
Proof.
  split.
  - eexists _, _, _. split; [vm_compute; reflexivity|].
    split; [reflexivity|]. split; [reflexivity|].
    split; [vm_compute; reflexivity|]. split; [reflexivity | discriminate].
  - eexists _, _. split; [vm_compute; reflexivity|].
    split; [reflexivity|].
    split; [vm_compute; reflexivity|]. split; [reflexivity | discriminate].
Qed.


(** ** Constants whose value is None *)

Lemma constant_none (scalars : gmap Z Expr) (v : Value) :
  kind (node v) = prim_Constant ->
  attr_value (node v) = Some IV_None ->
  constant scalars v = Ok (IntImm 0).
Proof.
  intros Hk Hv. unfold constant, toIValue.
  destruct (decide (kind (node v) = prim_Constant)); [|contradiction].
  rewrite Hv. reflexivity.
Qed.

(** C9.  A graph constant whose value is None is lowered by [constant] to
    the integer immediate 0; the unhandled-datatype failure is for other
    kinds of constants (a boolean, a tensor).  An operand that is such a
    constant is therefore read as the expression 0, whose value is 0: in the
    example graph the slice with start None reads [x] at [2*i + 0], and the
    addition with alpha None computes [x + 0 * w], without any failure.
    [aten::clamp] finds the None operand on the node, before its operands are
    lowered. *)
Theorem constant_none_is_zero :
  (forall (scalars : gmap Z Expr) (v : Value),
     kind (node v) = prim_Constant ->
     attr_value (node v) = Some IV_None ->
     constant scalars v = Ok (IntImm 0)) /\
  (forall (scalars : gmap Z Expr) (v : Value) (val : IValue),
     kind (node v) = prim_Constant ->
     attr_value (node v) = Some val ->
     constant scalars v = Err (Fatal "Unhandled constant datatype") <->
     (exists b, val = IV_Bool b) \/ (exists t, val = IV_Tensor t)) /\
  (forall (k : TensorExprKernel) (v : Value) (axes : list Expr) (env : string -> Z),
     kind (node v) = prim_Constant ->
     attr_value (node v) = Some IV_None ->
     tensors_ k !! unique v = None ->
     tensorOrConstant k v axes = Ok (IntImm 0) /\ eval_int env (IntImm 0) = Some 0) /\
  (let tx := mkTensor "input" [IntImm 8] [Var "i0" kInt32]
               (Load "tx" kFloat32 (Add (IntImm 0) (Mul (Var "i0" kInt32) (IntImm 1)))) in
   let tw := mkTensor "input" [IntImm 8] [Var "i0" kInt32]
               (Load "tw" kFloat32 (Add (IntImm 0) (Mul (Var "i0" kInt32) (IntImm 1)))) in
   exists k,
     new_kernel chunk_unavailable ex_none_graph = Ok k /\
     body <$> tensor_outputs_ k =
       [FunctionCall tx [Add (Mul (IntImm 2) (Var "i0" kInt32)) (IntImm 0)];
        Add (FunctionCall tx [Var "i0" kInt32])
            (Mul (Cast kFloat32 (IntImm 0)) (FunctionCall tw [Var "i0" kInt32]))]) /\
  (forall (v : Value) (i : nat) (o : Value),
     inputs (node v) !! i = Some o ->
     kind (node o) = prim_Constant ->
     attr_value (node o) = Some IV_None ->
     operand_is_none v i = Ok true).
Proof.
  split; [exact constant_none|].
  split.
  { intros scalars v val Hk Hv. unfold constant, toIValue.
    destruct (decide (kind (node v) = prim_Constant)); [|contradiction].
    rewrite Hv. destruct val; split; intros H;
      try discriminate H; try (destruct H as [[? H]|[? H]]; discriminate H);
      eauto. }
  split.
  { intros k v axes env Hk Hv Ht. unfold tensorOrConstant. rewrite Ht.
    split; [apply constant_none; assumption | reflexivity]. }
  split.
  { eexists. split; [vm_compute; reflexivity | reflexivity]. }
  intros v i o Hi Hk Hv. apply operand_is_none_true. eauto.
Qed.

Lemma constant_none_is_zero_witness :
  constant ∅ ex_none = Ok (IntImm 0) /\ operand_is_none ex_add 2 = Ok true.
Proof.
  destruct constant_none_is_zero as (Hc & _ & _ & _ & Hn).
  split.
  - apply Hc; reflexivity.
  - apply (Hn ex_add 2%nat ex_none); reflexivity.
Defined.

(** ** Backend selection *)

Lemma first_tensor_device_none (inputs : list IValue) :
  first_tensor_device inputs = Err (RuntimeError "No tensor inputs") <->
  Forall (fun v => isTensor v = false) inputs.
Proof.
  induction inputs as [|v l IH]; cbn.
  - split; [constructor | reflexivity].
  - destruct v; rewrite ?Forall_cons, ?IH; cbn; try tauto.
    split; [discriminate | intros [H _]; discriminate H].
Qed.

Lemma first_tensor_device_some (inputs : list IValue) (d : Device) :
  first_tensor_device inputs = Ok d <->
  exists pre t post,
    inputs = pre ++ IV_Tensor t :: post /\
    Forall (fun v => isTensor v = false) pre /\ d = at_device t.
Proof.
  induction inputs as [|v l IH]; cbn.
  - split; [discriminate | intros ([|? ?] & t & post & H & _); discriminate H].
  - assert (Hskip : isTensor v = false ->
             (first_tensor_device l = Ok d <->
              exists pre t post, v :: l = pre ++ IV_Tensor t :: post /\
                Forall (fun v => isTensor v = false) pre /\ d = at_device t)).
    { intros Hv. rewrite IH. split.
      - intros (pre & t & post & -> & Hpre & ->).
        exists (v :: pre), t, post. repeat split. constructor; assumption.
      - intros ([|v' pre] & t & post & H & Hpre & ->); simplify_eq/=.
        exists pre, t, post. repeat split. inversion Hpre; assumption. }
    destruct v; try (apply Hskip; reflexivity).
    split.
    + intros [= <-]. exists [], t, l. repeat split. constructor.
    + intros ([|v' pre] & t' & post & H & Hpre & ->); simplify_eq/=.
      * reflexivity.
      * inversion Hpre as [|? ? Hv]. discriminate Hv.
Qed.

Lemma backend_of_device_cases (cfg : Config) (d : Device) :
  backend_of_device cfg d =
    match dev_type d with
    | kCUDA => Ok kCudaCodeGen
    | kCPU => Ok (if ENABLE_LLVM cfg then kLLVMCodeGen else kSimpleIREval)
    | _ => Err (RuntimeError "Invalid device type")
    end.
Proof. unfold backend_of_device. destruct (dev_type d); reflexivity. Qed.

Lemma backend_of_device_selectable (cfg : Config) (d : Device) (b : BackendType) :
  backend_of_device cfg d = Ok b -> b ∈ selectable_backends.
Proof.
  rewrite backend_of_device_cases. unfold selectable_backends.
  destruct (dev_type d); try discriminate; intros [= <-];
    [destruct (ENABLE_LLVM cfg)|]; repeat constructor.
Qed.

Lemma LowerToBackend_state (cfg : Config) (k : TensorExprKernel) (b : BackendType) :
  let '(k', r) := LowerToBackend cfg k b in
  backend_type_ k' = backend_type_ k /\ device_ k' = device_ k /\
  match r with
  | Ok _ => exists name params,
      codegen_name_of (backend_type_ k) = Ok name /\
      codegen_ k' = Some name /\
      events k' = events k ++ [EvCreateCodeGen name params]
  | Err _ => k' = k
  end.
Proof.
  unfold LowerToBackend.
  destruct (if decide (b = kCudaCodeGen) then mapM flatten_output _ else _) as [outs|];
    cbn [mbind Res_bind]; [|auto].
  destruct (if decide (b = kCudaCodeGen) then mapM (gpu_tiling cfg) _ else _) as [tl|];
    cbn [mbind Res_bind]; [|auto].
  destruct (codegen_name_of (backend_type_ k)) as [nm|]; cbn [mbind Res_bind]; [|auto].
  cbn. repeat split. eauto.
Qed.

Lemma PickAndCheckBackendType_first (cfg : Config) (k : TensorExprKernel)
    (inputs : list IValue) (d : Device) (b : BackendType) :
  backend_type_ k = kUninitializedBackend ->
  first_tensor_device inputs = Ok d ->
  backend_of_device cfg d = Ok b ->
  let '(k', r) := PickAndCheckBackendType cfg k inputs in
  backend_type_ k' = b /\ device_ k' = d /\
  match r with
  | Ok _ => exists name params,
      codegen_name_of b = Ok name /\
      codegen_ k' = Some name /\
      events k' = events k ++ [EvCreateCodeGen name params]
  | Err _ => events k' = events k /\ codegen_ k' = codegen_ k
  end.
Proof.
  intros Hu Hd Hb. unfold PickAndCheckBackendType. rewrite Hd, Hb.
  destruct (decide (backend_type_ k = kUninitializedBackend)); [|contradiction].
  pose proof (LowerToBackend_state cfg (with_backend k b d) b) as H.
  destruct (LowerToBackend cfg (with_backend k b d) b) as [k' [u|f]];
    cbn [backend_type_ device_ events with_backend] in H.
  - destruct H as (-> & -> & H). auto.
  - destruct H as (-> & -> & ->). auto.
Qed.

Lemma PickAndCheckBackendType_locked (cfg : Config) (k : TensorExprKernel)
    (inputs : list IValue) :
  backend_type_ k <> kUninitializedBackend ->
  (PickAndCheckBackendType cfg k inputs).1 = k /\
  forall d b,
    first_tensor_device inputs = Ok d ->
    backend_of_device cfg d = Ok b ->
    (PickAndCheckBackendType cfg k inputs).2 =
      if decide (backend_type_ k = b) then Ok ()
      else Err (RuntimeError "Inconsistent backend_type").
Proof.
  intros Hset. unfold PickAndCheckBackendType.
  destruct (first_tensor_device inputs) as [d|f];
    [|split; [reflexivity | intros ? ? H; discriminate H]].
  destruct (backend_of_device cfg d) as [b|f] eqn:Eb;
    [|split; [reflexivity | intros ? ? [= <-] H; rewrite Eb in H; discriminate H]].
  destruct (decide (backend_type_ k = kUninitializedBackend)); [contradiction|].
  split.
  - destruct (decide (backend_type_ k <> b)); reflexivity.
  - intros d' b' [= <-] H. rewrite Eb in H. injection H as <-.
    destruct (decide (backend_type_ k <> b)), (decide (backend_type_ k = b));
      try reflexivity; contradiction.
Qed.

Lemma run_locked (cfg : Config) (fresh_ptr : nat -> Z) (k : TensorExprKernel)
    (stack inputs : list IValue) (d : Device) (b : BackendType) :
  backend_type_ k <> kUninitializedBackend ->
  last_n stack (n_inputs_ k) = Ok inputs ->
  first_tensor_device inputs = Ok d ->
  backend_of_device cfg d = Ok b ->
  (b <> backend_type_ k ->
   run cfg fresh_ptr k stack = (k, Err (RuntimeError "Inconsistent backend_type"))) /\
  (b = backend_type_ k ->
   let k' := (run cfg fresh_ptr k stack).1 in
   backend_type_ k' = backend_type_ k /\ device_ k' = device_ k /\
   codegen_ k' = codegen_ k /\
   (events k' = events k \/ exists run_args, events k' = events k ++ [EvCall run_args])).
Proof.
  intros Hset Hlast Hd Hb.
  destruct (PickAndCheckBackendType_locked cfg k inputs Hset) as [H1 H2].
  specialize (H2 d b Hd Hb).
  unfold run. rewrite Hlast.
  destruct (PickAndCheckBackendType cfg k inputs) as [k1 r1]. cbn in H1, H2. subst k1 r1.
  split.
  - intros Hne. destruct (decide (backend_type_ k = b)); [congruence|reflexivity].
  - intros ->. destruct (decide (backend_type_ k = backend_type_ k)); [|contradiction].
    destruct (_ ≫= _) as [[run_args outputs]|f]; [|cbn; auto].
    unfold CodeGenRun.
    destruct (backend_type_ k) eqn:Ebt; [contradiction| | |];
      destruct (codegen_ k) eqn:Ecg; cbn; rewrite ?Ebt, ?Ecg; eauto 6.
Qed.

(** C6.  A device maps to a backend: CUDA to the GPU backend, CPU to the
    native one when it is built in and to the interpreted one otherwise;
    any other device is the invalid-device failure, and a call without a
    tensor argument is the no-tensor-inputs failure; both leave the kernel
    as it was.  On an uninitialized kernel the call locks the backend and
    the device of the first tensor argument, and asks once for a code
    generator.  On a locked kernel the check changes nothing: a call whose
    first tensor maps to another backend fails with the inconsistency
    failure, the kernel object, its code generator and the list of
    code-generator calls untouched; a call whose first tensor maps to the
    locked backend asks for no new code generator, it only calls the one
    there is.  The example kernel, run on a CPU tensor and then on a GPU
    tensor, fails the second time and stays the same. *)
Theorem backend_selection_lock_in :
  (forall (cfg : Config) (d : Device),
     backend_of_device cfg d =
       match dev_type d with
       | kCUDA => Ok kCudaCodeGen
       | kCPU => Ok (if ENABLE_LLVM cfg then kLLVMCodeGen else kSimpleIREval)
       | _ => Err (RuntimeError "Invalid device type")
       end) /\
  (forall inputs : list IValue,
     (first_tensor_device inputs = Err (RuntimeError "No tensor inputs") <->
      Forall (fun v => isTensor v = false) inputs) /\
     forall d, first_tensor_device inputs = Ok d <->
       exists pre t post,
         inputs = pre ++ IV_Tensor t :: post /\
         Forall (fun v => isTensor v = false) pre /\ d = at_device t) /\
  (forall (cfg : Config) (k : TensorExprKernel) (inputs : list IValue) (f : Failure),
     first_tensor_device inputs = Err f \/
     (exists d, first_tensor_device inputs = Ok d /\ backend_of_device cfg d = Err f) ->
     PickAndCheckBackendType cfg k inputs = (k, Err f)) /\
  (forall (cfg : Config) (k : TensorExprKernel) (inputs : list IValue)
          (d : Device) (b : BackendType),
     backend_type_ k = kUninitializedBackend ->
     first_tensor_device inputs = Ok d ->
     backend_of_device cfg d = Ok b ->
     b ∈ selectable_backends /\
     let '(k', r) := PickAndCheckBackendType cfg k inputs in
     backend_type_ k' = b /\ device_ k' = d /\
     match r with
     | Ok _ => exists name params,
         codegen_name_of b = Ok name /\
         codegen_ k' = Some name /\
         events k' = events k ++ [EvCreateCodeGen name params]
     | Err _ => events k' = events k /\ codegen_ k' = codegen_ k
     end) /\
  (forall (cfg : Config) (k : TensorExprKernel) (inputs : list IValue),
     backend_type_ k <> kUninitializedBackend ->
     (PickAndCheckBackendType cfg k inputs).1 = k /\
     forall d b,
       first_tensor_device inputs = Ok d ->
       backend_of_device cfg d = Ok b ->
       (PickAndCheckBackendType cfg k inputs).2 =
         if decide (backend_type_ k = b) then Ok ()
         else Err (RuntimeError "Inconsistent backend_type")) /\
  (forall (cfg : Config) (fresh_ptr : nat -> Z) (k : TensorExprKernel)
          (stack inputs : list IValue) (d : Device) (b : BackendType),
     backend_type_ k <> kUninitializedBackend ->
     last_n stack (n_inputs_ k) = Ok inputs ->
     first_tensor_device inputs = Ok d ->
     backend_of_device cfg d = Ok b ->
     (b <> backend_type_ k ->
      run cfg fresh_ptr k stack = (k, Err (RuntimeError "Inconsistent backend_type"))) /\
     (b = backend_type_ k ->
      let k' := (run cfg fresh_ptr k stack).1 in
      backend_type_ k' = backend_type_ k /\ device_ k' = device_ k /\
      codegen_ k' = codegen_ k /\
      (events k' = events k \/ exists run_args, events k' = events k ++ [EvCall run_args]))) /\
  (exists k0 k1 out,
     new_kernel chunk_unavailable ex_dyn_graph = Ok k0 /\
     backend_type_ k0 = kUninitializedBackend /\
     run ex_cfg ex_alloc k0 [cpu_tensor [4] [1]] = (k1, Ok out) /\
     backend_type_ k1 = kSimpleIREval /\
     length (filter (fun ev => is_create ev = true) (events k1)) = 1%nat /\
     run ex_cfg ex_alloc k1 [cuda_tensor [4] [1]] =
       (k1, Err (RuntimeError "Inconsistent backend_type"))).
Proof.
  split; [exact backend_of_device_cases|].
  split; [intros inputs; split;
          [apply first_tensor_device_none | intros d; apply first_tensor_device_some]|].
  split.
  { intros cfg k inputs f [H|(d & Hd & Hb)]; unfold PickAndCheckBackendType.
    - rewrite H. reflexivity.
    - rewrite Hd, Hb. reflexivity. }
  split.
  { intros cfg k inputs d b Hu Hd Hb.
    split; [eapply backend_of_device_selectable; exact Hb|].
    exact (PickAndCheckBackendType_first cfg k inputs d b Hu Hd Hb). }
  split; [exact PickAndCheckBackendType_locked|].
  split; [exact run_locked|].
  eexists. eexists. eexists.
  split; [vm_compute; reflexivity|].
  split; [reflexivity|].
  split; [vm_compute; reflexivity|].
  split; [reflexivity|].
  split; [vm_compute; reflexivity|].
  vm_compute; reflexivity.
Qed.

Lemma backend_selection_lock_in_witness :
  (PickAndCheckBackendType ex_cfg ex_locked_kernel [cuda_tensor [4] [1]]).1 = ex_locked_kernel /\
  run ex_cfg ex_alloc ex_locked_kernel [cuda_tensor [4] [1]] =
    (ex_locked_kernel, Err (RuntimeError "Inconsistent backend_type")).
Proof.
  destruct backend_selection_lock_in as (_ & _ & _ & _ & Hlocked & Hrun & _).
  split.
  - apply Hlocked. discriminate.
  - apply (Hrun ex_cfg ex_alloc ex_locked_kernel [cuda_tensor [4] [1]]
             [cuda_tensor [4] [1]] (mkDevice kCUDA 0) kCudaCodeGen);
      try reflexivity; discriminate.
Defined.

(** ** Lowering of [aten::cat] *)

(** C7.  On the concatenation of three vectors [a], [b], [c] of lengths 2,
    3 and 4 the lowering builds the chain of selects keyed on the running
    offsets 2 and 5.  The first two segments are read where the
    specification says: at [i] and at [i - 2].  The third one is read at
    [i - 2 - 5], the running offset being subtracted from the index that
    was already shifted, and not at [i - 5]: the element at output index 5
    is read from [c] at index -2, where the specification gives index 0 of
    segment 2. *)
Theorem aten_cat_third_segment_index :
  exists k t,
    new_kernel chunk_unavailable ex_cat_graph = Ok k /\
    tensor_outputs_ k = [t] /\
    (forall i, i < 2 -> eval_load (fun _ => i) (body t) = Some ("ta", i)) /\
    (forall i, 2 <= i < 5 -> eval_load (fun _ => i) (body t) = Some ("tb", i - 2)) /\
    (forall i, 5 <= i -> eval_load (fun _ => i) (body t) = Some ("tc", i - 2 - 5)) /\
    eval_load (fun _ => 5) (body t) = Some ("tc", -2) /\
    cat_element [2; 3; 4] 5 = Some (2%nat, 0).
Proof.
  eexists. eexists.
  split; [vm_compute; reflexivity|].
  split; [reflexivity|].
  cbn [body eval_load eval_int mbind option_bind mapM bind_vars String.eqb Ascii.eqb
         Bool.eqb mret option_ret].
  split; [|split; [|split; [|split; reflexivity]]].
  - intros i Hi.
    replace (i <? 5) with true by lia. replace (i <? 2) with true by lia.
    cbn. f_equal. f_equal. lia.
  - intros i Hi.
    replace (i <? 5) with true by lia. replace (i <? 2) with false by lia.
    cbn. f_equal. f_equal. lia.
  - intros i Hi.
    replace (i <? 5) with false by lia.
    cbn. f_equal. f_equal. lia.
Qed.

Lemma aten_cat_third_segment_index_witness :
  exists k t,
    new_kernel chunk_unavailable ex_cat_graph = Ok k /\
    tensor_outputs_ k = [t] /\
    eval_load (fun _ => 8) (body t) = Some ("tc", 8 - 2 - 5).
Proof.
  destruct aten_cat_third_segment_index as (k & t & Hk & Ht & _ & _ & H3 & _).
  exists k, t. split; [exact Hk|]. split; [exact Ht|].
  apply H3. lia.
Defined.


(** ** The shapes of the outputs at run time *)

Lemma mapM_Ok {A B} (f : A -> Res B) (l : list A) (l' : list B) :
  mapM f l = Ok l' <-> Forall2 (fun x y => f x = Ok y) l l'.
Proof.
  revert l'. induction l as [|x l IH]; intros l'; cbn.
  - split; [intros [= <-]; constructor | intros H; inversion H; reflexivity].
  - destruct (f x) as [y|e] eqn:Ex; cbn.
    + destruct (mapM f l) as [k|e] eqn:El; cbn.
      * split.
        -- intros [= <-]. constructor; [exact Ex | apply IH; reflexivity].
        -- intros H. inversion H as [|? y' ? k' Hy Hk]; subst.
           rewrite Ex in Hy. injection Hy as <-.
           apply IH in Hk. injection Hk as <-. reflexivity.
      * split; [discriminate|].
        intros H. inversion H as [|? y' ? k' Hy Hk]; subst.
        apply IH in Hk. discriminate Hk.
    + split; [discriminate|].
      intros H. inversion H as [|? y' ? k' Hy Hk]; subst. rewrite Ex in Hy. discriminate Hy.
Qed.

Lemma mapM_Err {A B} (f : A -> Res B) (l : list A) (e : Failure) :
  (forall x e', f x = Err e' -> e' = e) ->
  Exists (fun x => f x = Err e) l ->
  mapM f l = Err e.
Proof.
  intros Hone. induction l as [|x l IH]; intros H; [inversion H|]. cbn.
  destruct (f x) as [y|e'] eqn:Ex; cbn.
  - inversion H as [? ? Hx|? ? Hl]; subst; [rewrite Ex in Hx; discriminate Hx|].
    rewrite (IH Hl). reflexivity.
  - rewrite (Hone x e' Ex). reflexivity.
Qed.

Lemma resolve_dim_cases (m : gmap string Z) :
  (forall name dt s, m !! name = Some s -> resolve_dim m (Var name dt) = Ok s) /\
  (forall name dt, m !! name = None ->
     resolve_dim m (Var name dt) = Err (Fatal "TORCH_CHECK(s)")) /\
  (forall c, resolve_dim m (IntImm c) = Ok c).
Proof.
  unfold resolve_dim. repeat split.
  - intros name dt s H. cbn. rewrite H. reflexivity.
  - intros name dt H. cbn. rewrite H. reflexivity.
Qed.

Lemma resolve_dim_failure (m : gmap string Z) (dim : Expr) (e : Failure) :
  resolve_dim m dim = Err e -> e = Fatal "TORCH_CHECK(s)".
Proof.
  unfold resolve_dim. destruct (node_key dim ≫= _); [discriminate|].
  destruct (AsNode_IntImm dim); [discriminate|]. intros [= <-]. reflexivity.
Qed.

Lemma make_output_shape (k : TensorExprKernel) (fresh_ptr : nat -> Z)
    (m : gmap string Z) (j : nat) (o : Tensor) (t : at_Tensor) :
  make_output k fresh_ptr m (j, o) = Ok t ->
  Forall2 (fun dim s => resolve_dim m dim = Ok s) (dims o) (at_sizes t) /\
  at_device t = device_ k.
Proof.
  unfold make_output.
  destruct (mapM (resolve_dim m) (dims o)) as [tensorSize|] eqn:E; cbn; [|discriminate].
  destruct (tensorType o); cbn; [|discriminate].
  intros [= <-]. cbn. split; [apply mapM_Ok; exact E | reflexivity].
Qed.

Lemma make_output_unbound (k : TensorExprKernel) (fresh_ptr : nat -> Z)
    (m : gmap string Z) (j : nat) (o : Tensor) (name : string) (dt : Dtype) :
  Var name dt ∈ dims o ->
  m !! name = None ->
  make_output k fresh_ptr m (j, o) = Err (Fatal "TORCH_CHECK(s)").
Proof.
  intros Hin Hm. unfold make_output.
  rewrite (mapM_Err (resolve_dim m) (dims o) (Fatal "TORCH_CHECK(s)")); [reflexivity| |].
  - intros x e'. apply resolve_dim_failure.
  - apply Exists_exists. exists (Var name dt). split; [exact Hin|].
    apply resolve_dim_cases. exact Hm.
Qed.

Lemma bind_size_records (tensor : at_Tensor) (st st' : ArgLoop) (size : ShapeArg)
    (name : string) (dt : Dtype) :
  var size = Var name dt ->
  bind_size tensor st size = Ok st' ->
  exists s64, at_sizes tensor !! idx size = Some s64 /\
    al_run_args st' = al_run_args st ++ [CA_Int (to_int32 s64)] /\
    al_varToSize st' = <[name := to_int32 s64]> (al_varToSize st).
Proof.
  intros Hv. unfold bind_size, at_index.
  destruct (at_sizes tensor !! idx size) as [s64|]; cbn; [|discriminate].
  rewrite Hv. cbn. intros [= <-]. exists s64. auto.
Qed.

(** C8.  At every call each output shape is computed dimension by
    dimension from [varToSize], the map filled from the sizes of the actual
    input tensors while the arguments are bound: a size variable gets the
    value observed for it, a constant is itself, and a size variable that no
    input has bound makes the call fail.  The kernel of [y = relu(x)] with
    [x] of unknown length, built once, gives an output of the length of its
    input at every call, whatever the two lengths are (4 and then 9, say),
    with one code generator for both calls.  The kernel of a matrix whose
    two unknown sizes share their sentinel has a size variable that no input
    binds: its call fails. *)
Theorem run_output_shapes :
  (forall m : gmap string Z,
     (forall name dt s, m !! name = Some s -> resolve_dim m (Var name dt) = Ok s) /\
     (forall name dt, m !! name = None ->
        resolve_dim m (Var name dt) = Err (Fatal "TORCH_CHECK(s)")) /\
     (forall c, resolve_dim m (IntImm c) = Ok c)) /\
  (forall (tensor : at_Tensor) (st st' : ArgLoop) (size : ShapeArg) (name : string) (dt : Dtype),
     var size = Var name dt ->
     bind_size tensor st size = Ok st' ->
     exists s64, at_sizes tensor !! idx size = Some s64 /\
       al_run_args st' = al_run_args st ++ [CA_Int (to_int32 s64)] /\
       al_varToSize st' = <[name := to_int32 s64]> (al_varToSize st)) /\
  (forall (k : TensorExprKernel) (fresh_ptr : nat -> Z) (m : gmap string Z)
          (j : nat) (o : Tensor) (t : at_Tensor),
     make_output k fresh_ptr m (j, o) = Ok t ->
     Forall2 (fun dim s => resolve_dim m dim = Ok s) (dims o) (at_sizes t) /\
     at_device t = device_ k) /\
  (forall (k : TensorExprKernel) (fresh_ptr : nat -> Z) (m : gmap string Z)
          (j : nat) (o : Tensor) (name : string) (dt : Dtype),
     Var name dt ∈ dims o ->
     m !! name = None ->
     make_output k fresh_ptr m (j, o) = Err (Fatal "TORCH_CHECK(s)")) /\
  (exists k0,
     new_kernel chunk_unavailable ex_dyn_graph = Ok k0 /\
     forall n1 n2 : Z, exists k1 k2 create,
       run ex_cfg ex_alloc k0 [cpu_tensor [n1] [1]] =
         (k1, Ok [IV_Tensor (at_empty 2000 [to_int32 n1] ST_Float (mkDevice kCPU (-1)))]) /\
       run ex_cfg ex_alloc k1 [cpu_tensor [n2] [1]] =
         (k2, Ok [IV_Tensor (at_empty 2000 [to_int32 n2] ST_Float (mkDevice kCPU (-1)))]) /\
       is_create create = true /\
       events k2 =
         [create;
          EvCall [CA_Ptr 1000; CA_Int (to_int32 n1); CA_Ptr 2000];
          EvCall [CA_Ptr 1000; CA_Int (to_int32 n2); CA_Ptr 2000]]) /\
  (to_int32 4 = 4 /\ to_int32 9 = 9) /\
  (exists k0,
     new_kernel chunk_unavailable ex_same_sentinel_graph = Ok k0 /\
     dims <$> tensor_outputs_ k0 = [[Var "size_0_0" kInt32; Var "size_0_1" kInt32]] /\
     (run ex_cfg ex_alloc k0 [cpu_tensor [4; 5] [5; 1]]).2 = Err (Fatal "TORCH_CHECK(s)")).
Proof.
  split; [exact resolve_dim_cases|].
  split; [exact bind_size_records|].
  split; [exact make_output_shape|].
  split; [exact make_output_unbound|].
  split.
  { eexists. split; [vm_compute; reflexivity|].
    intros n1 n2. eexists. eexists. eexists.
    split; [cbv -[to_int32]; reflexivity|].
    split; [cbv -[to_int32]; reflexivity|].
    split; [|reflexivity]. reflexivity. }
  split; [split; reflexivity|].
  eexists. split; [vm_compute; reflexivity|].
  split; vm_compute; reflexivity.
Qed.

Lemma run_output_shapes_witness :
  resolve_dim {["size_0_0" := 4]} (Var "size_0_0" kInt32) = Ok 4 /\
  resolve_dim ∅ (Var "size_0_1" kInt32) = Err (Fatal "TORCH_CHECK(s)").
Proof.
  destruct run_output_shapes as (H & _).
  split.
  - apply (proj1 (H _)). vm_compute. reflexivity.
  - apply (proj1 (proj2 (H _))). reflexivity.
Defined.

(** ** Narrowing of the arguments at run time *)

Lemma bind_sizes_args (tensor : at_Tensor) (l : list ShapeArg) (st st' : ArgLoop) :
  foldlM (bind_size tensor) st l = Ok st' ->
  exists vals,
    Forall2 (fun sa v => at_sizes tensor !! idx sa = Some v) l vals /\
    al_run_args st' = al_run_args st ++ (CA_Int ∘ to_int32 <$> vals).
Proof.
  revert st. induction l as [|sa l IH]; intros st; cbn.
  - intros [= <-]. exists []. split; [constructor | rewrite app_nil_r; reflexivity].
  - assert (Hstep : bind_size tensor st sa =
              match at_sizes tensor !! idx sa with
              | Some v =>
                  Ok (mkArgLoop (al_run_args st ++ [CA_Int (to_int32 v)])
                        (match node_key (var sa) with
                         | Some key => <[key := to_int32 v]> (al_varToSize st)
                         | None => al_varToSize st
                         end))
              | None => Err (OutOfRange "tensor.sizes()[size.idx]")
              end)
      by (unfold bind_size, at_index; destruct (at_sizes tensor !! idx sa); reflexivity).
    rewrite Hstep.
    destruct (at_sizes tensor !! idx sa) as [v|] eqn:Ev; cbn [mbind Res_bind];
      [|discriminate].
    intros H. apply IH in H as (vals & Hvals & Hargs). cbn in Hargs.
    exists (v :: vals). split; [constructor; assumption|].
    rewrite Hargs, <- app_assoc. reflexivity.
Qed.

Lemma bind_strides_args (tensor : at_Tensor) (l : list ShapeArg) (st st' : ArgLoop) :
  foldlM (bind_stride tensor) st l = Ok st' ->
  exists vals,
    Forall2 (fun sa v => at_strides tensor !! idx sa = Some v) l vals /\
    al_run_args st' = al_run_args st ++ (CA_Int ∘ to_int32 <$> vals).
Proof.
  revert st. induction l as [|sa l IH]; intros st; cbn.
  - intros [= <-]. exists []. split; [constructor | rewrite app_nil_r; reflexivity].
  - assert (Hstep : bind_stride tensor st sa =
              match at_strides tensor !! idx sa with
              | Some v =>
                  Ok (mkArgLoop (al_run_args st ++ [CA_Int (to_int32 v)]) (al_varToSize st))
              | None => Err (OutOfRange "tensor.strides()[stride.idx]")
              end)
      by (unfold bind_stride, at_index; destruct (at_strides tensor !! idx sa); reflexivity).
    rewrite Hstep.
    destruct (at_strides tensor !! idx sa) as [v|] eqn:Ev; cbn [mbind Res_bind];
      [|discriminate].
    intros H. apply IH in H as (vals & Hvals & Hargs). cbn in Hargs.
    exists (v :: vals). split; [constructor; assumption|].
    rewrite Hargs, <- app_assoc. reflexivity.
Qed.

Lemma bind_arg_tensor (kernelArgs : list KernelArg) (st st' : ArgLoop) (i : nat)
    (tensor : at_Tensor) (karg : KernelArg) :
  kernelArgs !! i = Some karg ->
  bind_arg kernelArgs st (i, IV_Tensor tensor) = Ok st' ->
  exists sizes strides,
    Forall2 (fun sa v => at_sizes tensor !! idx sa = Some v) (ka_sizes karg) sizes /\
    Forall2 (fun sa v => at_strides tensor !! idx sa = Some v) (ka_strides karg) strides /\
    al_run_args st' =
      al_run_args st ++ [CA_Ptr (at_data_ptr tensor)]
        ++ (CA_Int ∘ to_int32 <$> sizes) ++ (CA_Int ∘ to_int32 <$> strides).
Proof.
  intros Hk. unfold bind_arg, at_index. rewrite Hk. cbn [of_option mbind Res_bind].
  destruct (foldlM (bind_size tensor) _ (ka_sizes karg)) as [st1|] eqn:E1;
    cbn [mbind Res_bind]; [|discriminate].
  intros E2.
  apply bind_sizes_args in E1 as (sizes & Hsizes & H1).
  apply bind_strides_args in E2 as (strides & Hstrides & H2).
  exists sizes, strides. split; [exact Hsizes|]. split; [exact Hstrides|].
  rewrite H2, H1. cbn [al_run_args]. rewrite <- !app_assoc. reflexivity.
Qed.

Lemma to_int32_fixed (x : Z) :
  to_int32 x = x <-> -2147483648 <= x < 2147483648.
Proof.
  split; [intros <-; apply to_int32_range | apply to_int32_id].
Qed.

(** C10.  At every call the arguments are narrowed on their way to the
    compiled kernel: an integer scalar becomes [(int32_t)] of itself, a
    double scalar becomes [(float)] of itself, and every registered size and
    stride read from an input tensor becomes [(int32_t)] of itself.
    [(int32_t) x] is in the 32-bit range and is [x] only when [x] already
    is; [2^32 + 5] becomes 5, and the double 0.1 becomes the float 0.1f,
    another number.  In the example call the stride [2^32 + 3], the double
    0.1 and the integer [2^32 + 5] reach the kernel as 3, 0.1f and 5, and
    the call succeeds. *)
Theorem run_arguments_narrowed :
  (forall (kernelArgs : list KernelArg) (st : ArgLoop) (i : nat) (n : Z),
     bind_arg kernelArgs st (i, IV_Int n) =
       Ok (mkArgLoop (al_run_args st ++ [CA_Int (to_int32 n)]) (al_varToSize st))) /\
  (forall (kernelArgs : list KernelArg) (st : ArgLoop) (i : nat) (d : float64),
     bind_arg kernelArgs st (i, IV_Double d) =
       Ok (mkArgLoop (al_run_args st ++ [CA_Float (double_to_float d)]) (al_varToSize st))) /\
  (forall (kernelArgs : list KernelArg) (st st' : ArgLoop) (i : nat)
          (tensor : at_Tensor) (karg : KernelArg),
     kernelArgs !! i = Some karg ->
     bind_arg kernelArgs st (i, IV_Tensor tensor) = Ok st' ->
     exists sizes strides,
       Forall2 (fun sa v => at_sizes tensor !! idx sa = Some v) (ka_sizes karg) sizes /\
       Forall2 (fun sa v => at_strides tensor !! idx sa = Some v) (ka_strides karg) strides /\
       al_run_args st' =
         al_run_args st ++ [CA_Ptr (at_data_ptr tensor)]
           ++ (CA_Int ∘ to_int32 <$> sizes) ++ (CA_Int ∘ to_int32 <$> strides)) /\
  (forall x : Z,
     -2147483648 <= to_int32 x < 2147483648 /\
     (to_int32 x = x <-> -2147483648 <= x < 2147483648)) /\
  (to_int32 (2 ^ 32 + 5) = 5 /\ to_int32 (2 ^ 31) = - 2 ^ 31) /\
  (double_to_float d_0_1 = f_0_1 /\ 13421773 * 2 ^ 29 <> 7205759403792794 /\
   double_to_float (S754_finite false 1 (-1)) = f_0_5) /\
  (exists k0 k1 out,
     new_kernel chunk_unavailable ex_scalar_graph = Ok k0 /\
     run ex_cfg ex_alloc k0
       [cpu_tensor [4] [2 ^ 32 + 3]; IV_Double d_0_1; IV_Int (2 ^ 32 + 5)] = (k1, Ok out) /\
     last (events k1) =
       Some (EvCall [CA_Ptr 1000; CA_Int 4; CA_Int 3; CA_Float f_0_1; CA_Int 5; CA_Ptr 2000])).
Proof.
  split; [reflexivity|].
  split; [reflexivity|].
  split; [exact bind_arg_tensor|].
  split; [intros x; split; [apply to_int32_range | apply to_int32_fixed]|].
  split; [split; reflexivity|].
  split; [split; [vm_compute; reflexivity | split; [discriminate | vm_compute; reflexivity]]|].
  eexists. eexists. eexists.
  split; [vm_compute; reflexivity|].
  split; vm_compute; reflexivity.
Qed.

Lemma run_arguments_narrowed_witness :
  exists sizes strides,
    Forall2 (fun sa v => [4] !! idx sa = Some v) [mkShapeArg 0 (Var "size_0_0" kInt32)] sizes /\
    Forall2 (fun sa v => [2 ^ 32 + 3] !! idx sa = Some v)
      [mkShapeArg 0 (Var "stride_tx_0" kInt32)] strides /\
    [CA_Ptr 1000; CA_Int 4; CA_Int 3] =
      [] ++ [CA_Ptr 1000] ++ (CA_Int ∘ to_int32 <$> sizes) ++ (CA_Int ∘ to_int32 <$> strides).
Proof.
  destruct run_arguments_narrowed as (_ & _ & H & _).
  apply (H [mkKernelArg (mkBufferArg "tx" kFloat32 false)
              [mkShapeArg 0 (Var "size_0_0" kInt32)]
              [mkShapeArg 0 (Var "stride_tx_0" kInt32)]]
           (mkArgLoop [] ∅)
           (mkArgLoop [CA_Ptr 1000; CA_Int 4; CA_Int 3] {["size_0_0" := 4]})
           0%nat
           (mkAtTensor (mkDevice kCPU (-1)) ST_Float [4] [2 ^ 32 + 3] 1000)
           (mkKernelArg (mkBufferArg "tx" kFloat32 false)
              [mkShapeArg 0 (Var "size_0_0" kInt32)]
              [mkShapeArg 0 (Var "stride_tx_0" kInt32)])).
  - reflexivity.
  - vm_compute. reflexivity.
Defined.

(** * Further properties of the code *)

(** ** Broadcasting composes *)

Lemma isOne_spec (e : Expr) : isOne e = true <-> e = IntImm 1.
Proof.
  unfold isOne. destruct e; cbn; try (split; [discriminate | intros H; discriminate H]).
  rewrite Z.eqb_eq. split; [intros ->; reflexivity | intros [= ->]; reflexivity].
Qed.

Lemma broadcast_loop_nil_r (a : list Expr) : broadcast_loop a [] = a.
Proof. destruct a; reflexivity. Qed.

Lemma broadcast_loop_assoc (a b c : list Expr) :
  broadcast_loop (broadcast_loop a b) c = broadcast_loop a (broadcast_loop b c).
Proof.
  revert b c. induction a as [|x a IH]; intros [|y b] [|z c]; cbn; try reflexivity.
  rewrite IH. f_equal.
  destruct (isOne x) eqn:Ex; [reflexivity|]. rewrite Ex. reflexivity.
Qed.

Lemma broadcast_loop_idemp (a : list Expr) : broadcast_loop a a = a.
Proof.
  induction a as [|x a IH]; cbn; [reflexivity|].
  rewrite IH. destruct (isOne x); reflexivity.
Qed.

(** X1.  Broadcasting is associative, so that the variadic overload, which
    folds from the left, gives the shape of any grouping of its operands;
    it is idempotent; the empty shape is neutral on both sides, and so is
    the shape [[1]] of a scalar next to any shape that is not empty. *)
Theorem broadcastShapes_monoid :
  (forall a b c : list Expr,
     broadcastShapes (broadcastShapes a b) c = broadcastShapes a (broadcastShapes b c)) /\
  (forall a b c d : list Expr,
     broadcastShapesN a b [c; d] = broadcastShapes a (broadcastShapes b (broadcastShapes c d))) /\
  (forall a : list Expr, broadcastShapes a a = a) /\
  (forall a : list Expr, broadcastShapes a [] = a /\ broadcastShapes [] a = a) /\
  (forall a : list Expr,
     a <> [] ->
     broadcastShapes a [IntImm 1] = a /\ broadcastShapes [IntImm 1] a = a).
Proof.
  assert (Hassoc : forall a b c : list Expr,
    broadcastShapes (broadcastShapes a b) c = broadcastShapes a (broadcastShapes b c)).
  { intros a b c. unfold broadcastShapes.
    rewrite !reverse_involutive, broadcast_loop_assoc. reflexivity. }
  split; [exact Hassoc|].
  split; [intros a b c d; unfold broadcastShapesN; cbn [foldl];
          rewrite !Hassoc; reflexivity|].
  split; [intros a; unfold broadcastShapes;
          rewrite broadcast_loop_idemp, reverse_involutive; reflexivity|].
  split.
  { intros a. unfold broadcastShapes. rewrite reverse_nil.
    rewrite broadcast_loop_nil_r. cbn [broadcast_loop].
    rewrite reverse_involutive. split; reflexivity. }
  intros a Ha. unfold broadcastShapes.
  destruct (reverse a) as [|x ra] eqn:Er.
  { apply (f_equal reverse) in Er. rewrite reverse_involutive in Er.
    rewrite reverse_nil in Er. contradiction. }
  assert (Ha' : a = reverse (x :: ra))
    by (rewrite <- Er, reverse_involutive; reflexivity).
  change (reverse [IntImm 1]) with [IntImm 1]. cbn [broadcast_loop isOne AsNode_IntImm].
  rewrite broadcast_loop_nil_r. change (1 =? 1) with true. cbn [broadcast_loop].
  split; [|symmetry; exact Ha'].
  destruct (isOne x) eqn:Ex.
  - apply isOne_spec in Ex. subst x. symmetry. exact Ha'.
  - symmetry. exact Ha'.
Qed.

Lemma broadcastShapes_monoid_witness :
  broadcastShapes [IntImm 5; IntImm 3] [IntImm 1] = [IntImm 5; IntImm 3] /\
  broadcastShapes [IntImm 1] [IntImm 5; IntImm 3] = [IntImm 5; IntImm 3].
Proof.
  apply (proj2 (proj2 (proj2 (proj2 broadcastShapes_monoid)))). discriminate.
Defined.

(** ** Promotion and demotion are idempotent *)

Lemma promote_one_float (e : Expr) : dtype e = kFloat32 -> promote_one e = e.
Proof.
  intros H. unfold promote_one. destruct (decide (dtype e = kInt32)); [congruence|reflexivity].
Qed.

Lemma promote_one_idemp (e : Expr) : promote_one (promote_one e) = promote_one e.
Proof.
  destruct (decide (dtype e = kInt32)) as [H|H].
  - assert (E : promote_one e = Cast kFloat32 e)
      by (unfold promote_one; destruct (decide (dtype e = kInt32)); [reflexivity|contradiction]).
    rewrite E. apply promote_one_float. reflexivity.
  - assert (E : promote_one e = e)
      by (unfold promote_one; destruct (decide (dtype e = kInt32)); [contradiction|reflexivity]).
    rewrite !E. reflexivity.
Qed.

(** X2.  [promoteInputs] keeps the number and the order of the operands,
    leaves every float operand as it is, and promoting twice is promoting
    once; a demoted result is not demoted again. *)
Theorem promote_demote_idempotent :
  (forall inputs : list Expr, length (promoteInputs inputs) = length inputs) /\
  (forall (inputs : list Expr) (i : nat) (e : Expr),
     inputs !! i = Some e -> dtype e = kFloat32 -> promoteInputs inputs !! i = Some e) /\
  (forall inputs : list Expr,
     promoteInputs (promoteInputs inputs) = promoteInputs inputs) /\
  (forall (e e' : Expr) (v : Value),
     demoteOutput e v = Ok e' -> demoteOutput e' v = Ok e').
Proof.
  split; [|split; [|split]].
  - intros inputs. unfold promoteInputs. destruct (negb _); [reflexivity|].
    apply length_fmap.
  - intros inputs i e Hi He. unfold promoteInputs. destruct (negb _); [exact Hi|].
    rewrite list_lookup_fmap, Hi. cbn. destruct (decide (dtype e = kInt32)); [congruence|].
    reflexivity.
  - intros inputs.
    destruct (existsb (fun e => bool_decide (dtype e = kFloat32)) inputs) eqn:E.
    + apply any_float_Exists in E.
      rewrite (promoteInputs_float inputs E).
      assert (E' : Exists (fun e => dtype e = kFloat32) (promote_one <$> inputs)).
      { apply Exists_fmap. eapply Exists_impl; [exact E|].
        intros e He. cbn. rewrite promote_one_float by exact He. exact He. }
      rewrite (promoteInputs_float _ E'), <- list_fmap_compose.
      apply list_fmap_ext. intros _ e _. apply promote_one_idemp.
    + assert (Hid : promoteInputs inputs = inputs)
        by (unfold promoteInputs; rewrite E; reflexivity).
      rewrite !Hid. reflexivity.
  - intros e e' v. unfold demoteOutput.
    destruct (type v) as [st sizes strides contiguity| | | | |]; try discriminate.
    destruct (bool_decide (dtype e = kFloat32) && bool_decide (st = Some ST_Int)) eqn:E.
    + intros [= <-]. cbn [dtype]. reflexivity.
    + intros [= <-]. rewrite E. reflexivity.
Qed.

Lemma promote_demote_idempotent_witness :
  promoteInputs [IntImm 2; FloatImm f_0_5] !! 1%nat = Some (FloatImm f_0_5) /\
  demoteOutput (Cast kInt32 (FloatImm f_0_5)) ex_dy = Ok (Cast kInt32 (FloatImm f_0_5)).
Proof.
  destruct promote_demote_idempotent as (_ & Hkeep & _ & Hdem).
  split.
  - apply Hkeep; reflexivity.
  - apply (Hdem (Cast kInt32 (FloatImm f_0_5))). reflexivity.
Defined.

(** ** When the index expression of an input can be built *)

Lemma foldlM_Ok_steps {A B} (f : A -> B -> Res A) (l : list B) (a a' : A) :
  foldlM f a l = Ok a' -> Forall (fun x => exists s s', f s x = Ok s') l.
Proof.
  revert a. induction l as [|x l IH]; intros a; cbn; [constructor|].
  destruct (f a x) as [a1|e] eqn:E; cbn; [|discriminate].
  intros H. constructor; [eauto | eapply IH; exact H].
Qed.

Lemma foldlM_Err_step {A B} (f : A -> B -> Res A) (l : list B) (a : A) (e : Failure) :
  foldlM f a l = Err e -> exists s x, x ∈ l /\ f s x = Err e.
Proof.
  revert a. induction l as [|x l IH]; intros a; cbn; [discriminate|].
  destruct (f a x) as [a1|e1] eqn:E; cbn.
  - intros H. destruct (IH _ H) as (s & y & Hy & Hs).
    exists s, y. split; [apply list_elem_of_further; exact Hy | exact Hs].
  - intros [= <-]. exists a, x. split; [apply list_elem_of_here | exact E].
Qed.

Lemma index_step_Ok_bound (buffer : Buffer) (axes : list Expr) (sizes contiguity : list Z)
    (sizeVars : gmap Z Expr) (n i : nat) (st st' : IndexLoop) (s : Z) :
  index_step buffer axes sizes contiguity sizeVars n st i = Ok st' ->
  sizes !! (n - i)%nat = Some s -> s < 0 -> is_Some (sizeVars !! s).
Proof.
  unfold index_step, at_index. intros H Hs Hneg.
  destruct (contiguity !! i) as [c|]; cbn [of_option mbind Res_bind] in H; [|discriminate].
  destruct (if c =? 0 then _ else _) as [stride strideArgs].
  rewrite Hs in H. cbn [of_option mbind Res_bind] in H.
  replace (s <? 0) with true in H by lia.
  destruct (sizeVars !! s) as [v|]; [eauto|]. discriminate H.
Qed.

Lemma index_step_Err (buffer : Buffer) (axes : list Expr) (sizes contiguity : list Z)
    (sizeVars : gmap Z Expr) (i : nat) (st : IndexLoop) (e : Failure) :
  length sizes = length axes ->
  length contiguity = length axes ->
  (i < length axes)%nat ->
  index_step buffer axes sizes contiguity sizeVars (length axes - 1) st i = Err e ->
  e = Fatal "TORCH_CHECK(it != sizeVars.end())".
Proof.
  intros Hs Hc Hi. unfold index_step, at_index.
  destruct (contiguity !! i) as [c|] eqn:Ec; [|apply lookup_ge_None in Ec; lia].
  cbn [of_option mbind Res_bind].
  destruct (if c =? 0 then _ else _) as [stride strideArgs].
  destruct (sizes !! (length axes - 1 - i)%nat) as [s|] eqn:Es;
    [|apply lookup_ge_None in Es; lia].
  destruct (axes !! (length axes - 1 - i)%nat) as [ax|] eqn:Ea;
    [|apply lookup_ge_None in Ea; lia].
  cbn [of_option mbind Res_bind].
  destruct (s <? 0).
  - destruct (sizeVars !! s) as [v|]; cbn [of_option mbind Res_bind].
    + discriminate.
    + intros [= <-]. reflexivity.
  - cbn [mbind Res_bind]. discriminate.
Qed.

(** X3.  [createInputIndexExpr] refuses a list of strides that has not the
    length of the axes.  With sizes, strides and contiguity flags of the
    length of the axes, it succeeds exactly when every unknown size has its
    size variable in [sizeVars], and the only failure is the check on that
    lookup (in particular a zero-dimensional tensor always gets the index
    0). *)
Theorem createInputIndexExpr_succeeds_iff :
  (forall buffer axes sizes strides contiguity sizeVars,
     length axes <> length strides ->
     createInputIndexExpr buffer axes sizes strides contiguity sizeVars =
       Err (Fatal "strides and axes are not the same size")) /\
  (forall buffer axes sizes strides contiguity sizeVars,
     length strides = length axes ->
     length sizes = length axes ->
     length contiguity = length axes ->
     (is_ok (createInputIndexExpr buffer axes sizes strides contiguity sizeVars) = true <->
      sizes_bound sizes sizeVars) /\
     (forall e,
        createInputIndexExpr buffer axes sizes strides contiguity sizeVars = Err e ->
        e = Fatal "TORCH_CHECK(it != sizeVars.end())")) /\
  (forall buffer sizeVars,
     createInputIndexExpr buffer [] [] [] [] sizeVars =
       Ok (Load (buf_name buffer) (buf_dtype buffer) (IntImm 0),
           mkKernelArg (mkBufferArg (buf_name buffer) (buf_dtype buffer) false) [] [])).
Proof.
  split; [|split; [|reflexivity]].
  - intros buffer axes sizes strides contiguity sizeVars Hne.
    unfold createInputIndexExpr. rewrite bool_decide_false by exact Hne. reflexivity.
  - intros buffer axes sizes strides contiguity sizeVars Hst Hs Hc. split.
    + split.
      * unfold createInputIndexExpr. rewrite bool_decide_true by congruence. cbn [negb].
        destruct (foldlM _ _ _) as [st|e] eqn:E; [|discriminate]. intros _.
        apply foldlM_Ok_steps in E. rewrite Forall_forall in E.
        apply Forall_lookup. intros j s Hj Hneg.
        assert (Hlt : (j < length axes)%nat)
          by (rewrite <- Hs; eapply lookup_lt_Some; exact Hj).
        destruct (E (length axes - 1 - j)%nat) as (s1 & s2 & Hstep).
        { apply elem_of_seq. lia. }
        eapply index_step_Ok_bound; [exact Hstep| |exact Hneg].
        replace (length axes - 1 - (length axes - 1 - j))%nat with j by lia. exact Hj.
      * intros Hb.
        rewrite (createInputIndexExpr_closed_form buffer axes sizes strides contiguity sizeVars)
          by assumption. reflexivity.
    + intros e. unfold createInputIndexExpr. rewrite bool_decide_true by congruence.
      cbn [negb]. destruct (foldlM _ _ _) as [st|e'] eqn:E; [discriminate|].
      intros [= <-]. apply foldlM_Err_step in E as (s & i & Hi & Hstep).
      apply elem_of_seq in Hi.
      eapply index_step_Err; [exact Hs | exact Hc | | exact Hstep]. lia.
Qed.

Lemma createInputIndexExpr_succeeds_iff_witness :
  createInputIndexExpr (mkBuffer "tA" kFloat32) (axis_vars 1) [3] [1; 1] [1] ∅ =
    Err (Fatal "strides and axes are not the same size") /\
  (forall e,
     createInputIndexExpr (mkBuffer "tA" kFloat32) (axis_vars 1) [-1] [1] [1] ∅ = Err e ->
     e = Fatal "TORCH_CHECK(it != sizeVars.end())").
Proof.
  destruct createInputIndexExpr_succeeds_iff as (Hlen & Hiff & _).
  split.
  - apply Hlen. discriminate.
  - apply (Hiff (mkBuffer "tA" kFloat32) (axis_vars 1) [-1] [1] [1] ∅); reflexivity.
Defined.

(** ** The dimensions and size variables of a bound input *)

Lemma bind_dims_snoc (u : Z) (l : list Z) (x : Z) :
  bind_dims u (l ++ [x]) = bind_dims_step u (bind_dims u l) (length l, x).
Proof.
  unfold bind_dims. rewrite imap_app, foldl_app. cbn [imap foldl].
  rewrite Nat.add_0_r. reflexivity.
Qed.

Lemma bind_dims_invariant (u : Z) (l : list Z) :
  length (bind_dims u l).2 = length l /\
  (forall i s, l !! i = Some s -> (bind_dims u l).2 !! i = Some (input_dim u i s)) /\
  (forall s, s < 0 -> s ∈ l -> is_Some ((bind_dims u l).1 !! s)) /\
  (forall s v, (bind_dims u l).1 !! s = Some v ->
     s < 0 /\
     exists i, l !! i = Some s /\ v = size_var u i /\
               forall j, (j < i)%nat -> l !! j <> Some s).
Proof.
  induction l as [|x l IH] using rev_ind.
  - cbn. split; [reflexivity|]. split; [intros i s H; discriminate H|].
    split; [intros s _ H; inversion H|].
    intros s v H. rewrite lookup_empty in H. discriminate.
  - rewrite bind_dims_snoc.
    destruct (bind_dims u l) as [sv ds]. cbn [fst snd] in IH.
    destruct IH as (Hlen & Hdim & Hbound & Hvars).
    unfold bind_dims_step.
    assert (Hds : forall d, length (ds ++ [d]) = length (l ++ [x]))
      by (intros d; rewrite !length_app, Hlen; reflexivity).
    assert (Hlk : forall i s, (l ++ [x]) !! i = Some s ->
              (ds ++ [input_dim u (length l) x]) !! i = Some (input_dim u i s)).
    { intros i s H. destruct (decide (i < length l)%nat) as [Hi|Hi].
      - rewrite lookup_app_l in H by exact Hi.
        rewrite lookup_app_l by lia. apply Hdim, H.
      - rewrite lookup_app_r in H by lia. rewrite lookup_app_r by lia.
        rewrite Hlen. destruct (i - length l)%nat as [|m] eqn:Em; [|discriminate H].
        cbn in H. injection H as <-. replace i with (length l) by lia. reflexivity. }
    destruct (x <? 0) eqn:Ex.
    + cbn [fst snd]. split; [apply Hds|].
      split; [intros i s H; specialize (Hlk i s H); unfold input_dim in Hlk at 1;
              rewrite Ex in Hlk; exact Hlk|].
      split.
      * intros s Hneg Hin. apply elem_of_app in Hin as [Hin|Hin].
        -- destruct (Hbound s Hneg Hin) as [v Hv].
           destruct (sv !! x) eqn:Esx; [eauto|].
           destruct (decide (s = x)) as [->|Hne]; [congruence|].
           rewrite lookup_insert_ne by congruence. eauto.
        -- apply list_elem_of_singleton in Hin as ->.
           destruct (sv !! x) eqn:Esx; [eauto|].
           rewrite lookup_insert_eq. eauto.
      * intros s v H.
        assert (Hold : sv !! s = Some v ->
                  s < 0 /\ exists i, (l ++ [x]) !! i = Some s /\ v = size_var u i /\
                    forall j, (j < i)%nat -> (l ++ [x]) !! j <> Some s).
        { intros Hs. destruct (Hvars s v Hs) as (Hneg & i & Hi & Hv & Hfirst).
          split; [exact Hneg|]. exists i.
          assert (i < length l)%nat by (eapply lookup_lt_Some; exact Hi).
          split; [rewrite lookup_app_l by lia; exact Hi|].
          split; [exact Hv|].
          intros j Hj. rewrite lookup_app_l by lia. apply Hfirst, Hj. }
        destruct (sv !! x) eqn:Esx; [apply Hold, H|].
        destruct (decide (s = x)) as [->|Hne].
        -- rewrite lookup_insert_eq in H. injection H as <-.
           split; [lia|]. exists (length l).
           split; [rewrite lookup_app_r by lia; rewrite Nat.sub_diag; reflexivity|].
           split; [reflexivity|].
           intros j Hj Hlj. rewrite lookup_app_l in Hlj by lia.
           assert (Hin : x ∈ l) by (eapply list_elem_of_lookup_2; exact Hlj).
           destruct (Hbound x ltac:(lia) Hin) as [v Hv]. congruence.
        -- rewrite lookup_insert_ne in H by congruence. apply Hold, H.
    + cbn [fst snd]. split; [apply Hds|].
      split; [intros i s H; specialize (Hlk i s H); unfold input_dim in Hlk at 1;
              rewrite Ex in Hlk; exact Hlk|].
      split.
      * intros s Hneg Hin. apply elem_of_app in Hin as [Hin|Hin]; [apply Hbound; assumption|].
        apply list_elem_of_singleton in Hin as ->. lia.
      * intros s v Hs. destruct (Hvars s v Hs) as (Hneg & i & Hi & Hv & Hfirst).
        split; [exact Hneg|]. exists i.
        assert (i < length l)%nat by (eapply lookup_lt_Some; exact Hi).
        split; [rewrite lookup_app_l by lia; exact Hi|].
        split; [exact Hv|].
        intros j Hj. rewrite lookup_app_l by lia. apply Hfirst, Hj.
Qed.

Lemma bind_dims_sizes_bound (u : Z) (l : list Z) : sizes_bound l (bind_dims u l).1.
Proof.
  apply Forall_forall. intros s Hin Hneg.
  apply (bind_dims_invariant u l); assumption.
Qed.

Lemma axis_vars_length (n : nat) : length (axis_vars n) = n.
Proof. unfold axis_vars. rewrite length_fmap, length_seq. reflexivity. Qed.

(** X4.  The loop of [bindInput] over the declared sizes gives the input
    tensor one dimension per declared size: the constant (narrowed to 32
    bits) for a known size, the variable [size_<unique>_<i>] for an unknown
    one.  The size-variable map holds exactly the negative sizes that occur,
    each with the variable of its first axis.  So binding a tensor input
    whose strides and contiguity flags have the rank of its sizes succeeds
    exactly when its scalar type is Int or Float; binding a Float or Int
    scalar always succeeds, and any other input type is refused. *)
Theorem bindInput_dims_and_success :
  (forall (u : Z) (sizes : list Z),
     length (bind_dims u sizes).2 = length sizes /\
     (forall i s, sizes !! i = Some s ->
        (bind_dims u sizes).2 !! i =
          Some (if s <? 0 then size_var u i else IntImm (to_int32 s))) /\
     (forall s, is_Some ((bind_dims u sizes).1 !! s) <-> s < 0 /\ s ∈ sizes) /\
     (forall s v, (bind_dims u sizes).1 !! s = Some v ->
        exists i, sizes !! i = Some s /\ v = size_var u i /\
                  forall j, (j < i)%nat -> sizes !! j <> Some s)) /\
  (forall (k : TensorExprKernel) (input : Value) st sizes strides contiguity,
     type input = TensorType st sizes strides contiguity ->
     length strides = length sizes ->
     length contiguity = length sizes ->
     (is_ok (bindInput k input) = true <-> st = Some ST_Int \/ st = Some ST_Float)) /\
  (forall (k : TensorExprKernel) (input : Value),
     type input = FloatType \/ type input = IntType ->
     is_ok (bindInput k input) = true) /\
  (forall (k : TensorExprKernel) (input : Value),
     type input = BoolType \/ type input = NoneType \/ type input = ListType ->
     bindInput k input = Err (Fatal "Unhandled input type")).
Proof.
  split; [|split; [|split]].
  - intros u sizes. destruct (bind_dims_invariant u sizes) as (Hlen & Hdim & Hbound & Hvars).
    split; [exact Hlen|]. split; [exact Hdim|]. split.
    + intros s. split.
      * intros [v Hv]. destruct (Hvars s v Hv) as (Hneg & i & Hi & _).
        split; [exact Hneg|]. eapply list_elem_of_lookup_2. exact Hi.
      * intros [Hneg Hin]. apply Hbound; assumption.
    + intros s v Hv. destruct (Hvars s v Hv) as (_ & H). exact H.
  - intros k input st sizes strides contiguity Hty Hst Hc.
    unfold bindInput. rewrite Hty.
    pose proof (bind_dims_sizes_bound (unique input) sizes) as Hb.
    pose proof (proj1 (bind_dims_invariant (unique input) sizes)) as Hlen.
    destruct (bind_dims (unique input) sizes) as [sizeVars inputTensorDims].
    cbn [fst snd] in Hb, Hlen.
    assert (Hax : length (axis_vars (length inputTensorDims)) = length sizes)
      by (rewrite axis_vars_length; exact Hlen).
    assert (Hok : forall dt,
      is_ok (createInputIndexExpr (mkBuffer ("t" +:+ debugName input) dt)
               (axis_vars (length inputTensorDims)) sizes strides contiguity sizeVars) = true).
    { intros dt. rewrite createInputIndexExpr_closed_form; [reflexivity| | | |exact Hb];
        congruence. }
    split.
    + destruct st as [[]|]; cbn; try discriminate; intros _; [left|right]; reflexivity.
    + intros [-> | ->]; cbn [texprType mbind Res_bind].
      * specialize (Hok kInt32). destruct (createInputIndexExpr _ _ _ _ _ _) as [[b karg]|];
          [reflexivity|discriminate Hok].
      * specialize (Hok kFloat32). destruct (createInputIndexExpr _ _ _ _ _ _) as [[b karg]|];
          [reflexivity|discriminate Hok].
  - intros k input [H|H]; unfold bindInput; rewrite H; reflexivity.
  - intros k input [H|[H|H]]; unfold bindInput; rewrite H; reflexivity.
Qed.

Lemma bindInput_dims_and_success_witness :
  (bind_dims 7 [2; -1; -1]).2 !! 2%nat = Some (size_var 7 2) /\
  (exists i, [2; -1; -1] !! i = Some (-1) /\
             Var "size_7_1" kInt32 = size_var 7 i /\
             forall j, (j < i)%nat -> [2; -1; -1] !! j <> Some (-1)) /\
  (is_ok (bindInput ex_locked_kernel ex_dx) = true <->
   Some ST_Float = Some ST_Int \/ Some ST_Float = Some ST_Float).
Proof.
  destruct bindInput_dims_and_success as (Hdims & Hten & _).
  destruct (Hdims 7 [2; -1; -1]) as (_ & Hdim & _ & Hvars).
  split; [apply (Hdim 2%nat (-1)); reflexivity|].
  split; [apply (Hvars (-1) (Var "size_7_1" kInt32)); reflexivity|].
  apply (Hten ex_locked_kernel ex_dx (Some ST_Float) [-1] [1] [1]); reflexivity.
Defined.

(** ** What a bound input reads back as *)

Lemma createInputIndexExpr_shape (buffer : Buffer) (axes : list Expr)
    (sizes strides contiguity : list Z) (sizeVars : gmap Z Expr) (b : Expr) (karg : KernelArg) :
  createInputIndexExpr buffer axes sizes strides contiguity sizeVars = Ok (b, karg) ->
  (exists index, b = Load (buf_name buffer) (buf_dtype buffer) index) /\
  ka_buffer karg = mkBufferArg (buf_name buffer) (buf_dtype buffer) false.
Proof.
  unfold createInputIndexExpr.
  destruct (negb _); [discriminate|].
  destruct (foldlM _ _ _) as [st|]; cbn [mbind Res_bind]; [|discriminate].
  intros [= <- <-]. split; [eauto|reflexivity].
Qed.

Lemma bindInput_frame (k k' : TensorExprKernel) (input : Value) :
  bindInput k input = Ok k' ->
  n_inputs_ k' = n_inputs_ k /\ tensor_outputs_ k' = tensor_outputs_ k /\
  backend_type_ k' = backend_type_ k /\ device_ k' = device_ k /\
  codegen_ k' = codegen_ k /\ events k' = events k /\
  exists karg, kernelArgs_ k' = kernelArgs_ k ++ [karg].
Proof.
  unfold bindInput. destruct (type input) as [st sizes strides contiguity| | | | |];
    try discriminate.
  - destruct (texprType st) as [dt|]; cbn [mbind Res_bind]; [|discriminate].
    destruct (bind_dims (unique input) sizes) as [sizeVars inputTensorDims].
    destruct (createInputIndexExpr _ _ _ _ _ _) as [[b karg]|]; cbn [mbind Res_bind];
      [|discriminate].
    intros [= <-]. cbn. eauto 10.
  - intros [= <-]. cbn. eauto 10.
  - intros [= <-]. cbn. eauto 10.
Qed.

(** X5.  A bound input reads back as it was declared.  A scalar input that
    is no constant is afterwards the variable [v<name>] of its type wherever
    an operand is looked up; a tensor input is the tensor ["input"] whose
    element type converts back to the declared scalar type and whose shape
    is the one the declared sizes give.  Binding appends exactly one kernel
    argument and touches neither the outputs, the backend, the device, the
    code generator nor the trace; and every value number that is already
    bound, as a tensor or as a scalar, keeps the binding it has: binding an
    input whose number is taken leaves that map as it was. *)
Theorem bindInput_round_trip :
  (forall (k k' : TensorExprKernel) (input : Value) (axes : list Expr),
     type input = FloatType \/ type input = IntType ->
     kind (node input) <> prim_Constant ->
     scalars_ k !! unique input = None ->
     tensors_ k !! unique input = None ->
     bindInput k input = Ok k' ->
     tensorOrConstant k' input axes =
       Ok (Var ("v" +:+ debugName input)
             (match type input with FloatType => kFloat32 | _ => kInt32 end))) /\
  (forall (k k' : TensorExprKernel) (input : Value) st sizes strides contiguity,
     type input = TensorType (Some st) sizes strides contiguity ->
     tensors_ k !! unique input = None ->
     bindInput k input = Ok k' ->
     exists t,
       tensors_ k' !! unique input = Some t /\
       func_var t = "input" /\
       tensorType t = Ok st /\
       valueShape (tensors_ k') input = (bind_dims (unique input) sizes).2 /\
       args t = axis_vars (length sizes)) /\
  (forall (k k' : TensorExprKernel) (input : Value),
     bindInput k input = Ok k' ->
     n_inputs_ k' = n_inputs_ k /\ tensor_outputs_ k' = tensor_outputs_ k /\
     backend_type_ k' = backend_type_ k /\ device_ k' = device_ k /\
     codegen_ k' = codegen_ k /\ events k' = events k /\
     exists karg, kernelArgs_ k' = kernelArgs_ k ++ [karg]) /\
  (forall (k k' : TensorExprKernel) (input : Value),
     bindInput k input = Ok k' ->
     (forall u, is_Some (tensors_ k !! u) -> tensors_ k' !! u = tensors_ k !! u) /\
     (forall u, is_Some (scalars_ k !! u) -> scalars_ k' !! u = scalars_ k !! u) /\
     (is_Some (tensors_ k !! unique input) -> tensors_ k' = tensors_ k) /\
     (is_Some (scalars_ k !! unique input) -> scalars_ k' = scalars_ k)).
Proof.
  split; [|split; [|split]].
  - intros k k' input axes Hty Hkind Hs Ht. unfold bindInput, tensorOrConstant, constant.
    destruct (decide (kind (node input) = prim_Constant)) as [|_]; [contradiction|].
    destruct Hty as [Hty|Hty]; rewrite Hty; intros [= <-]; cbn [tensors_ scalars_];
      rewrite Ht; unfold emplace; rewrite Hs, lookup_insert_eq; reflexivity.
  - intros k k' input st sizes strides contiguity Hty Hfresh Hbind.
    pose proof (bindInput_tensor_dims k k' input (Some st) sizes strides contiguity
                  Hty Hfresh Hbind) as Hdims.
    revert Hbind Hdims. unfold bindInput. rewrite Hty.
    destruct (texprType (Some st)) as [dt|] eqn:Edt; cbn [mbind Res_bind]; [|discriminate].
    pose proof (proj1 (bind_dims_invariant (unique input) sizes)) as Hlen.
    destruct (bind_dims (unique input) sizes) as [sizeVars inputTensorDims].
    cbn [fst snd] in Hlen |- *.
    destruct (createInputIndexExpr _ _ _ _ _ _) as [[b karg]|] eqn:Ec; cbn [mbind Res_bind];
      [|discriminate].
    apply createInputIndexExpr_shape in Ec as [[index ->] _].
    intros [= <-]. cbn [tensors_]. unfold emplace. rewrite Hfresh, lookup_insert_eq.
    intros _. eexists. split; [reflexivity|]. cbn [func_var args].
    split; [reflexivity|]. split.
    + unfold tensorType. cbn [body dtype buf_dtype].
      destruct st; cbn in Edt; try discriminate; injection Edt as <-; reflexivity.
    + split; [|rewrite Hlen; reflexivity].
      unfold valueShape. rewrite lookup_insert_eq. reflexivity.
  - intros k k' input H. apply bindInput_frame in H. exact H.
  - intros k k' input.
    assert (Hkeep : forall {A} (key : Z) (a : A) (m : gmap Z A),
              (forall u, is_Some (m !! u) -> emplace key a m !! u = m !! u) /\
              (is_Some (m !! key) -> emplace key a m = m)).
    { intros A key a m. unfold emplace. split.
      - intros u [x Hx]. destruct (m !! key) eqn:Ek; [reflexivity|].
        apply lookup_insert_ne. intros ->. congruence.
      - intros [x Hx]. rewrite Hx. reflexivity. }
    unfold bindInput.
    destruct (type input) as [st sizes strides contiguity| | | | |]; try discriminate.
    + destruct (texprType st) as [dt|]; cbn [mbind Res_bind]; [|discriminate].
      destruct (bind_dims (unique input) sizes) as [sizeVars inputTensorDims].
      destruct (createInputIndexExpr _ _ _ _ _ _) as [[b karg]|]; cbn [mbind Res_bind];
        [|discriminate].
      intros [= <-]. cbn [tensors_ scalars_].
      split; [apply Hkeep|]. split; [reflexivity|]. split; [apply Hkeep | reflexivity].
    + intros [= <-]. cbn [tensors_ scalars_].
      split; [reflexivity|]. split; [apply Hkeep|]. split; [reflexivity | apply Hkeep].
    + intros [= <-]. cbn [tensors_ scalars_].
      split; [reflexivity|]. split; [apply Hkeep|]. split; [reflexivity | apply Hkeep].
Qed.

Lemma bindInput_round_trip_witness :
  exists k' t,
    bindInput ex_locked_kernel ex_dx = Ok k' /\
    tensors_ k' !! unique ex_dx = Some t /\
    func_var t = "input" /\
    tensorType t = Ok ST_Float /\
    valueShape (tensors_ k') ex_dx = (bind_dims (unique ex_dx) [-1]).2 /\
    args t = axis_vars 1.
Proof.
  destruct bindInput_round_trip as (_ & Hten & _).
  pose (k' := match bindInput ex_locked_kernel ex_dx with
              | Ok k' => k'
              | Err _ => ex_locked_kernel
              end).
  exists k'.
  destruct (Hten ex_locked_kernel k' ex_dx ST_Float [-1] [1] [1]) as (t & Ht);
    [reflexivity | reflexivity | reflexivity |].
  exists t. split; [reflexivity | exact Ht].
Defined.

(** ** The kernel object after construction *)

Lemma foldlM_snoc_ind {A B} (f : A -> B -> Res A) (P : list B -> A -> Prop) (a : A) :
  P [] a ->
  (forall l x s s', P l s -> f s x = Ok s' -> P (l ++ [x]) s') ->
  forall l a', foldlM f a l = Ok a' -> P l a'.
Proof.
  intros H0 Hstep l. induction l as [|x l IH] using rev_ind; intros a'.
  - cbn. intros [= <-]. exact H0.
  - rewrite foldlM_app. destruct (foldlM f a l) as [s|]; cbn [mbind Res_bind]; [|discriminate].
    cbn [foldlM]. destruct (f s x) as [s'|] eqn:E; cbn [mbind Res_bind]; [|discriminate].
    intros [= <-]. eapply Hstep; [apply IH; reflexivity | exact E].
Qed.

Lemma bind_node_output_frame (chunk : Tensor -> nat -> Z -> Z -> list Expr -> Res Expr)
    (k k' : TensorExprKernel) (o : Value * bool) :
  bind_node_output chunk k o = Ok k' ->
  n_inputs_ k' = n_inputs_ k /\ kernelArgs_ k' = kernelArgs_ k /\
  tensor_outputs_ k' = tensor_outputs_ k /\ scalars_ k' = scalars_ k /\
  backend_type_ k' = backend_type_ k /\ device_ k' = device_ k /\
  codegen_ k' = codegen_ k /\ events k' = events k.
Proof.
  unfold bind_node_output. destruct o as [output hasUses].
  destruct (_ || _); [intros [= <-]; repeat split|].
  destruct hasUses; [|intros [= <-]; repeat split].
  destruct (ComputeValue chunk k output) as [t|]; cbn [mbind Res_bind]; [|discriminate].
  intros [= <-]. repeat split.
Qed.

Lemma move_output_step (k k' : TensorExprKernel) (output : Value) :
  move_output k output = Ok k' ->
  (exists t, tensors_ k !! unique output = Some t /\
             tensor_outputs_ k' = tensor_outputs_ k ++ [t]) /\
  tensors_ k' = delete (unique output) (tensors_ k) /\
  n_inputs_ k' = n_inputs_ k /\ kernelArgs_ k' = kernelArgs_ k /\
  scalars_ k' = scalars_ k /\
  backend_type_ k' = backend_type_ k /\ device_ k' = device_ k /\
  codegen_ k' = codegen_ k /\ events k' = events k.
Proof.
  unfold move_output. destruct (tensors_ k !! unique output) as [t|] eqn:E;
    cbn [of_option mbind Res_bind]; [|discriminate].
  intros [= <-]. cbn. split; [eauto|]. repeat split.
Qed.

Lemma new_kernel_phases (chunk : Tensor -> nat -> Z -> Z -> list Expr -> Res Expr)
    (g : Graph) (k : TensorExprKernel) :
  new_kernel chunk g = Ok k ->
  exists k1 k2,
    foldlM bindInput
      (mkKernel (length (g_inputs g)) [] [] ∅ ∅ kUninitializedBackend
         (mkDevice kCPU (-1)) None []) (g_inputs g) = Ok k1 /\
    foldlM (bind_node_output chunk) k1 (g_node_outputs g) = Ok k2 /\
    foldlM move_output k2 (g_outputs g) = Ok k.
Proof.
  unfold new_kernel.
  destruct (foldlM bindInput _ _) as [k1|] eqn:E1; cbn [mbind Res_bind]; [|discriminate].
  destruct (foldlM (bind_node_output chunk) _ _) as [k2|] eqn:E2; cbn [mbind Res_bind];
    [|discriminate].
  intros H. exists k1, k2. split; [reflexivity|]. split; [exact E2|exact H].
Qed.

(** X6.  A kernel object that the constructor builds has one kernel
    argument per graph input and one output tensor per graph output, its
    backend is not chosen yet, it has no code generator and has asked for
    none, and no graph output is left among the intermediate tensors.  The
    outputs of the graph are pairwise different values: a value listed twice
    makes the constructor fail, its tensor having been moved out the first
    time. *)
Theorem new_kernel_invariants
    (chunk : Tensor -> nat -> Z -> Z -> list Expr -> Res Expr)
    (g : Graph) (k : TensorExprKernel) :
  new_kernel chunk g = Ok k ->
  n_inputs_ k = length (g_inputs g) /\
  length (kernelArgs_ k) = length (g_inputs g) /\
  length (tensor_outputs_ k) = length (g_outputs g) /\
  backend_type_ k = kUninitializedBackend /\
  device_ k = mkDevice kCPU (-1) /\
  codegen_ k = None /\
  events k = [] /\
  (forall o, o ∈ g_outputs g -> tensors_ k !! unique o = None) /\
  NoDup (unique <$> g_outputs g).
Proof.
  intros H. apply new_kernel_phases in H as (k1 & k2 & H1 & H2 & H3).
  set (k0 := mkKernel (length (g_inputs g)) [] [] ∅ ∅ kUninitializedBackend
               (mkDevice kCPU (-1)) None []) in H1.
  pose (same := fun s : TensorExprKernel =>
    n_inputs_ s = n_inputs_ k0 /\ backend_type_ s = backend_type_ k0 /\
    device_ s = device_ k0 /\ codegen_ s = codegen_ k0 /\ events s = events k0).
  assert (I1 : same k1 /\ length (kernelArgs_ k1) = length (g_inputs g) /\
               tensor_outputs_ k1 = []).
  { revert H1. apply (foldlM_snoc_ind bindInput
      (fun l s => same s /\ length (kernelArgs_ s) = length l /\ tensor_outputs_ s = [])).
    - repeat split.
    - intros l x s s' (Hs & Hl & Ho) Hx.
      apply bindInput_frame in Hx as (E1 & E2 & E3 & E4 & E5 & E6 & karg & E7).
      destruct Hs as (S1 & S2 & S3 & S4 & S5).
      split; [repeat split; congruence|].
      split; [rewrite E7, !length_app, Hl; reflexivity | congruence]. }
  assert (I2 : same k2 /\ length (kernelArgs_ k2) = length (g_inputs g) /\
               tensor_outputs_ k2 = []).
  { revert H2. apply (foldlM_snoc_ind (bind_node_output chunk)
      (fun _ s => same s /\ length (kernelArgs_ s) = length (g_inputs g) /\
                  tensor_outputs_ s = [])).
    - exact I1.
    - intros l x s s' (Hs & Hl & Ho) Hx.
      apply bind_node_output_frame in Hx as (E1 & E2 & E3 & E4 & E5 & E6 & E7 & E8).
      destruct Hs as (S1 & S2 & S3 & S4 & S5).
      split; [repeat split; congruence|]. split; congruence. }
  assert (I3 : same k /\ length (kernelArgs_ k) = length (g_inputs g) /\
               length (tensor_outputs_ k) = length (g_outputs g) /\
               (forall o, o ∈ g_outputs g -> tensors_ k !! unique o = None) /\
               NoDup (unique <$> g_outputs g)).
  { revert H3. apply (foldlM_snoc_ind move_output
      (fun l s => same s /\ length (kernelArgs_ s) = length (g_inputs g) /\
                  length (tensor_outputs_ s) = length l /\
                  (forall o, o ∈ l -> tensors_ s !! unique o = None) /\
                  NoDup (unique <$> l))).
    - destruct I2 as (Hs & Hl & Ho). split; [exact Hs|]. split; [exact Hl|].
      split; [rewrite Ho; reflexivity|]. split; [intros o Hin; inversion Hin | constructor].
    - intros l x s s' (Hs & Hl & Ho & Hgone & Hnd) Hx.
      apply move_output_step in Hx
        as ((t & Ht & Eo) & Et & E1 & E2 & E3 & E4 & E5 & E6 & E7).
      destruct Hs as (S1 & S2 & S3 & S4 & S5).
      split; [repeat split; congruence|]. split; [congruence|].
      split; [rewrite Eo, !length_app, Ho; reflexivity|].
      split.
      + intros o Hin. rewrite Et. apply elem_of_app in Hin as [Hin|Hin].
        * destruct (decide (unique o = unique x)) as [->|Hne];
            [apply lookup_delete_eq|].
          rewrite lookup_delete_ne by congruence. apply Hgone, Hin.
        * apply list_elem_of_singleton in Hin as ->. apply lookup_delete_eq.
      + rewrite fmap_app. apply NoDup_app. split; [exact Hnd|].
        split; [|cbn; apply NoDup_singleton].
        intros u Hu Hx. cbn in Hx. apply list_elem_of_singleton in Hx as ->.
        apply list_elem_of_fmap in Hu as (o & Eu & Hin).
        specialize (Hgone o Hin). rewrite <- Eu in Hgone. congruence. }
  destruct I3 as ((S1 & S2 & S3 & S4 & S5) & Hl & Ho & Hgone & Hnd).
  repeat split; assumption.
Qed.

Lemma new_kernel_invariants_witness :
  exists k,
    new_kernel chunk_unavailable ex_dyn_graph = Ok k /\
    n_inputs_ k = 1%nat /\ length (kernelArgs_ k) = 1%nat /\
    length (tensor_outputs_ k) = 1%nat /\ codegen_ k = None /\
    tensors_ k !! unique ex_dy = None.
Proof.
  pose (k := match new_kernel chunk_unavailable ex_dyn_graph with
             | Ok k => k
             | Err _ => ex_locked_kernel
             end).
  exists k.
  destruct (new_kernel_invariants chunk_unavailable ex_dyn_graph k)
    as (H1 & H2 & H3 & _ & _ & H6 & _ & H8 & _); [reflexivity|].
  split; [reflexivity|]. split; [exact H1|]. split; [exact H2|]. split; [exact H3|].
  split; [exact H6|]. apply H8. apply list_elem_of_here.
Defined.

(** ** The flattened outputs of the GPU *)

Lemma row_major_rev_nonneg (ds ixs : list Z) :
  Forall2 (fun d i => 0 <= i < d) ds ixs -> 0 <= row_major_rev ds ixs.
Proof.
  induction 1 as [|d i ds ixs Hdi _ IH]; cbn; [lia|]. nia.
Qed.

Lemma row_major_snoc (ds ixs : list Z) (d i : Z) :
  length ds = length ixs ->
  row_major (ds ++ [d]) (ixs ++ [i]) = row_major ds ixs * d + i.
Proof.
  intros Hlen. unfold row_major. rewrite zip_with_app by exact Hlen.
  rewrite foldl_app. reflexivity.
Qed.

Lemma row_major_reverse (ds ixs : list Z) :
  length ds = length ixs ->
  row_major ds ixs = row_major_rev (reverse ds) (reverse ixs).
Proof.
  revert ixs. induction ds as [|d ds IH] using rev_ind; intros ixs Hlen.
  - destruct ixs; [reflexivity|discriminate].
  - destruct ixs as [|i ixs _] using rev_ind;
      [rewrite length_app in Hlen; cbn in Hlen; lia|].
    rewrite !length_app in Hlen. cbn in Hlen.
    rewrite row_major_snoc by lia. rewrite !reverse_app. cbn.
    rewrite <- IH by lia. lia.
Qed.

Lemma flat_indices_eval (env : string -> Z) (ds ixs : list Z) (value : Expr) :
  Forall2 (fun d i => 0 <= i < d) ds ixs ->
  eval_int env value = Some (row_major_rev ds ixs) ->
  Forall2 (fun e i => eval_int env e = Some i) (flat_indices value (IntImm <$> ds)) ixs.
Proof.
  intros H. revert value. induction H as [|d i ds ixs Hdi Hrest IH]; intros value Hv.
  - constructor.
  - cbn [fmap list_fmap flat_indices]. cbn [row_major_rev] in Hv.
    pose proof (row_major_rev_nonneg ds ixs Hrest) as Hnn.
    constructor.
    + destruct Hrest as [|d' i' ds' ixs' _ _].
      * cbn [fmap list_fmap]. rewrite Hv. cbn. f_equal. lia.
      * cbn [fmap list_fmap]. cbn [eval_int]. rewrite Hv. cbn [mbind option_bind].
        f_equal. rewrite Z.rem_mod_nonneg by nia.
        rewrite (Z.mul_comm d), Z.mod_add by lia. apply Z.mod_small. lia.
    + apply IH. cbn [eval_int]. rewrite Hv. cbn [mbind option_bind]. f_equal.
      rewrite Z.quot_div_nonneg by nia.
      rewrite (Z.mul_comm d), Z.div_add by lia.
      rewrite (Z.div_small i d) by lia. lia.
Qed.

Lemma total_count_eval (env : string -> Z) (ds : list Z) (acc : Expr) (a : Z) :
  eval_int env acc = Some a ->
  eval_int env (foldl Mul acc (IntImm <$> ds)) = Some (foldl Z.mul a ds).
Proof.
  revert acc a. induction ds as [|d ds IH]; intros acc a Ha; cbn; [exact Ha|].
  apply IH. cbn. rewrite Ha. reflexivity.
Qed.

(** X7.  For the GPU an output is replaced by a one-dimensional tensor
    [<name>_flat] whose extent is the product of the output's dimensions and
    whose element at the flat index reads the output at the indices the
    flat index stands for: when the dimensions are the constants [ds] and
    the flat index is the row-major offset of [ixs] (each within its
    extent), the indices passed to the output evaluate to [ixs].  An output
    without dimensions cannot be flattened. *)
Theorem flatten_output_round_trip :
  (forall t : Tensor, dims t = [] -> flatten_output t = Err (OutOfRange "dim(0)")) /\
  (forall (t : Tensor) (ds ixs : list Z),
     dims t = IntImm <$> ds ->
     ds <> [] ->
     Forall2 (fun d i => 0 <= i < d) ds ixs ->
     exists total params,
       flatten_output t =
         Ok (mkTensor (func_var t +:+ "_flat") [total] (axis_vars 1) (FunctionCall t params)) /\
       (forall env, eval_int env total = Some (numel ds)) /\
       length params = length ds /\
       (forall env, env "i0" = row_major ds ixs ->
          Forall2 (fun e i => eval_int env e = Some i) params ixs)).
Proof.
  split.
  - intros t H. unfold flatten_output. rewrite H. reflexivity.
  - intros t ds ixs Hd Hne Hb. unfold flatten_output. rewrite Hd.
    destruct ds as [|d0 ds']; [contradiction|].
    cbn [fmap list_fmap]. unfold Compute. cbn [length axis_vars seq fmap list_fmap].
    cbn [at_index lookup list_lookup of_option mbind Res_bind call].
    eexists _, _. split; [reflexivity|]. split; [|split].
    + intros env. unfold numel. cbn [foldl].
      change (foldl Mul (IntImm d0) (list_fmap Z Expr IntImm ds'))
        with (foldl Mul (IntImm d0) (IntImm <$> ds')).
      rewrite (total_count_eval env ds' (IntImm d0) d0) by reflexivity.
      f_equal. f_equal. lia.
    + rewrite length_reverse.
      assert (L : forall v l, length (flat_indices v l) = length l)
        by (intros v l; revert v; induction l as [|x l IH]; intros v; cbn;
            [reflexivity | rewrite IH; reflexivity]).
      rewrite L, length_reverse. cbn. rewrite length_fmap. reflexivity.
    + intros env Henv.
      rewrite <- (reverse_involutive ixs). apply Forall2_reverse.
      replace (IntImm d0 :: (IntImm <$> ds')) with (IntImm <$> (d0 :: ds')) by reflexivity.
      rewrite <- fmap_reverse. apply flat_indices_eval.
      * apply Forall2_reverse. exact Hb.
      * change (eval_int env (Var ("i" +:+ pretty 0%nat) kInt32)) with (Some (env "i0")).
        rewrite Henv. f_equal. apply row_major_reverse.
        eapply Forall2_length. exact Hb.
Qed.

Lemma flatten_output_round_trip_witness :
  exists total params,
    flatten_output (mkTensor "out" [IntImm 2; IntImm 3; IntImm 4] (axis_vars 3) (IntImm 0)) =
      Ok (mkTensor "out_flat" [total] (axis_vars 1)
            (FunctionCall
               (mkTensor "out" [IntImm 2; IntImm 3; IntImm 4] (axis_vars 3) (IntImm 0))
               params)) /\
    eval_int (fun _ => 23) total = Some 24 /\
    Forall2 (fun e i => eval_int (fun _ => 23) e = Some i) params [1; 2; 3].
Proof.
  destruct flatten_output_round_trip as [_ H].
  destruct (H (mkTensor "out" [IntImm 2; IntImm 3; IntImm 4] (axis_vars 3) (IntImm 0))
              [2; 3; 4] [1; 2; 3]) as (total & params & H1 & H2 & _ & H4).
  - reflexivity.
  - discriminate.
  - repeat constructor; lia.
  - exists total, params. split; [exact H1|]. split; [apply H2|].
    apply H4. reflexivity.
Defined.

(** ** The index of a contiguous input is its row-major offset *)

Lemma foldl_mul_scale (ds : list Z) (a : Z) : foldl Z.mul a ds = a * numel ds.
Proof.
  unfold numel. revert a. induction ds as [|x ds IH]; intros a; cbn [foldl]; [lia|].
  rewrite (IH (a * x)), (IH (1 * x)). lia.
Qed.

Lemma numel_snoc (ds : list Z) (d : Z) : numel (ds ++ [d]) = numel ds * d.
Proof. unfold numel. rewrite foldl_app. reflexivity. Qed.

Lemma row_major_rev_snoc (ds ixs : list Z) (d i : Z) :
  length ds = length ixs ->
  row_major_rev (ds ++ [d]) (ixs ++ [i]) = row_major_rev ds ixs + i * numel ds.
Proof.
  revert ixs. induction ds as [|x ds IH]; intros [|y ixs] Hlen; try discriminate.
  - cbn. unfold numel. cbn. lia.
  - cbn [app row_major_rev]. rewrite IH by (cbn in Hlen; lia).
    change (numel (x :: ds)) with (foldl Z.mul (1 * x) ds).
    rewrite foldl_mul_scale. lia.
Qed.

Lemma contiguous_walk (buffer : Buffer) (axes : list Expr) (sizes contiguity : list Z)
    (sizeVars : gmap Z Expr) (env : string -> Z) (ixs szv : list Z) :
  length contiguity = length axes ->
  length sizes = length axes ->
  Forall (fun c => c <> 0) contiguity ->
  Forall2 (fun a i => eval_int env a = Some i) axes ixs ->
  Forall2 (fun s v => eval_int env (size_expr sizeVars s) = Some v) sizes szv ->
  forall m, (m <= length axes)%nat ->
    eval_int env (stride_after buffer (length axes - 1) sizes contiguity sizeVars m) =
      Some (numel (take m (reverse szv))) /\
    eval_int env (index_after buffer axes sizes contiguity sizeVars m) =
      Some (row_major_rev (take m (reverse szv)) (take m (reverse ixs))).
Proof.
  intros Hc Hs Hflags Hax Hsz.
  pose proof (Forall2_length _ _ _ Hax) as Lix.
  pose proof (Forall2_length _ _ _ Hsz) as Lsz.
  assert (Hrun : forall j, (j < length axes)%nat ->
            running_stride buffer (length axes - 1) sizes contiguity sizeVars j =
            stride_after buffer (length axes - 1) sizes contiguity sizeVars j).
  { intros j Hj.
    assert (Hf : step_flag_false contiguity j = false).
    { unfold step_flag_false. destruct (contiguity !! j) as [c|] eqn:Ec; [|reflexivity].
      rewrite Forall_lookup in Hflags. specialize (Hflags j c Ec). lia. }
    destruct j; cbn [running_stride stride_after]; rewrite Hf; reflexivity. }
  induction m as [|m IH]; intros Hm.
  - split; reflexivity.
  - destruct IH as [IHs IHi]; [lia|].
    assert (Hv : exists v, reverse szv !! m = Some v /\
              eval_int env (step_size (length axes - 1) sizes sizeVars m) = Some v).
    { destruct (lookup_lt_is_Some_2 sizes (length axes - 1 - m)) as [s Es]; [lia|].
      destruct (Forall2_lookup_l _ _ _ _ _ Hsz Es) as (v & Ev & Hev).
      exists v. split.
      - rewrite reverse_lookup by lia. rewrite <- Ev. f_equal. lia.
      - unfold step_size. rewrite Es. exact Hev. }
    destruct Hv as (v & Ev & Hev).
    assert (Hi : exists i, reverse ixs !! m = Some i /\
              eval_int env (axes !!! (length axes - 1 - m)%nat) = Some i).
    { destruct (lookup_lt_is_Some_2 axes (length axes - 1 - m)) as [a Ea]; [lia|].
      destruct (Forall2_lookup_l _ _ _ _ _ Hax Ea) as (i & Ei & Hei).
      exists i. split.
      - rewrite reverse_lookup by lia. rewrite <- Ei. f_equal. lia.
      - rewrite (list_lookup_total_correct _ _ _ Ea). exact Hei. }
    destruct Hi as (i & Ei & Hei).
    assert (Es' : eval_int env (stride_after buffer (length axes - 1) sizes contiguity
                                  sizeVars (S m)) = Some (numel (take (S m) (reverse szv)))).
    { cbn [stride_after]. rewrite Hrun by lia. cbn [eval_int]. rewrite IHs, Hev.
      cbn [mbind option_bind]. rewrite (take_S_r _ _ _ Ev), numel_snoc. reflexivity. }
    split; [exact Es'|].
    cbn [index_after eval_int]. rewrite IHi, Hei, Hrun, IHs by lia.
    cbn [mbind option_bind].
    rewrite (take_S_r _ _ _ Ev), (take_S_r _ _ _ Ei).
    rewrite row_major_rev_snoc; [reflexivity|].
    rewrite !length_take, !length_reverse. lia.
Qed.

Lemma filter_bool_none (f : nat -> bool) (l : list nat) :
  (forall x, f x = false) -> filter (fun i => f i = true) l = [].
Proof.
  intros H. induction l as [|x l IH]; [reflexivity|].
  rewrite filter_cons. destruct (decide (f x = true)) as [E|_]; [|exact IH].
  rewrite H in E. discriminate.
Qed.

(** X8.  For an input tensor all of whose contiguity flags are set,
    [createInputIndexExpr] records no stride argument, and the index it
    builds is the row-major offset: whatever the rank, with the axis
    variables at [ixs] and the sizes (constants, or size variables for the
    unknown ones) at [szv], the index evaluates to
    [((i0 * s1 + i1) * s2 + i2) ...].  When moreover every size is a known
    32-bit number, no size argument is recorded either and the offset is
    taken in the declared sizes. *)
Theorem contiguous_index_row_major :
  (forall (buffer : Buffer) (axes : list Expr) (sizes strides contiguity : list Z)
          (sizeVars : gmap Z Expr) (env : string -> Z) (ixs szv : list Z),
     length strides = length axes ->
     length sizes = length axes ->
     length contiguity = length axes ->
     sizes_bound sizes sizeVars ->
     Forall (fun c => c <> 0) contiguity ->
     Forall2 (fun a i => eval_int env a = Some i) axes ixs ->
     Forall2 (fun s v => eval_int env (size_expr sizeVars s) = Some v) sizes szv ->
     exists index karg,
       createInputIndexExpr buffer axes sizes strides contiguity sizeVars =
         Ok (Load (buf_name buffer) (buf_dtype buffer) index, karg) /\
       ka_strides karg = [] /\
       eval_int env index = Some (row_major szv ixs)) /\
  (forall (buffer : Buffer) (axes : list Expr) (sizes strides contiguity : list Z)
          (sizeVars : gmap Z Expr) (env : string -> Z) (ixs : list Z),
     length strides = length axes ->
     length sizes = length axes ->
     length contiguity = length axes ->
     Forall (fun c => c <> 0) contiguity ->
     Forall (fun s => 0 <= s < 2147483648) sizes ->
     Forall2 (fun a i => eval_int env a = Some i) axes ixs ->
     exists index,
       createInputIndexExpr buffer axes sizes strides contiguity sizeVars =
         Ok (Load (buf_name buffer) (buf_dtype buffer) index,
             mkKernelArg (mkBufferArg (buf_name buffer) (buf_dtype buffer) false) [] []) /\
       eval_int env index = Some (row_major sizes ixs)).
Proof.
  assert (Hnostride : forall buffer n contiguity m,
            Forall (fun c => c <> 0) contiguity ->
            strideArgs_after buffer n contiguity m = []).
  { intros buffer n contiguity m Hflags. unfold strideArgs_after.
    rewrite filter_bool_none; [reflexivity|]. intros j.
    unfold step_flag_false. destruct (contiguity !! j) as [c|] eqn:Ec; [|reflexivity].
    rewrite Forall_lookup in Hflags. specialize (Hflags j c Ec). lia. }
  assert (Hgen : forall buffer axes sizes strides contiguity sizeVars env ixs szv,
     length strides = length axes ->
     length sizes = length axes ->
     length contiguity = length axes ->
     sizes_bound sizes sizeVars ->
     Forall (fun c => c <> 0) contiguity ->
     Forall2 (fun a i => eval_int env a = Some i) axes ixs ->
     Forall2 (fun s v => eval_int env (size_expr sizeVars s) = Some v) sizes szv ->
     createInputIndexExpr buffer axes sizes strides contiguity sizeVars =
       Ok (Load (buf_name buffer) (buf_dtype buffer)
             (index_after buffer axes sizes contiguity sizeVars (length axes)),
           mkKernelArg (mkBufferArg (buf_name buffer) (buf_dtype buffer) false)
             (sizeArgs_after (length axes - 1) sizes sizeVars (length axes)) []) /\
     eval_int env (index_after buffer axes sizes contiguity sizeVars (length axes)) =
       Some (row_major szv ixs)).
  { intros buffer axes sizes strides contiguity sizeVars env ixs szv
      Hst Hs Hc Hb Hflags Hax Hsz.
    pose proof (Forall2_length _ _ _ Hax) as Lix.
    pose proof (Forall2_length _ _ _ Hsz) as Lsz.
    rewrite createInputIndexExpr_closed_form by assumption.
    rewrite Hnostride by exact Hflags. split; [reflexivity|].
    destruct (contiguous_walk buffer axes sizes contiguity sizeVars env ixs szv
                Hc Hs Hflags Hax Hsz (length axes)) as [_ Hi]; [lia|].
    rewrite Hi. f_equal.
    rewrite !take_ge by (rewrite length_reverse; lia).
    symmetry. apply row_major_reverse. lia. }
  split.
  - intros buffer axes sizes strides contiguity sizeVars env ixs szv
      Hst Hs Hc Hb Hflags Hax Hsz.
    destruct (Hgen buffer axes sizes strides contiguity sizeVars env ixs szv) as [E Hi];
      try assumption.
    eexists _, _. split; [exact E|]. split; [reflexivity|exact Hi].
  - intros buffer axes sizes strides contiguity sizeVars env ixs Hst Hs Hc Hflags Hsizes Hax.
    destruct (Hgen buffer axes sizes strides contiguity sizeVars env ixs sizes) as [E Hi];
      try assumption.
    + apply Forall_forall. intros s Hin Hneg. rewrite Forall_forall in Hsizes.
      specialize (Hsizes s Hin). lia.
    + apply Forall2_same_length_lookup_2; [reflexivity|].
      intros j s s' E1 E2. rewrite E1 in E2. injection E2 as <-.
      rewrite Forall_lookup in Hsizes. specialize (Hsizes j s E1).
      unfold size_expr. replace (s <? 0) with false by lia.
      cbn. rewrite to_int32_id by lia. reflexivity.
    + eexists. split; [|exact Hi]. rewrite E. do 3 f_equal.
      unfold sizeArgs_after. rewrite filter_bool_none; [reflexivity|].
      intros j. unfold step_size_dynamic.
      destruct (sizes !! (length axes - 1 - j)%nat) as [s|] eqn:Es; [|reflexivity].
      rewrite Forall_lookup in Hsizes. specialize (Hsizes _ s Es). lia.
Qed.

Lemma contiguous_index_row_major_witness :
  exists index,
    createInputIndexExpr (mkBuffer "tA" kFloat32) (axis_vars 3) [2; 3; 4] [12; 4; 1]
      [1; 1; 1] ∅ =
      Ok (Load "tA" kFloat32 index,
          mkKernelArg (mkBufferArg "tA" kFloat32 false) [] []) /\
    eval_int (fun x => if String.eqb x "i0" then 1 else if String.eqb x "i1" then 2 else 3)
      index = Some 23.
Proof.
  destruct contiguous_index_row_major as [_ H].
  apply (H (mkBuffer "tA" kFloat32) (axis_vars 3) [2; 3; 4] [12; 4; 1] [1; 1; 1] ∅
           (fun x => if String.eqb x "i0" then 1 else if String.eqb x "i1" then 2 else 3)
           [1; 2; 3]).
  - reflexivity.
  - reflexivity.
  - reflexivity.
  - repeat constructor; lia.
  - repeat constructor; lia.
  - repeat constructor.
Defined.

(** ** When lowering succeeds *)

Lemma mapM_is_ok {A B} (f : A -> Res B) (l : list A) :
  is_ok (mapM f l) = true <-> Forall (fun x => is_ok (f x) = true) l.
Proof.
  induction l as [|x l IH]; cbn.
  - split; [constructor | reflexivity].
  - destruct (f x) as [y|e] eqn:Ex; cbn.
    + destruct (mapM f l) as [k|e]; cbn in *.
      * split; [intros _; constructor; [rewrite Ex; reflexivity | apply IH; reflexivity]
               | reflexivity].
      * split; [discriminate|]. intros H. inversion H; subst. apply IH. assumption.
    + split; [discriminate|]. intros H. inversion H as [|? ? Hx _]; subst.
      rewrite Ex in Hx. discriminate Hx.
Qed.

Lemma flatten_output_ok (t : Tensor) : is_ok (flatten_output t) = true <-> dims t <> [].
Proof.
  unfold flatten_output. destruct (dims t) as [|d0 ds]; cbn.
  - split; [discriminate | intros H; contradiction].
  - split; [discriminate | reflexivity].
Qed.

Lemma gpu_tiling_ok (cfg : Config) (t : Tensor) :
  is_ok (gpu_tiling cfg t) = true <->
  is_dynamic t = true \/ effective_loop_levels cfg = 2 \/ effective_loop_levels cfg = 3.
Proof.
  unfold gpu_tiling. fold (is_dynamic t). fold (effective_loop_levels cfg).
  destruct (is_dynamic t); [split; [auto | reflexivity]|].
  destruct (effective_loop_levels cfg =? 2) eqn:E2;
    [split; [intros _; right; left; lia | reflexivity]|].
  destruct (effective_loop_levels cfg =? 3) eqn:E3;
    [split; [intros _; right; right; lia | reflexivity]|].
  cbn. split; [discriminate|]. intros [H|[H|H]]; [discriminate H | lia | lia].
Qed.

(** X9.  Lowering for a CPU backend cannot fail once the backend is set: it
    asks for the code generator of the backend with the kernel's formal
    parameters.  Lowering for the GPU succeeds exactly when every output has
    at least one dimension and, unless the output has a dimension that is
    not a constant, the loop levels in force are 2 or 3; with the levels
    unset (zero or negative) this means it fails for outputs without
    dimensions only.  With the backend not set, lowering always fails, and a
    failed lowering leaves the kernel object as it was.  A block size of 0 is
    kept as the split factor at two loop levels. *)
Theorem LowerToBackend_succeeds_iff :
  (forall (cfg : Config) (k : TensorExprKernel) (b : BackendType),
     b <> kCudaCodeGen ->
     backend_type_ k <> kUninitializedBackend ->
     exists name,
       codegen_name_of (backend_type_ k) = Ok name /\
       LowerToBackend cfg k b =
         (with_codegen k name
            [EvCreateCodeGen name (kernel_params (kernelArgs_ k) (tensor_outputs_ k))],
          Ok ())) /\
  (forall (cfg : Config) (k : TensorExprKernel),
     backend_type_ k <> kUninitializedBackend ->
     (is_ok (LowerToBackend cfg k kCudaCodeGen).2 = true <->
      Forall (fun t => dims t <> [] /\
                (is_dynamic t = true \/ effective_loop_levels cfg = 2 \/
                 effective_loop_levels cfg = 3))
        (tensor_outputs_ k))) /\
  (forall (cfg : Config) (k : TensorExprKernel),
     backend_type_ k <> kUninitializedBackend ->
     te_cuda_pointwise_loop_levels cfg <= 0 ->
     (is_ok (LowerToBackend cfg k kCudaCodeGen).2 = true <->
      Forall (fun t => dims t <> []) (tensor_outputs_ k))) /\
  (forall (cfg : Config) (k : TensorExprKernel) (b : BackendType),
     (backend_type_ k = kUninitializedBackend -> is_ok (LowerToBackend cfg k b).2 = false) /\
     (is_ok (LowerToBackend cfg k b).2 = false -> (LowerToBackend cfg k b).1 = k)) /\
  (forall (cfg : Config) (t : Tensor),
     is_dynamic t = false ->
     effective_loop_levels cfg = 2 ->
     te_cuda_pointwise_block_size cfg = 0 ->
     gpu_tiling cfg t = Ok [(func_var t, 0)]).
Proof.
  assert (Hcuda : forall cfg k,
     backend_type_ k <> kUninitializedBackend ->
     (is_ok (LowerToBackend cfg k kCudaCodeGen).2 = true <->
      Forall (fun t => is_ok (flatten_output t) = true) (tensor_outputs_ k) /\
      Forall (fun t => is_ok (gpu_tiling cfg t) = true) (tensor_outputs_ k))).
  { intros cfg k Hset. unfold LowerToBackend.
    destruct (decide (kCudaCodeGen = kCudaCodeGen)) as [_|]; [|contradiction].
    rewrite <- !mapM_is_ok.
    destruct (mapM flatten_output (tensor_outputs_ k)) as [outs|]; cbn [mbind Res_bind];
      [|cbn; split; [discriminate | intros [H _]; discriminate H]].
    destruct (mapM (gpu_tiling cfg) (tensor_outputs_ k)) as [tl|]; cbn [mbind Res_bind];
      [|cbn; split; [discriminate | intros [_ H]; discriminate H]].
    destruct (backend_type_ k); try contradiction; cbn; split; auto. }
  split; [|split; [|split; [|split]]].
  - intros cfg k b Hb Hset. unfold LowerToBackend.
    destruct (decide (b = kCudaCodeGen)); [contradiction|]. cbn [mbind Res_bind].
    destruct (backend_type_ k); try contradiction; cbn; eexists; split; reflexivity.
  - intros cfg k Hset. rewrite (Hcuda cfg k Hset), <- Forall_and.
    apply Forall_iff. intros t. rewrite flatten_output_ok, gpu_tiling_ok. reflexivity.
  - intros cfg k Hset Hlv. rewrite (Hcuda cfg k Hset). split.
    + intros [H _]. eapply Forall_impl; [exact H|]. intros t. apply flatten_output_ok.
    + intros H. split.
      * eapply Forall_impl; [exact H|]. intros t. apply flatten_output_ok.
      * apply Forall_forall. intros t _. apply gpu_tiling_ok. right. left.
        unfold effective_loop_levels.
        replace (0 <? te_cuda_pointwise_loop_levels cfg) with false by lia. reflexivity.
  - intros cfg k b. split.
    + intros Hu. unfold LowerToBackend. rewrite Hu.
      destruct (if decide (b = kCudaCodeGen) then mapM flatten_output _ else _) as [outs|];
        cbn [mbind Res_bind]; [|reflexivity].
      destruct (if decide (b = kCudaCodeGen) then mapM (gpu_tiling cfg) _ else _) as [tl|];
        cbn [mbind Res_bind]; reflexivity.
    + pose proof (LowerToBackend_state cfg k b) as H.
      destruct (LowerToBackend cfg k b) as [k' [u|f]]; cbn; [discriminate|].
      intros _. apply H.
  - intros cfg t Hd Hl Hb. unfold gpu_tiling. fold (is_dynamic t).
    fold (effective_loop_levels cfg). rewrite Hd, Hl, Hb. reflexivity.
Qed.

Lemma LowerToBackend_succeeds_iff_witness :
  (exists name,
     codegen_name_of (backend_type_ ex_locked_kernel) = Ok name /\
     LowerToBackend ex_cfg ex_locked_kernel kSimpleIREval =
       (with_codegen ex_locked_kernel name
          [EvCreateCodeGen name
             (kernel_params (kernelArgs_ ex_locked_kernel) (tensor_outputs_ ex_locked_kernel))],
        Ok ())) /\
  gpu_tiling (mkConfig 2 0 0 false) (mkTensor "out" [IntImm 4] (axis_vars 1) (IntImm 0)) =
    Ok [("out", 0)].
Proof.
  destruct LowerToBackend_succeeds_iff as (Hcpu & _ & _ & _ & Hzero).
  split.
  - apply Hcpu; discriminate.
  - apply (Hzero (mkConfig 2 0 0 false) (mkTensor "out" [IntImm 4] (axis_vars 1) (IntImm 0)));
      reflexivity.
Defined.

(** ** The call has the arity of the generated kernel *)

Lemma LowerToBackend_frame (cfg : Config) (k : TensorExprKernel) (b : BackendType) :
  n_inputs_ (LowerToBackend cfg k b).1 = n_inputs_ k /\
  kernelArgs_ (LowerToBackend cfg k b).1 = kernelArgs_ k /\
  tensor_outputs_ (LowerToBackend cfg k b).1 = tensor_outputs_ k /\
  tensors_ (LowerToBackend cfg k b).1 = tensors_ k /\
  scalars_ (LowerToBackend cfg k b).1 = scalars_ k.
Proof.
  unfold LowerToBackend.
  destruct (if decide (b = kCudaCodeGen) then mapM flatten_output _ else _) as [outs|];
    cbn [mbind Res_bind]; [|repeat split].
  destruct (if decide (b = kCudaCodeGen) then mapM (gpu_tiling cfg) _ else _) as [tl|];
    cbn [mbind Res_bind]; [|repeat split].
  destruct (codegen_name_of (backend_type_ k)) as [nm|]; cbn [mbind Res_bind]; repeat split.
Qed.

Lemma PickAndCheckBackendType_frame (cfg : Config) (k : TensorExprKernel)
    (inputs : list IValue) :
  n_inputs_ (PickAndCheckBackendType cfg k inputs).1 = n_inputs_ k /\
  kernelArgs_ (PickAndCheckBackendType cfg k inputs).1 = kernelArgs_ k /\
  tensor_outputs_ (PickAndCheckBackendType cfg k inputs).1 = tensor_outputs_ k /\
  tensors_ (PickAndCheckBackendType cfg k inputs).1 = tensors_ k /\
  scalars_ (PickAndCheckBackendType cfg k inputs).1 = scalars_ k.
Proof.
  unfold PickAndCheckBackendType.
  destruct (first_tensor_device inputs) as [d|]; [|repeat split].
  destruct (backend_of_device cfg d) as [b|]; [|repeat split].
  destruct (decide (backend_type_ k = kUninitializedBackend)).
  - apply (LowerToBackend_frame cfg (with_backend k b d) b).
  - destruct (decide (backend_type_ k <> b)); repeat split.
Qed.

Lemma run_inv (cfg : Config) (fresh_ptr : nat -> Z) (k k' : TensorExprKernel)
    (stack out : list IValue) :
  run cfg fresh_ptr k stack = (k', Ok out) ->
  exists inputs k1 st outputs,
    last_n stack (n_inputs_ k) = Ok inputs /\
    PickAndCheckBackendType cfg k inputs = (k1, Ok ()) /\
    foldlM (bind_arg (kernelArgs_ k1)) (mkArgLoop [] ∅) (imap (fun i v => (i, v)) inputs)
      = Ok st /\
    mapM (make_output k1 fresh_ptr (al_varToSize st))
      (imap (fun j o => (j, o)) (tensor_outputs_ k1)) = Ok outputs /\
    backend_type_ k1 <> kUninitializedBackend /\
    is_Some (codegen_ k1) /\
    k' = log_events k1 [EvCall (al_run_args st ++ (CA_Ptr ∘ at_data_ptr <$> outputs))] /\
    out = take (length stack - n_inputs_ k)%nat stack ++ (IV_Tensor <$> outputs).
Proof.
  unfold run.
  destruct (last_n stack (n_inputs_ k)) as [inputs|] eqn:El; [|discriminate].
  pose proof (PickAndCheckBackendType_frame cfg k inputs) as (Hn & _).
  destruct (PickAndCheckBackendType cfg k inputs) as [k1 [[]|]] eqn:Ep; [|discriminate].
  cbn [fst] in Hn.
  destruct (foldlM (bind_arg (kernelArgs_ k1)) _ _) as [st|] eqn:Ef; cbn [mbind Res_bind];
    [|discriminate].
  destruct (mapM (make_output k1 fresh_ptr (al_varToSize st)) _) as [outputs|] eqn:Em;
    cbn [mbind Res_bind]; [|discriminate].
  unfold CodeGenRun.
  destruct (backend_type_ k1) eqn:Eb; [discriminate| | |];
    (destruct (codegen_ k1) as [cg|] eqn:Ec; [|discriminate]);
    intros [= <- <-]; exists inputs, k1, st, outputs;
    cbn [n_inputs_ log_events]; rewrite Hn;
    (split; [reflexivity|]); (split; [exact Ep|]); (split; [exact Ef|]);
    (split; [exact Em|]); (split; [rewrite Eb; discriminate|]); (split; [eauto|]);
    split; reflexivity.
Qed.

Lemma kernel_params_length (kargs : list KernelArg) (outs : list Tensor) :
  length (kernel_params kargs outs) = (sum_list (param_count <$> kargs) + length outs)%nat.
Proof.
  unfold kernel_params. rewrite length_app, length_fmap. f_equal.
  induction kargs as [|karg kargs IH]; [reflexivity|].
  cbn [mbind list_bind fmap list_fmap sum_list sum_list_with].
  rewrite length_app, IH. cbn [length]. rewrite length_app, !length_fmap.
  unfold param_count, id. reflexivity.
Qed.

Lemma bind_arg_count (kargs : list KernelArg) (st st' : ArgLoop) (i : nat) (v : IValue)
    (karg : KernelArg) :
  kargs !! i = Some karg ->
  input_fits v karg ->
  bind_arg kargs st (i, v) = Ok st' ->
  length (al_run_args st') = (length (al_run_args st) + param_count karg)%nat.
Proof.
  intros Hk Hfit. destruct v as [| n | d | b | tensor]; cbn in Hfit; try contradiction.
  - destruct Hfit as [Hs Ht]. cbn. intros [= <-]. cbn.
    rewrite length_app. unfold param_count. rewrite Hs, Ht. reflexivity.
  - destruct Hfit as [Hs Ht]. cbn. intros [= <-]. cbn.
    rewrite length_app. unfold param_count. rewrite Hs, Ht. reflexivity.
  - intros H. destruct (bind_arg_tensor kargs st st' i tensor karg Hk H)
      as (sizes & strides & Hsz & Hstr & ->).
    rewrite !length_app, !length_fmap. cbn [length].
    rewrite <- (Forall2_length _ _ _ Hsz), <- (Forall2_length _ _ _ Hstr).
    unfold param_count. lia.
Qed.

Lemma bind_args_count (kargs : list KernelArg) (inputs : list IValue) (st' : ArgLoop) :
  Forall2 input_fits inputs kargs ->
  foldlM (bind_arg kargs) (mkArgLoop [] ∅) (imap (fun i v => (i, v)) inputs) = Ok st' ->
  length (al_run_args st') = sum_list (param_count <$> kargs).
Proof.
  intros Hfit.
  pose proof (Forall2_length _ _ _ Hfit) as Hlen.
  assert (G : forall m st, (m <= length inputs)%nat ->
            foldlM (bind_arg kargs) (mkArgLoop [] ∅)
              (imap (fun i v => (i, v)) (take m inputs)) = Ok st ->
            length (al_run_args st) = sum_list (param_count <$> take m kargs)).
  { induction m as [|m IH]; intros st Hm.
    - cbn. intros [= <-]. reflexivity.
    - destruct (lookup_lt_is_Some_2 inputs m) as [v Ev]; [lia|].
      destruct (lookup_lt_is_Some_2 kargs m) as [karg Ek]; [lia|].
      rewrite (take_S_r _ _ _ Ev), (take_S_r _ _ _ Ek).
      rewrite imap_app, foldlM_app.
      destruct (foldlM _ _ (imap _ (take m inputs))) as [st1|] eqn:E1;
        cbn [mbind Res_bind]; [|discriminate].
      cbn [imap foldlM]. rewrite length_take, Nat.min_l, Nat.add_0_r by lia.
      destruct (bind_arg kargs st1 (m, v)) as [st2|] eqn:E2; cbn [mbind Res_bind];
        [|discriminate].
      intros [= <-].
      rewrite (bind_arg_count kargs st1 st2 m v karg Ek) by
        (try exact E2; eapply Forall2_lookup_lr; eassumption).
      rewrite (IH st1) by (try reflexivity; lia).
      rewrite fmap_app, sum_list_with_app. f_equal.
      cbn [fmap list_fmap sum_list sum_list_with]. unfold id. lia. }
  intros H. rewrite <- (firstn_all inputs) in H.
  rewrite (G (length inputs) st') by (try exact H; lia).
  rewrite Hlen, firstn_all. reflexivity.
Qed.

(** X10.  The code generator is created with one formal parameter per kernel
    argument buffer, size variable and stride variable, and one per output;
    flattening the outputs for the GPU does not change their number.  When
    every run-time input fits its kernel argument (a tensor, or a number for
    a scalar argument), a successful [run] calls the generated code with
    exactly as many arguments as it has formal parameters.  A [None] or
    boolean input contributes no argument at all. *)
Theorem run_call_arity :
  (forall (kargs : list KernelArg) (outs : list Tensor),
     length (kernel_params kargs outs) =
       (sum_list (param_count <$> kargs) + length outs)%nat) /\
  (forall (outs flat : list Tensor),
     mapM flatten_output outs = Ok flat -> length flat = length outs) /\
  (forall (cfg : Config) (fresh_ptr : nat -> Z) (k k' : TensorExprKernel)
          (stack out inputs : list IValue),
     run cfg fresh_ptr k stack = (k', Ok out) ->
     last_n stack (n_inputs_ k) = Ok inputs ->
     Forall2 input_fits inputs (kernelArgs_ k) ->
     exists run_args,
       events k' = events (PickAndCheckBackendType cfg k inputs).1 ++ [EvCall run_args] /\
       length run_args = length (kernel_params (kernelArgs_ k) (tensor_outputs_ k))) /\
  (forall (kargs : list KernelArg) (st : ArgLoop) (i : nat) (v : IValue),
     v = IV_None \/ (exists b, v = IV_Bool b) ->
     bind_arg kargs st (i, v) = Ok st).
Proof.
  split; [exact kernel_params_length|]. split; [|split].
  - intros outs flat H. apply mapM_Ok in H. symmetry. eapply Forall2_length. exact H.
  - intros cfg fresh_ptr k k' stack out inputs Hrun Hlast Hfit.
    apply run_inv in Hrun as (inputs' & k1 & st & outputs & Hl & Hp & Hb & Ho & _ & _ & -> & _).
    rewrite Hlast in Hl. injection Hl as <-.
    pose proof (PickAndCheckBackendType_frame cfg k inputs) as (_ & Hk & Hto & _).
    rewrite Hp in Hk, Hto |- *. cbn [fst] in Hk, Hto |- *.
    eexists. split; [reflexivity|].
    rewrite kernel_params_length, length_app, length_fmap.
    rewrite Hk in Hb. rewrite (bind_args_count _ _ _ Hfit Hb).
    apply mapM_Ok in Ho. rewrite <- (Forall2_length _ _ _ Ho), length_imap, Hto.
    reflexivity.
  - intros kargs st i v [->|[b ->]]; reflexivity.
Qed.

Lemma run_call_arity_witness :
  exists k0 k' out run_args,
    new_kernel chunk_unavailable ex_dyn_graph = Ok k0 /\
    run ex_cfg ex_alloc k0 [cpu_tensor [4] [1]] = (k', Ok out) /\
    events k' =
      events (PickAndCheckBackendType ex_cfg k0 [cpu_tensor [4] [1]]).1 ++ [EvCall run_args] /\
    length run_args = length (kernel_params (kernelArgs_ k0) (tensor_outputs_ k0)) /\
    length (kernel_params (kernelArgs_ k0) (tensor_outputs_ k0)) = 3%nat.
Proof.
  pose (k0 := match new_kernel chunk_unavailable ex_dyn_graph with
              | Ok k => k
              | Err _ => ex_locked_kernel
              end).
  pose (r := run ex_cfg ex_alloc k0 [cpu_tensor [4] [1]]).
  destruct run_call_arity as (_ & _ & H & _).
  destruct (H ex_cfg ex_alloc k0 r.1 [cpu_tensor [4] [1]]
              (match r.2 with Ok o => o | Err _ => [] end) [cpu_tensor [4] [1]])
    as (run_args & He & Hl).
  - vm_compute. reflexivity.
  - reflexivity.
  - vm_compute. constructor; [exact I | constructor].
  - exists k0, r.1, (match r.2 with Ok o => o | Err _ => [] end), run_args.
    split; [reflexivity|]. split; [vm_compute; reflexivity|].
    split; [exact He|]. split; [exact Hl | reflexivity].
Defined.

(** ** What [run] does to the stack and to the kernel object *)






(** ** A failed lowering is not tried again *)

Lemma selectable_not_uninitialized (cfg : Config) (d : Device) (b : BackendType) :
  backend_of_device cfg d = Ok b -> b <> kUninitializedBackend.
Proof.
  intros Hb. pose proof (backend_of_device_selectable cfg d b Hb) as Hin.
  intros ->. unfold selectable_backends in Hin.
  repeat (apply elem_of_cons in Hin as [Hin|Hin]; [discriminate Hin|]).
  inversion Hin.
Qed.

Lemma run_reaches_null_codegen (cfg : Config) (fresh_ptr : nat -> Z) (k : TensorExprKernel)
    (stack inputs : list IValue) (st : ArgLoop) (outputs : list at_Tensor) :
  backend_type_ k <> kUninitializedBackend ->
  codegen_ k = None ->
  last_n stack (n_inputs_ k) = Ok inputs ->
  (PickAndCheckBackendType cfg k inputs).2 = Ok () ->
  foldlM (bind_arg (kernelArgs_ k)) (mkArgLoop [] ∅) (imap (fun i v => (i, v)) inputs)
    = Ok st ->
  mapM (make_output k fresh_ptr (al_varToSize st))
    (imap (fun j o => (j, o)) (tensor_outputs_ k)) = Ok outputs ->
  run cfg fresh_ptr k stack = (k, Err (Undefined "codegen_->call on a null codegen_")).
Proof.
  intros Hset Hcg Hl Hp Hb Ho. unfold run. rewrite Hl.
  pose proof (PickAndCheckBackendType_locked cfg k inputs Hset) as [Hk _].
  destruct (PickAndCheckBackendType cfg k inputs) as [k1 r]. cbn [fst snd] in Hk, Hp.
  subst k1 r. rewrite Hb. cbn [mbind Res_bind]. rewrite Ho. cbn [mbind Res_bind].
  unfold CodeGenRun. rewrite Hcg. destruct (backend_type_ k); [contradiction| | |]; reflexivity.
Qed.

(** X12.  The backend is recorded before the lowering is attempted.  So when
    the first lowering fails, the kernel object keeps the backend and the
    device, still without a code generator, and the backend check of a later
    [run] leaves it exactly so: nothing lowers again.  A later [run] whose
    inputs are bound and whose outputs are allocated therefore reaches the
    call with a null code generator, where C++ defines nothing.  After a
    successful selection, selecting again for the same inputs changes
    nothing. *)
Theorem failed_lowering_is_permanent :
  (forall (cfg : Config) (fresh_ptr : nat -> Z) (k : TensorExprKernel)
          (stack inputs : list IValue) (d : Device) (b : BackendType) (f : Failure),
     backend_type_ k = kUninitializedBackend ->
     codegen_ k = None ->
     last_n stack (n_inputs_ k) = Ok inputs ->
     first_tensor_device inputs = Ok d ->
     backend_of_device cfg d = Ok b ->
     (LowerToBackend cfg (with_backend k b d) b).2 = Err f ->
     let k1 := with_backend k b d in
     run cfg fresh_ptr k stack = (k1, Err f) /\
     backend_type_ k1 = b /\ b <> kUninitializedBackend /\ device_ k1 = d /\
     codegen_ k1 = None /\ events k1 = events k /\
     (forall inputs', (PickAndCheckBackendType cfg k1 inputs').1 = k1) /\
     (forall stack' inputs' st outputs,
        last_n stack' (n_inputs_ k1) = Ok inputs' ->
        (PickAndCheckBackendType cfg k1 inputs').2 = Ok () ->
        foldlM (bind_arg (kernelArgs_ k1)) (mkArgLoop [] ∅)
          (imap (fun i v => (i, v)) inputs') = Ok st ->
        mapM (make_output k1 fresh_ptr (al_varToSize st))
          (imap (fun j o => (j, o)) (tensor_outputs_ k1)) = Ok outputs ->
        run cfg fresh_ptr k1 stack' =
          (k1, Err (Undefined "codegen_->call on a null codegen_")))) /\
  (forall (cfg : Config) (k k1 : TensorExprKernel) (inputs : list IValue),
     PickAndCheckBackendType cfg k inputs = (k1, Ok ()) ->
     PickAndCheckBackendType cfg k1 inputs = (k1, Ok ())).
Proof.
  split.
  - intros cfg fresh_ptr k stack inputs d b f Hu Hcg Hl Hd Hb Hlow k1.
    pose proof (selectable_not_uninitialized cfg d b Hb) as Hb'.
    split.
    { unfold run. rewrite Hl. unfold PickAndCheckBackendType. rewrite Hd, Hb.
      destruct (decide (backend_type_ k = kUninitializedBackend)); [|contradiction].
      pose proof (LowerToBackend_state cfg (with_backend k b d) b) as H.
      destruct (LowerToBackend cfg (with_backend k b d) b) as [k' [u|f']];
        [discriminate Hlow|].
      cbn [snd] in Hlow. injection Hlow as ->. destruct H as (_ & _ & ->). reflexivity. }
    split; [reflexivity|]. split; [exact Hb'|]. split; [reflexivity|].
    split; [exact Hcg|]. split; [reflexivity|]. split.
    + intros inputs'. apply PickAndCheckBackendType_locked. exact Hb'.
    + intros stack' inputs' st outputs. apply run_reaches_null_codegen; [exact Hb' | exact Hcg].
  - intros cfg k k1 inputs. unfold PickAndCheckBackendType at 1.
    destruct (first_tensor_device inputs) as [d|] eqn:Ed; [|discriminate].
    destruct (backend_of_device cfg d) as [b|] eqn:Eb; [|discriminate].
    pose proof (selectable_not_uninitialized cfg d b Eb) as Hb'.
    assert (Hre : forall k2, backend_type_ k2 = b ->
              PickAndCheckBackendType cfg k2 inputs = (k2, Ok ())).
    { intros k2 H2. unfold PickAndCheckBackendType. rewrite Ed, Eb.
      destruct (decide (backend_type_ k2 = kUninitializedBackend)); [congruence|].
      destruct (decide (backend_type_ k2 <> b)); [contradiction|reflexivity]. }
    destruct (decide (backend_type_ k = kUninitializedBackend)) as [Hu|Hs].
    + pose proof (LowerToBackend_state cfg (with_backend k b d) b) as H.
      destruct (LowerToBackend cfg (with_backend k b d) b) as [k' [u|f']]; [|discriminate].
      intros [= <-]. destruct H as (Hbt & _). apply Hre. exact Hbt.
    + destruct (decide (backend_type_ k <> b)) as [Hne|He]; [discriminate|].
      intros [= <-]. apply Hre. destruct (decide (backend_type_ k = b)); [assumption|].
      contradiction.
Qed.

Lemma failed_lowering_is_permanent_witness :
  run ex_cfg_four_levels ex_alloc ex_fresh_kernel [cuda_tensor [4] [1]] =
    (with_backend ex_fresh_kernel kCudaCodeGen (mkDevice kCUDA 0),
     Err (RuntimeError "Invalid loop-level: 4")) /\
  run ex_cfg_four_levels ex_alloc
    (with_backend ex_fresh_kernel kCudaCodeGen (mkDevice kCUDA 0)) [cuda_tensor [4] [1]] =
    (with_backend ex_fresh_kernel kCudaCodeGen (mkDevice kCUDA 0),
     Err (Undefined "codegen_->call on a null codegen_")).
Proof.
  destruct failed_lowering_is_permanent as (H & _).
  destruct (H ex_cfg_four_levels ex_alloc ex_fresh_kernel [cuda_tensor [4] [1]]
              [cuda_tensor [4] [1]] (mkDevice kCUDA 0) kCudaCodeGen
              (RuntimeError "Invalid loop-level: 4"))
    as (Hrun & _ & _ & _ & _ & _ & _ & Hlater); try reflexivity.
  split; [exact Hrun|].
  apply (Hlater [cuda_tensor [4] [1]] [cuda_tensor [4] [1]]
           (mkArgLoop [CA_Ptr 1000] ∅)
           [at_empty (ex_alloc 0) [4] ST_Float (mkDevice kCUDA 0)]); reflexivity.
Defined.

(** ** The index of a strided input *)

Lemma strided_offset_snoc (xs ys : list Z) (x y : Z) :
  length xs = length ys ->
  strided_offset (xs ++ [x]) (ys ++ [y]) = strided_offset xs ys + x * y.
Proof.
  revert ys. induction xs as [|a xs IH]; intros [|b ys] Hlen; try discriminate.
  - cbn. lia.
  - cbn in Hlen. unfold strided_offset in *. cbn [app zip zip_with foldr fst snd].
    rewrite IH by lia. lia.
Qed.

Lemma strided_offset_reverse (xs ys : list Z) :
  length xs = length ys ->
  strided_offset (reverse xs) (reverse ys) = strided_offset xs ys.
Proof.
  revert ys. induction xs as [|a xs IH]; intros [|b ys] Hlen; try discriminate.
  - reflexivity.
  - cbn in Hlen. rewrite !reverse_cons.
    rewrite strided_offset_snoc by (rewrite !length_reverse; lia).
    rewrite IH by lia. unfold strided_offset. cbn. lia.
Qed.

Lemma strided_walk (buffer : Buffer) (axes : list Expr) (sizes contiguity : list Z)
    (sizeVars : gmap Z Expr) (env : string -> Z) (ixs sts : list Z) :
  length contiguity = length axes ->
  length sts = length axes ->
  Forall (fun c => c = 0) contiguity ->
  Forall2 (fun a i => eval_int env a = Some i) axes ixs ->
  (forall i s, (i < length axes)%nat -> sts !! (length axes - 1 - i)%nat = Some s ->
     eval_int env (stride_var buffer i) = Some s) ->
  forall m, (m <= length axes)%nat ->
    eval_int env (index_after buffer axes sizes contiguity sizeVars m) =
      Some (strided_offset (take m (reverse ixs)) (take m (reverse sts))).
Proof.
  intros Hc Hst Hflags Hax Henv.
  pose proof (Forall2_length _ _ _ Hax) as Lix.
  induction m as [|m IH]; intros Hm; [reflexivity|].
  assert (Hf : step_flag_false contiguity m = true).
  { unfold step_flag_false.
    destruct (lookup_lt_is_Some_2 contiguity m) as [c Ec]; [lia|]. rewrite Ec.
    rewrite Forall_lookup in Hflags. rewrite (Hflags m c Ec). reflexivity. }
  destruct (lookup_lt_is_Some_2 axes (length axes - 1 - m)) as [a Ea]; [lia|].
  destruct (Forall2_lookup_l _ _ _ _ _ Hax Ea) as (i & Ei & Hei).
  destruct (lookup_lt_is_Some_2 sts (length axes - 1 - m)) as [s Es]; [lia|].
  assert (Ri : reverse ixs !! m = Some i)
    by (rewrite reverse_lookup by lia; rewrite <- Ei; f_equal; lia).
  assert (Rs : reverse sts !! m = Some s)
    by (rewrite reverse_lookup by lia; rewrite <- Es; f_equal; lia).
  cbn [index_after eval_int]. rewrite IH by lia.
  rewrite (list_lookup_total_correct _ _ _ Ea), Hei.
  replace (running_stride buffer (length axes - 1) sizes contiguity sizeVars m)
    with (stride_var buffer m)
    by (destruct m; cbn [running_stride]; rewrite Hf; reflexivity).
  rewrite (Henv m s) by (try exact Es; lia).
  cbn [mbind option_bind].
  rewrite (take_S_r _ _ _ Ri), (take_S_r _ _ _ Rs).
  rewrite strided_offset_snoc; [reflexivity|].
  rewrite !length_take, !length_reverse. lia.
Qed.

Lemma filter_bool_all (f : nat -> bool) (l : list nat) :
  Forall (fun x => f x = true) l -> filter (fun i => f i = true) l = l.
Proof.
  induction 1 as [|x l Hx _ IH]; [reflexivity|].
  rewrite filter_cons_True by exact Hx. rewrite IH. reflexivity.
Qed.

(** X13.  For an input tensor none of whose contiguity flags is set,
    [createInputIndexExpr] records one stride argument per axis, the
    variable of step [i] with the axis [n - i] it belongs to, and the index
    it builds does not depend on the sizes: whatever the rank, with the axis
    variables at [ixs] and each stride variable at the stride of its axis,
    the index evaluates to the sum of the products index times stride. *)
Theorem strided_index_dot_product
    (buffer : Buffer) (axes : list Expr) (sizes strides contiguity : list Z)
    (sizeVars : gmap Z Expr) (env : string -> Z) (ixs sts : list Z) :
  length strides = length axes ->
  length sizes = length axes ->
  length contiguity = length axes ->
  length sts = length axes ->
  sizes_bound sizes sizeVars ->
  Forall (fun c => c = 0) contiguity ->
  Forall2 (fun a i => eval_int env a = Some i) axes ixs ->
  (forall i s, (i < length axes)%nat -> sts !! (length axes - 1 - i)%nat = Some s ->
     eval_int env (stride_var buffer i) = Some s) ->
  exists index karg,
    createInputIndexExpr buffer axes sizes strides contiguity sizeVars =
      Ok (Load (buf_name buffer) (buf_dtype buffer) index, karg) /\
    ka_strides karg =
      (fun i => mkShapeArg (length axes - 1 - i) (stride_var buffer i))
        <$> seq 0 (length axes) /\
    eval_int env index = Some (strided_offset ixs sts).
Proof.
  intros Hst Hs Hc Hsts Hb Hflags Hax Henv.
  pose proof (Forall2_length _ _ _ Hax) as Lix.
  rewrite createInputIndexExpr_closed_form by assumption.
  eexists _, _. split; [reflexivity|]. cbn [ka_strides]. split.
  - unfold strideArgs_after. rewrite filter_bool_all; [reflexivity|].
    apply Forall_forall. intros i Hi. apply elem_of_seq in Hi.
    unfold step_flag_false.
    destruct (lookup_lt_is_Some_2 contiguity i) as [c Ec]; [lia|]. rewrite Ec.
    rewrite Forall_lookup in Hflags. rewrite (Hflags i c Ec). reflexivity.
  - rewrite (strided_walk buffer axes sizes contiguity sizeVars env ixs sts)
      by (try assumption; lia).
    rewrite !take_ge by (rewrite length_reverse; lia).
    rewrite strided_offset_reverse by lia. reflexivity.
Qed.

Lemma strided_index_dot_product_witness :
  exists index karg,
    createInputIndexExpr (mkBuffer "tA" kFloat32) (axis_vars 2) [3; 4] [1; 3] [0; 0] ∅ =
      Ok (Load "tA" kFloat32 index, karg) /\
    ka_strides karg =
      [mkShapeArg 1 (stride_var (mkBuffer "tA" kFloat32) 0);
       mkShapeArg 0 (stride_var (mkBuffer "tA" kFloat32) 1)] /\
    eval_int (fun x => if String.eqb x "i0" then 2
                       else if String.eqb x "i1" then 1
                       else if String.eqb x "stride_tA_0" then 3 else 1) index = Some 5.
Proof.
  apply (strided_index_dot_product (mkBuffer "tA" kFloat32) (axis_vars 2) [3; 4] [1; 3]
           [0; 0] ∅ _ [2; 1] [1; 3]).
  - reflexivity.
  - reflexivity.
  - reflexivity.
  - reflexivity.
  - repeat constructor; lia.
  - repeat constructor.
  - repeat constructor.
  - intros [|[|i]] s Hi; cbn; intros [= <-]; try reflexivity. cbn in Hi. lia.
Defined.

(** ** The outputs of cat, slice, unsqueeze and chunk have constant shapes *)

Lemma Compute_shape (name : string) (dim_args : list Expr)
    (body_func : list Expr -> Res Expr) (t : Tensor) :
  Compute name dim_args body_func = Ok t ->
  func_var t = name /\ dims t = dim_args /\ args t = axis_vars (length dim_args) /\
  body_func (axis_vars (length dim_args)) = Ok (body t).
Proof.
  unfold Compute. destruct (body_func _) as [b|]; cbn [mbind Res_bind]; [|discriminate].
  intros [= <-]. repeat split.
Qed.

Lemma resolve_texprSizes (m : gmap string Z) (sizes : list Z) :
  mapM (resolve_dim m) (texprSizes sizes) = Ok (to_int32 <$> sizes).
Proof.
  apply mapM_Ok. unfold texprSizes.
  induction sizes as [|s sizes IH]; cbn; constructor; [reflexivity | exact IH].
Qed.

Lemma texprSizes_static (name : string) (sizes : list Z) (xs : list Expr) (b : Expr) :
  is_dynamic (mkTensor name (texprSizes sizes) xs b) = false.
Proof.
  unfold is_dynamic, texprSizes. cbn [dims].
  induction sizes as [|s sizes IH]; [reflexivity | exact IH].
Qed.

(** X14.  The tensor built for a cat, slice, unsqueeze or chunk node takes
    its shape from the declared type of the node's value, not from its
    operands: the dimensions are the declared sizes as 32-bit constants.
    So such an output never counts as dynamic, [run] gives it the declared
    sizes whatever the sizes of the inputs are, and a value of these kinds
    that has no tensor type cannot be lowered. *)
Theorem shape_ops_have_declared_shape
    (chunk : Tensor -> nat -> Z -> Z -> list Expr -> Res Expr)
    (k : TensorExprKernel) (v : Value) :
  kind (node v) ∈ [aten_cat; aten_slice; aten_unsqueeze; prim_ConstantChunk] ->
  (forall t, ComputeValue chunk k v = Ok t ->
     exists st sizes strides contiguity,
       type v = TensorType st sizes strides contiguity /\
       dims t = (fun s => IntImm (to_int32 s)) <$> sizes /\
       args t = axis_vars (length sizes) /\
       is_dynamic t = false /\
       forall (fresh_ptr : nat -> Z) (k1 : TensorExprKernel) (m : gmap string Z) (j : nat)
              (out : at_Tensor),
         make_output k1 fresh_ptr m (j, t) = Ok out ->
         at_sizes out = to_int32 <$> sizes) /\
  ((forall st sizes strides contiguity, type v <> TensorType st sizes strides contiguity) ->
   ComputeValue chunk k v =
     Err (Fatal "CHECK(v->type()->kind() == TypeKind::TensorType)")).
Proof.
  intros Hkind.
  assert (Hcv : exists name body_func,
            ComputeValue chunk k v = (dims_ ← texprDims v; Compute name dims_ body_func)).
  { unfold ComputeValue.
    repeat (apply elem_of_cons in Hkind as [->|Hkind]; [eauto|]). inversion Hkind. }
  destruct Hcv as (name & body_func & ->). unfold texprDims. split.
  - intros t. destruct (type v) as [st sizes strides contiguity| | | | |];
      cbn [mbind Res_bind]; try discriminate.
    intros H. apply Compute_shape in H as (Hn & Hd & Ha & _).
    exists st, sizes, strides, contiguity. split; [reflexivity|].
    split; [exact Hd|].
    split; [rewrite Ha; unfold texprSizes; rewrite length_fmap; reflexivity|].
    split.
    + destruct t as [n ds xs b]. cbn [dims] in Hd. subst ds. apply texprSizes_static.
    + intros fresh_ptr k1 m j out. unfold make_output. rewrite Hd, resolve_texprSizes.
      cbn [mbind Res_bind]. destruct (tensorType t) as [sc|]; cbn [mbind Res_bind];
        [|discriminate].
      intros [= <-]. reflexivity.
  - intros Hnot. destruct (type v) as [st sizes strides contiguity| | | | |];
      cbn [mbind Res_bind]; try reflexivity.
    exfalso. eapply Hnot. reflexivity.
Qed.

Lemma shape_ops_have_declared_shape_witness :
  exists t,
    ComputeValue chunk_unavailable ex_cat_inputs_kernel ex_cat = Ok t /\
    dims t = [IntImm 9] /\ args t = axis_vars 1 /\ is_dynamic t = false.
Proof.
  destruct (shape_ops_have_declared_shape chunk_unavailable ex_cat_inputs_kernel ex_cat)
    as [H _]; [apply list_elem_of_here|].
  pose (t := match ComputeValue chunk_unavailable ex_cat_inputs_kernel ex_cat with
             | Ok t => t
             | Err _ => mkTensor "" [] [] (IntImm 0)
             end).
  destruct (H t) as (st & sizes & strides & contiguity & Hty & Hd & Ha & Hdyn & _);
    [vm_compute; reflexivity|].
  injection Hty as _ <- _ _.
  exists t. split; [vm_compute; reflexivity|].
  split; [exact Hd|]. split; [exact Ha | exact Hdyn].
Defined.

(** ** The index shift of a concatenation *)

Lemma cat_step_inv (k : TensorExprKernel) (axes : list Expr) (dim : nat)
    (st st' : CatLoop) (inp : Value) :
  cat_step k axes dim st inp = Ok st' ->
  exists sz na_d rd axis_d,
    segment_size k inp dim = Ok sz /\
    cl_new_axes st !! dim = Some na_d /\
    axes !! dim = Some axis_d /\
    tensorOrConstant k inp (cl_new_axes st) = Ok rd /\
    st' = mkCatLoop
            (IfThenElse (CompareSelect axis_d (IntImm (to_int32 (cl_offset st))) kLT)
               (cl_load st) rd)
            (cl_offset st + sz)
            (<[dim := Sub na_d (IntImm (to_int32 (cl_offset st + sz)))]> (cl_new_axes st)).
Proof.
  unfold cat_step, at_index, assign.
  destruct (axes !! dim) as [axis_d|]; cbn [of_option mbind Res_bind]; [|discriminate].
  destruct (tensorOrConstant k inp (cl_new_axes st)) as [rd|]; cbn [mbind Res_bind];
    [|discriminate].
  destruct (segment_size k inp dim) as [sz|]; cbn [mbind Res_bind]; [|discriminate].
  destruct (cl_new_axes st !! dim) as [na_d|] eqn:En; cbn [of_option mbind Res_bind];
    [|discriminate].
  rewrite bool_decide_true by (eapply lookup_lt_Some; exact En).
  cbn [mbind Res_bind]. intros [= <-]. eauto 10.
Qed.

(** X15.  Each round of the cat loop adds the size of its segment to the
    running offset and subtracts the new running offset from the index
    along [dim] that the previous rounds have already shifted; the other
    indices are left alone.  So after the segments of sizes [sizes] the
    index along [dim] is the original one less the sum of all the running
    offsets so far, not less the last running offset: the two agree after
    one round, and after two rounds they differ by the first running
    offset. *)
Theorem cat_loop_shift_accumulates :
  (forall (k : TensorExprKernel) (axes : list Expr) (dim : nat) (inputs : list Value)
          (st0 st : CatLoop),
     foldlM (cat_step k axes dim) st0 inputs = Ok st ->
     exists sizes,
       Forall2 (fun inp s => segment_size k inp dim = Ok s) inputs sizes /\
       cl_offset st = cl_offset st0 + foldr Z.add 0 sizes /\
       length (cl_new_axes st) = length (cl_new_axes st0) /\
       (forall p, p <> dim -> cl_new_axes st !! p = cl_new_axes st0 !! p) /\
       forall env v0,
         eval_int env (cl_new_axes st0 !!! dim) = Some v0 ->
         eval_int env (cl_new_axes st !!! dim) =
           Some (v0 - cat_shift (cl_offset st0) sizes)) /\
  (forall offset s1 s2 : Z,
     0 <= offset -> 0 <= s1 -> 0 <= s2 -> offset + s1 + s2 < 2147483648 ->
     cat_shift offset [s1] = offset + s1 /\
     cat_shift offset [s1; s2] = (offset + s1 + s2) + (offset + s1)).
Proof.
  split.
  - intros k axes dim inputs. induction inputs as [|inp inputs IH]; intros st0 st.
    + cbn. intros [= <-]. exists []. split; [constructor|]. split; [cbn; lia|].
      split; [reflexivity|]. split; [reflexivity|].
      intros env v0 H. rewrite H. cbn. f_equal. lia.
    + cbn [foldlM]. destruct (cat_step k axes dim st0 inp) as [st1|] eqn:E1;
        cbn [mbind Res_bind]; [|discriminate].
      intros H. apply IH in H as (sizes & Hsz & Hoff & Hlen & Hother & Hev).
      apply cat_step_inv in E1 as (sz & na_d & rd & axis_d & Hs & Hn & _ & _ & ->).
      cbn [cl_offset cl_new_axes] in *.
      assert (Hd : (dim < length (cl_new_axes st0))%nat)
        by (eapply lookup_lt_Some; exact Hn).
      exists (sz :: sizes). split; [constructor; assumption|].
      split; [rewrite Hoff; cbn; lia|].
      split; [rewrite Hlen, length_insert; reflexivity|].
      split; [intros p Hp; rewrite Hother by exact Hp;
              apply list_lookup_insert_ne; congruence|].
      intros env v0 Hv0.
      rewrite (Hev env (v0 - to_int32 (cl_offset st0 + sz))).
      * cbn [cat_shift]. f_equal. lia.
      * rewrite list_lookup_total_insert_eq by exact Hd.
        rewrite (list_lookup_total_correct _ _ _ Hn) in Hv0.
        cbn [eval_int]. rewrite Hv0. reflexivity.
  - intros offset s1 s2 H0 H1 H2 Hlt. cbn [cat_shift].
    rewrite !to_int32_id by lia. lia.
Qed.

Lemma cat_loop_shift_accumulates_witness :
  (exists st sizes,
     foldlM (cat_step ex_cat_inputs_kernel (axis_vars 1) 0)
       (mkCatLoop (IntImm 0) 2 [Sub (Var "i0" kInt32) (IntImm 2)]) [ex_cb; ex_cc] = Ok st /\
     Forall2 (fun inp s => segment_size ex_cat_inputs_kernel inp 0 = Ok s)
       [ex_cb; ex_cc] sizes /\
     cl_offset st = 2 + foldr Z.add 0 sizes /\
     eval_int (fun _ => 5) (cl_new_axes st !!! 0%nat) = Some (3 - cat_shift 2 sizes)) /\
  cat_shift 2 [3; 4] = (2 + 3 + 4) + (2 + 3).
Proof.
  destruct cat_loop_shift_accumulates as [H1 H2].
  split; [|apply (H2 2 3 4); lia].
  pose (st0 := mkCatLoop (IntImm 0) 2 [Sub (Var "i0" kInt32) (IntImm 2)]).
  pose (st := match foldlM (cat_step ex_cat_inputs_kernel (axis_vars 1) 0) st0
                      [ex_cb; ex_cc] with
              | Ok s => s
              | Err _ => st0
              end).
  destruct (H1 ex_cat_inputs_kernel (axis_vars 1) 0%nat [ex_cb; ex_cc] st0 st)
    as (sizes & Hsz & Hoff & _ & _ & Hev); [vm_compute; reflexivity|].
  exists st, sizes. split; [vm_compute; reflexivity|].
  split; [exact Hsz|]. split; [exact Hoff|].
  apply (Hev (fun _ => 5) 3). reflexivity.
Defined.

(** ** Where slice and unsqueeze read their operand *)

Lemma input_lookup (n : Node) (i : nat) (x : Value) :
  inputs n !! i = Some x -> input n i = Ok x.
Proof. unfold input. intros ->. reflexivity. Qed.

(** X16.  A slice reads its operand at the axes of the output with the
    index along [dim] replaced by [stride * index + start]: a negative
    start is not counted from the end, and the end operand is never looked
    at.  An unsqueeze reads its operand at the axes of the output without
    the one at [dim]; a negative [dim] counts from the rank of the output
    less one, so that [dim = -1] drops the axis before the last one and
    keeps the last. *)
Theorem slice_unsqueeze_indices :
  (forall (k : TensorExprKernel) (v : Value) (axes : list Expr)
          (in0 in1 in2 in3 in4 : Value) (dimz : Z) (start stride a : Expr),
     inputs (node v) = [in0; in1; in2; in3; in4] ->
     constant (scalars_ k) in1 = Ok (IntImm dimz) ->
     constant (scalars_ k) in2 = Ok start ->
     constant (scalars_ k) in4 = Ok stride ->
     0 <= dimz ->
     axes !! Z.to_nat dimz = Some a ->
     aten_slice_body k v axes =
       tensorOrConstant k in0 (<[Z.to_nat dimz := Add (Mul stride a) start]> axes) /\
     (forall env i s t,
        eval_int env a = Some i -> eval_int env start = Some s ->
        eval_int env stride = Some t ->
        eval_int env (Add (Mul stride a) start) = Some (t * i + s)) /\
     (forall v' in3',
        inputs (node v') = [in0; in1; in2; in3'; in4] ->
        aten_slice_body k v' axes = aten_slice_body k v axes)) /\
  (forall (k : TensorExprKernel) (v : Value) (axes : list Expr)
          (in0 in1 : Value) (dimz : Z),
     inputs (node v) = [in0; in1] ->
     constant (scalars_ k) in1 = Ok (IntImm dimz) ->
     let p := if dimz <? 0 then dimz + (Z.of_nat (length axes) - 1) else dimz in
     0 <= p < Z.of_nat (length axes) ->
     aten_unsqueeze_body k v axes = tensorOrConstant k in0 (delete (Z.to_nat p) axes)) /\
  (forall (k : TensorExprKernel) (v : Value) (axes : list Expr) (in0 in1 : Value)
          (outer last : Expr),
     inputs (node v) = [in0; in1] ->
     constant (scalars_ k) in1 = Ok (IntImm (-1)) ->
     aten_unsqueeze_body k v (axes ++ [outer; last]) =
       tensorOrConstant k in0 (axes ++ [last])).
Proof.
  assert (Hslice : forall k v axes in0 in1 in2 in3 in4 dimz start stride a,
     inputs (node v) = [in0; in1; in2; in3; in4] ->
     constant (scalars_ k) in1 = Ok (IntImm dimz) ->
     constant (scalars_ k) in2 = Ok start ->
     constant (scalars_ k) in4 = Ok stride ->
     0 <= dimz ->
     axes !! Z.to_nat dimz = Some a ->
     aten_slice_body k v axes =
       tensorOrConstant k in0 (<[Z.to_nat dimz := Add (Mul stride a) start]> axes)).
  { intros k v axes in0 in1 in2 in3 in4 dimz start stride a Hin H1 H2 H4 Hd Ha.
    unfold aten_slice_body, constant_int.
    rewrite (input_lookup _ 0 in0), (input_lookup _ 1 in1), (input_lookup _ 2 in2),
      (input_lookup _ 4 in4) by (rewrite Hin; reflexivity).
    cbn [mbind Res_bind]. rewrite H1, H2, H4. cbn [mbind Res_bind AsNode_IntImm of_option].
    unfold to_index. replace (dimz <? 0) with false by lia. cbn [mbind Res_bind].
    unfold at_index, assign. rewrite Ha. cbn [of_option mbind Res_bind].
    rewrite bool_decide_true by (eapply lookup_lt_Some; exact Ha). reflexivity. }
  assert (Hunsq : forall k v axes in0 in1 dimz,
     inputs (node v) = [in0; in1] ->
     constant (scalars_ k) in1 = Ok (IntImm dimz) ->
     let p := if dimz <? 0 then dimz + (Z.of_nat (length axes) - 1) else dimz in
     0 <= p < Z.of_nat (length axes) ->
     aten_unsqueeze_body k v axes = tensorOrConstant k in0 (delete (Z.to_nat p) axes)).
  { intros k v axes in0 in1 dimz Hin H1 p Hp.
    unfold aten_unsqueeze_body, constant_int.
    rewrite (input_lookup _ 0 in0), (input_lookup _ 1 in1) by (rewrite Hin; reflexivity).
    cbn [mbind Res_bind]. rewrite H1. cbn [mbind Res_bind AsNode_IntImm of_option].
    fold p. unfold to_index. replace (p <? 0) with false by lia. cbn [mbind Res_bind].
    unfold at_index.
    destruct (lookup_lt_is_Some_2 axes (Z.to_nat p)) as [a Ea]; [lia|].
    rewrite Ea. reflexivity. }
  split; [|split].
  - intros k v axes in0 in1 in2 in3 in4 dimz start stride a Hin H1 H2 H4 Hd Ha.
    split; [eapply Hslice; eassumption|]. split.
    + intros env i s t Hi Hs Ht. cbn [eval_int]. rewrite Ht, Hi, Hs. reflexivity.
    + intros v' in3' Hin'.
      rewrite (Hslice k v' axes in0 in1 in2 in3' in4 dimz start stride a) by assumption.
      rewrite (Hslice k v axes in0 in1 in2 in3 in4 dimz start stride a) by assumption.
      reflexivity.
  - exact Hunsq.
  - intros k v axes in0 in1 outer last Hin H1.
    rewrite (Hunsq k v (axes ++ [outer; last]) in0 in1 (-1) Hin H1)
      by (rewrite length_app; cbn; lia).
    f_equal. rewrite length_app. cbn [length].
    change (-1 <? 0) with true. cbn iota.
    replace (Z.to_nat (-1 + (Z.of_nat (length axes + 2) - 1))) with (length axes) by lia.
    apply (delete_middle axes [last] outer).
Qed.

Lemma slice_unsqueeze_indices_witness :
  aten_slice_body ex_locked_kernel
    (graph_node 9 "s" (float_tensor [2]) aten_slice
       [ex_dx; graph_constant 5 "d" IntType (IV_Int 0);
        graph_constant 6 "b" IntType (IV_Int (-1));
        graph_constant 7 "e" IntType (IV_Int 100);
        graph_constant 8 "s" IntType (IV_Int 2)])
    [Var "i0" kInt32] =
  tensorOrConstant ex_locked_kernel ex_dx
    (<[Z.to_nat 0 := Add (Mul (IntImm 2) (Var "i0" kInt32)) (IntImm (-1))]>
       [Var "i0" kInt32]) /\
  aten_unsqueeze_body ex_locked_kernel
    (graph_node 9 "u" (float_tensor [2; 3; 1]) aten_unsqueeze
       [ex_dx; graph_constant 8 "d" IntType (IV_Int (-1))])
    ([Var "i0" kInt32] ++ [Var "i1" kInt32; Var "i2" kInt32]) =
  tensorOrConstant ex_locked_kernel ex_dx ([Var "i0" kInt32] ++ [Var "i2" kInt32]).
Proof.
  destruct slice_unsqueeze_indices as (Hs & _ & Hu).
  split.
  - apply (Hs ex_locked_kernel _ [Var "i0" kInt32] ex_dx
             (graph_constant 5 "d" IntType (IV_Int 0))
             (graph_constant 6 "b" IntType (IV_Int (-1)))
             (graph_constant 7 "e" IntType (IV_Int 100))
             (graph_constant 8 "s" IntType (IV_Int 2))
             0 (IntImm (-1)) (IntImm 2) (Var "i0" kInt32)); first [reflexivity | lia].
  - apply (Hu ex_locked_kernel _ [Var "i0" kInt32] ex_dx
             (graph_constant 8 "d" IntType (IV_Int (-1)))); reflexivity.
Defined.

(** ** Operators lowered element by element *)

Lemma compute_body_demoted (k : TensorExprKernel) (v : Value) (operands : list Value)
    (template : list Expr -> Expr) (axes : list Expr) (b : Expr) :
  compute_body k v operands template axes = Ok b ->
  exists st sizes strides contiguity,
    type v = TensorType st sizes strides contiguity /\
    (st = Some ST_Int -> dtype b <> kFloat32).
Proof.
  unfold compute_body.
  destruct (mapM _ operands) as [ins|]; cbn [mbind Res_bind]; [|discriminate].
  destruct (type v) as [st sizes strides contiguity| | | | |] eqn:Hty;
    try (unfold demoteOutput; rewrite Hty; discriminate).
  rewrite (demoteOutput_tensor _ v st sizes strides contiguity Hty).
  intros [= <-]. exists st, sizes, strides, contiguity. split; [reflexivity|].
  intros ->. destruct (decide (dtype (template (promoteInputs ins)) = kFloat32)) as [H|H].
  - rewrite bool_decide_true by auto. discriminate.
  - rewrite bool_decide_false by tauto. exact H.
Qed.

Lemma broadcastShapes_length_l (a b : list Expr) :
  (length a <= length (broadcastShapes a b))%nat.
Proof.
  unfold broadcastShapes.
  rewrite length_reverse, broadcast_loop_length, !length_reverse. lia.
Qed.

Lemma broadcastShapesN_length_l (a b : list Expr) (rest : list (list Expr)) :
  (length a <= length (broadcastShapesN a b rest))%nat.
Proof.
  unfold broadcastShapesN.
  assert (G : forall acc, (length acc <= length (foldl broadcastShapes acc rest))%nat).
  { induction rest as [|c rest IH]; intros acc; cbn [foldl]; [lia|].
    etransitivity; [apply (broadcastShapes_length_l acc c) | apply IH]. }
  etransitivity; [apply (broadcastShapes_length_l a b) | apply G].
Qed.

Lemma Compute_elementwise (k : TensorExprKernel) (v : Value) (name : string)
    (shape : list Expr) (operands : list Value) (template : list Expr -> Expr)
    (in0 : Value) (t : Tensor) :
  inputs (node v) !! 0%nat = Some in0 ->
  (length (valueShape (tensors_ k) in0) <= length shape)%nat ->
  Compute name shape (compute_body k v operands template) = Ok t ->
  elementwise_result k v t.
Proof.
  intros Hin Hlen H. apply Compute_shape in H as (_ & Hd & Ha & Hb).
  apply compute_body_demoted in Hb. unfold elementwise_result.
  split; [exact Hb|]. split; [rewrite Ha, Hd; reflexivity|].
  exists in0. rewrite Hd. split; assumption.
Qed.

Lemma input_inv (n : Node) (i : nat) (x : Value) :
  input n i = Ok x -> inputs n !! i = Some x.
Proof. unfold input. destruct (inputs n !! i); [intros [= <-]; reflexivity | discriminate]. Qed.

Lemma ComputeOneOperand_result (k : TensorExprKernel) (name : string) (v : Value)
    (f : Expr -> Expr) (t : Tensor) :
  ComputeOneOperand k name v f = Ok t -> elementwise_result k v t.
Proof.
  unfold ComputeOneOperand.
  destruct (input (node v) 0) as [in0|] eqn:E0; cbn [mbind Res_bind]; [|discriminate].
  apply Compute_elementwise with (in0 := in0); [apply input_inv, E0 | lia].
Qed.

Lemma ComputeTwoOperand_result (k : TensorExprKernel) (name : string) (v : Value)
    (f : Expr -> Expr -> Expr) (t : Tensor) :
  ComputeTwoOperand k name v f = Ok t -> elementwise_result k v t.
Proof.
  unfold ComputeTwoOperand.
  destruct (input (node v) 0) as [in0|] eqn:E0; cbn [mbind Res_bind]; [|discriminate].
  destruct (input (node v) 1) as [in1|]; cbn [mbind Res_bind]; [|discriminate].
  apply Compute_elementwise with (in0 := in0);
    [apply input_inv, E0 | apply broadcastShapes_length_l].
Qed.

Lemma ComputeTwoOperandWithAlpha_result (k : TensorExprKernel) (name : string) (v : Value)
    (f : Expr -> Expr -> Expr) (t : Tensor) :
  ComputeTwoOperandWithAlpha k name v f = Ok t -> elementwise_result k v t.
Proof.
  unfold ComputeTwoOperandWithAlpha.
  destruct (input (node v) 0) as [in0|] eqn:E0; cbn [mbind Res_bind]; [|discriminate].
  destruct (input (node v) 1) as [in1|]; cbn [mbind Res_bind]; [|discriminate].
  destruct (input (node v) 2) as [in2|]; cbn [mbind Res_bind]; [|discriminate].
  apply Compute_elementwise with (in0 := in0);
    [apply input_inv, E0 | apply broadcastShapes_length_l].
Qed.

Lemma ComputeThreeOperand_result (k : TensorExprKernel) (name : string) (v : Value)
    (f : Expr -> Expr -> Expr -> Expr) (t : Tensor) :
  ComputeThreeOperand k name v f = Ok t -> elementwise_result k v t.
Proof.
  unfold ComputeThreeOperand.
  destruct (input (node v) 0) as [in0|] eqn:E0; cbn [mbind Res_bind]; [|discriminate].
  destruct (input (node v) 1) as [in1|]; cbn [mbind Res_bind]; [|discriminate].
  destruct (input (node v) 2) as [in2|]; cbn [mbind Res_bind]; [|discriminate].
  apply Compute_elementwise with (in0 := in0);
    [apply input_inv, E0 | apply broadcastShapesN_length_l].
Qed.

Lemma ComputeFourOperand_result (k : TensorExprKernel) (name : string) (v : Value)
    (f : Expr -> Expr -> Expr -> Expr -> Expr) (t : Tensor) :
  ComputeFourOperand k name v f = Ok t -> elementwise_result k v t.
Proof.
  unfold ComputeFourOperand.
  destruct (input (node v) 0) as [in0|] eqn:E0; cbn [mbind Res_bind]; [|discriminate].
  destruct (input (node v) 1) as [in1|]; cbn [mbind Res_bind]; [|discriminate].
  destruct (input (node v) 2) as [in2|]; cbn [mbind Res_bind]; [|discriminate].
  destruct (input (node v) 3) as [in3|]; cbn [mbind Res_bind]; [|discriminate].
  apply Compute_elementwise with (in0 := in0);
    [apply input_inv, E0 | apply broadcastShapesN_length_l].
Qed.

(** X17.  Every operator that [ComputeValue] lowers, other than cat, slice,
    unsqueeze and chunk, goes through one of the N-operand combinators, and
    so whatever the operator: the value must have a tensor type, a declared
    integer type is respected (the element expression of the tensor is
    never a float), the tensor has one axis variable per dimension, and its
    rank is at least the rank of the first operand.  Kinds that are not in
    the table (parameters, constants, list constructions, other operators)
    are refused. *)
Theorem ComputeValue_elementwise
    (chunk : Tensor -> nat -> Z -> Z -> list Expr -> Res Expr)
    (k : TensorExprKernel) (v : Value) :
  kind (node v) ∉ shape_ops ->
  (forall t, ComputeValue chunk k v = Ok t -> elementwise_result k v t) /\
  (kind (node v) ∈ [prim_Param; prim_Constant; prim_ListConstruct] \/
   (exists name, kind (node v) = aten_other name) ->
   ComputeValue chunk k v = Err (RuntimeError "Unhandled node kind")).
Proof.
  intros Hnot. split.
  - intros t. unfold ComputeValue.
    destruct (kind (node v)) eqn:Ek;
      try discriminate;
      try apply ComputeOneOperand_result;
      try apply ComputeTwoOperand_result;
      try apply ComputeTwoOperandWithAlpha_result;
      try apply ComputeFourOperand_result;
      try apply ComputeThreeOperand_result;
      try solve [exfalso; apply Hnot; unfold shape_ops; repeat constructor].
    destruct (operand_is_none v 1) as [no_min|]; cbn [mbind Res_bind]; [|discriminate].
    destruct (operand_is_none v 2) as [no_max|]; cbn [mbind Res_bind]; [|discriminate].
    apply ComputeThreeOperand_result.
  - intros [Hin|[name Hn]]; unfold ComputeValue.
    + repeat (apply elem_of_cons in Hin as [->|Hin]; [reflexivity|]). inversion Hin.
    + rewrite Hn. reflexivity.
Qed.

Lemma ComputeValue_elementwise_witness :
  exists t,
    ComputeValue chunk_unavailable
      (match bindInput ex_locked_kernel ex_dx with Ok k => k | Err _ => ex_locked_kernel end)
      ex_dy = Ok t /\
    args t = axis_vars (length (dims t)).
Proof.
  pose (k := match bindInput ex_locked_kernel ex_dx with
             | Ok k => k
             | Err _ => ex_locked_kernel
             end).
  pose (t := match ComputeValue chunk_unavailable k ex_dy with
             | Ok t => t
             | Err _ => mkTensor "" [] [] (IntImm 0)
             end).
  destruct (ComputeValue_elementwise chunk_unavailable k ex_dy) as [H _].
  - unfold shape_ops. intros Hin.
    repeat (apply elem_of_cons in Hin as [Hin|Hin]; [cbv in Hin; discriminate Hin|]).
    inversion Hin.
  - destruct (H t) as (_ & Ha & _); [vm_compute; reflexivity|].
    exists t. split; [vm_compute; reflexivity | exact Ha].
Defined.

(** ** The number of elements of a tensor *)

Lemma to_int64_id (x : Z) :
  -9223372036854775808 <= x < 9223372036854775808 -> to_int64 x = x.
Proof.
  intros H. unfold to_int64. rewrite Z.mod_small by lia. lia.
Qed.

Lemma to_int64_range (x : Z) :
  -9223372036854775808 <= to_int64 x < 9223372036854775808.
Proof.
  unfold to_int64.
  pose proof (Z.mod_pos_bound (x + 9223372036854775808) 18446744073709551616). lia.
Qed.

Lemma to_int64_mul_l (x y : Z) : to_int64 (to_int64 x * y) = to_int64 (x * y).
Proof.
  unfold to_int64. f_equal.
  rewrite (Z.add_mod (_ * y)), (Z.add_mod (x * y)) by lia. f_equal. f_equal.
  rewrite (Z.mul_mod _ y), (Z.mul_mod x y) by lia. f_equal. f_equal.
  rewrite <- (Zminus_mod_idemp_l ((x + 9223372036854775808) mod 18446744073709551616)).
  rewrite Z.mod_mod by lia. rewrite Zminus_mod_idemp_l. f_equal. lia.
Qed.

Lemma bufferSize_fold (ds : list Z) (a : Z) :
  foldlM (fun size d =>
            v ← of_option (AsNode_IntImm d) (Undefined "value() of a null IntImm node");
            Ok (to_int64 (size * v))) (to_int64 a) (IntImm <$> ds) =
    Ok (to_int64 (a * numel ds)).
Proof.
  revert a. induction ds as [|d ds IH]; intros a.
  - cbn. unfold numel. cbn. rewrite Z.mul_1_r. reflexivity.
  - cbn [fmap list_fmap foldlM AsNode_IntImm of_option mbind Res_bind].
    rewrite to_int64_mul_l, IH. f_equal. f_equal.
    unfold numel. cbn [foldl]. rewrite (foldl_mul_scale ds (1 * d)). unfold numel. lia.
Qed.

Lemma static_dims (t : Tensor) :
  is_dynamic t = false -> exists ds, dims t = IntImm <$> ds.
Proof.
  unfold is_dynamic. induction (dims t) as [|d l IH]; intros H; [exists []; reflexivity|].
  cbn [existsb] in H. apply orb_false_iff in H as [Hd Hl].
  destruct (IH Hl) as [ds ->]. destruct d; try discriminate Hd.
  eexists (_ :: ds). reflexivity.
Qed.

(** X18.  [bufferSize] multiplies the dimensions in a 64-bit integer: for a
    tensor whose dimensions are the constants [ds] it is the product of
    [ds] wrapped around to 64 bits, hence the product itself when that fits
    (1 for a tensor without dimensions).  It reads the value of a null node
    exactly when some dimension is not a constant.  When the product fits,
    the extent of the flattened copy that the GPU lowering makes of an
    output evaluates to the [bufferSize] of the output. *)
Theorem bufferSize_is_numel :
  (forall (t : Tensor) (ds : list Z),
     dims t = IntImm <$> ds ->
     bufferSize t = Ok (to_int64 (numel ds)) /\
     (-9223372036854775808 <= numel ds < 9223372036854775808 ->
      bufferSize t = Ok (numel ds))) /\
  (forall t : Tensor,
     (is_ok (bufferSize t) = true <-> is_dynamic t = false) /\
     (is_dynamic t = true ->
      bufferSize t = Err (Undefined "value() of a null IntImm node"))) /\
  (forall (t t' : Tensor) (ds : list Z),
     dims t = IntImm <$> ds ->
     -9223372036854775808 <= numel ds < 9223372036854775808 ->
     flatten_output t = Ok t' ->
     exists total,
       dims t' = [total] /\
       bufferSize t = Ok (numel ds) /\
       forall env, eval_int env total = Some (numel ds)).
Proof.
  assert (Hnum : forall t ds, dims t = IntImm <$> ds ->
                   bufferSize t = Ok (to_int64 (numel ds))).
  { intros t ds Hd. unfold bufferSize. rewrite Hd.
    change 1 with (to_int64 1) at 1. rewrite bufferSize_fold. f_equal. f_equal. lia. }
  assert (Hdyn : forall t, is_ok (bufferSize t) = true -> is_dynamic t = false).
  { intros t. unfold bufferSize, is_dynamic. generalize 1.
    induction (dims t) as [|d l IH]; intros a; [reflexivity|].
    cbn [foldlM existsb]. destruct (AsNode_IntImm d) as [c|];
      cbn [of_option mbind Res_bind]; [|discriminate].
    apply IH. }
  split; [|split].
  - intros t ds Hd. split; [apply Hnum, Hd|].
    intros Hr. rewrite (Hnum t ds Hd), to_int64_id by exact Hr. reflexivity.
  - intros t. split.
    + split; [apply Hdyn|].
      intros H. destruct (static_dims t H) as [ds Hd]. rewrite (Hnum t ds Hd). reflexivity.
    + unfold bufferSize, is_dynamic. generalize 1.
      induction (dims t) as [|d l IH]; intros a; [discriminate|].
      cbn [foldlM existsb]. destruct (AsNode_IntImm d) as [c|];
        cbn [of_option mbind Res_bind orb]; [apply IH | reflexivity].
  - intros t t' ds Hd Hr Hf.
    assert (Hb : bufferSize t = Ok (numel ds))
      by (rewrite (Hnum t ds Hd), to_int64_id by exact Hr; reflexivity).
    unfold flatten_output in Hf. rewrite Hd in Hf.
    destruct ds as [|d0 ds]; [discriminate Hf|]. cbn [fmap list_fmap] in Hf.
    apply Compute_shape in Hf as (_ & Hdims & _).
    eexists. split; [exact Hdims|]. split; [exact Hb|]. intros env.
    change (foldl Mul (IntImm d0) (list_fmap Z Expr IntImm ds))
      with (foldl Mul (IntImm d0) (IntImm <$> ds)).
    rewrite (total_count_eval env ds (IntImm d0) d0) by reflexivity.
    unfold numel. cbn [foldl]. do 2 f_equal. lia.
Qed.

Lemma bufferSize_is_numel_witness :
  bufferSize (mkTensor "out" [IntImm 2; IntImm 3; IntImm 4] (axis_vars 3) (IntImm 0)) =
    Ok 24 /\
  bufferSize (mkTensor "out" [IntImm 2147483647; IntImm 2147483647; IntImm 2147483647]
                (axis_vars 3) (IntImm 0)) = Ok 4611686024869838847 /\
  bufferSize (mkTensor "out" [Var "size_0_0" kInt32] (axis_vars 1) (IntImm 0)) =
    Err (Undefined "value() of a null IntImm node").
Proof.
  destruct bufferSize_is_numel as (Hnum & Hdyn & _).
  split; [|split].
  - destruct (Hnum (mkTensor "out" [IntImm 2; IntImm 3; IntImm 4] (axis_vars 3) (IntImm 0))
                [2; 3; 4] eq_refl) as [_ H].
    apply H. unfold numel. cbn [foldl]. lia.
  - destruct (Hnum (mkTensor "out" [IntImm 2147483647; IntImm 2147483647; IntImm 2147483647]
                      (axis_vars 3) (IntImm 0)) [2147483647; 2147483647; 2147483647] eq_refl)
      as [H _].
    exact H.
  - apply Hdyn. reflexivity.
Defined.
